(** * imbalanced-DL-sampling: long-tailed SVHN construction and DRW trainers

    A shallow embedding of
    - [imbalanceddl/dataset/m2m_imbalance_svhn.py] (class [M2M_SVHN_LT]),
    - [imbalanceddl/strategy/_erm.py], [_ldam_drw.py], [_mixup_drw.py].

    Conventions.
    - Python [int] is [Z]; list positions produced by [range] are [nat].
    - Python exceptions are the constructors of [exn]; a computation that may
      raise returns a [result]; a method that mutates [self] is a function
      [St -> result A * St], so the fields written before a [raise] stay
      written.
    - NumPy floats and tensor entries are idealised: a finite one is an
      exact rational ([Qc]); rounding of float32 tensors is not modelled.
      Division by zero in NumPy yields [inf] or [nan] and no exception,
      which [npfloat] keeps.
    - [get_img_num_per_cls] is given twice.  [Binary64] has it on IEEE
      doubles, bit for bit, with the exceptions [int(...)] raises; the
      power operator, which CPython leaves to the C library, is a
      parameter there.  [Dataset] has it over exact reals ([R]), the
      idealisation the constructor and the bounds on the counts are stated
      with. *)

From Stdlib Require Import ZArith QArith Qcanon Qround Reals Lra Lia List String
  Permutation SpecFloat.
From stdpp Require Import base decidable option list numbers sorting gmap
  pretty.
Import ListNotations.

Local Open Scope Z_scope.

(* ===================================================================== *)
(** ** Python primitives *)
(* ===================================================================== *)

Module Py.

Inductive exn : Type :=
| IndexError
| ValueError (msg : string)
| ZeroDivisionError
| TypeError
| AssertionError (msg : string)
| OverflowError (msg : string)
| RuntimeError (msg : string).

Inductive result (A : Type) : Type :=
| Ok (a : A)
| Raise (e : exn).
Arguments Ok {A} a.
Arguments Raise {A} e.

#[export] Instance result_ret : MRet result := fun A a => Ok a.
#[export] Instance result_bind : MBind result := fun A B f m =>
  match m with
  | Ok a => f a
  | Raise e => Raise e
  end.

(** Left fold of a fallible body, the shape of a [for] loop whose body may
    raise: the first exception ends the loop. *)
Fixpoint for_each {A St : Type} (body : St -> A -> result St) (s : St)
    (l : list A) : result St :=
  match l with
  | [] => Ok s
  | x :: l' =>
      match body s x with
      | Ok s' => for_each body s' l'
      | Raise e => Raise e
      end
  end.

(** A method that mutates [self]: the state reached when an exception is
    raised is kept, as the fields assigned before a Python [raise] are. *)
Definition method (St A : Type) : Type := St -> result A * St.

#[export] Instance method_ret {St : Type} : MRet (method St) :=
  fun A a s => (Ok a, s).
#[export] Instance method_bind {St : Type} : MBind (method St) :=
  fun A B f m s =>
    match m s with
    | (Ok a, s') => f a s'
    | (Raise e, s') => (Raise e, s')
    end.

Definition raise {St A : Type} (e : exn) : method St A := fun s => (Raise e, s).
Definition get {St : Type} : method St St := fun s => (Ok s, s).
Definition modify {St : Type} (f : St -> St) : method St unit :=
  fun s => (Ok tt, f s).
Definition lift {St A : Type} (r : result A) : method St A := fun s => (r, s).

(** A [for] loop inside a method, threading the local variables [acc]. *)
Fixpoint for_loop {A Acc St : Type} (body : Acc -> A -> method St Acc)
    (acc : Acc) (l : list A) : method St Acc :=
  match l with
  | [] => mret acc
  | x :: l' => acc' ← body acc x; for_loop body acc' l'
  end.

(** [l[i]] position: non-negative indices count from the front, negative
    ones from the back, anything else is an [IndexError]. *)
Definition index_of {A : Type} (l : list A) (i : Z) : result nat :=
  let n := Z.of_nat (length l) in
  if decide (0 <= i < n) then Ok (Z.to_nat i)
  else if decide (- n <= i < 0) then Ok (Z.to_nat (i + n))
  else Raise IndexError.

(** [l[i]] *)
Definition getitem {A : Type} (l : list A) (i : Z) : result A :=
  k ← index_of l i;
  match l !! k with
  | Some x => Ok x
  | None => Raise IndexError
  end.

(** [l[i] = x] *)
Definition setitem {A : Type} (l : list A) (i : Z) (x : A) : result (list A) :=
  k ← index_of l i;
  Ok (<[k := x]> l).

(** [l[:n]] *)
Definition slice_to {A : Type} (l : list A) (n : Z) : list A :=
  if decide (0 <= n) then take (Z.to_nat n) l
  else take (Z.to_nat (Z.of_nat (length l) + n)) l.

(** [[x] * n] *)
Definition list_mul {A : Type} (x : A) (n : Z) : list A :=
  replicate (Z.to_nat n) x.

End Py.
Import Py.

(* ===================================================================== *)
(** ** The long-tailed SVHN dataset *)
(* ===================================================================== *)

Module Dataset.

(** *** The oversampling index builder *)

Section IndexBuilder.
Context {A : Type}.

(** State of the loop of [get_imbalanced_data]: the private copy of
    [num_sample_per_class] and [selected_list]. *)
Definition budget_state : Type := list Z * list nat.

(** Body of [for i in range(0, length)]. *)
Definition select_body (dataset : list (A * Z)) (indices : list nat)
    (st : budget_state) (i : nat) : result budget_state :=
  let '(num_sample_per_class, selected_list) := st in
  index ← getitem indices (Z.of_nat i);
  item ← getitem dataset (Z.of_nat index);
  let label := item.2 in
  remaining ← getitem num_sample_per_class label;
  if decide (remaining > 0) then
    num' ← setitem num_sample_per_class label (remaining - 1);
    Ok (num', selected_list ++ [index])
  else Ok (num_sample_per_class, selected_list).

(** [M2M_SVHN_LT.get_imbalanced_data]; [shuffle] and [random_seed] are
    ignored by the source. A dataset is the list of its [(image, label)]
    items. *)
Definition get_imbalanced_data (dataset : list (A * Z))
    (num_sample_per_class : list Z) : result (list nat) :=
  let length := length dataset in
  let indices := seq 0 length in
  st ← for_each (select_body dataset indices)
                (num_sample_per_class, []) (seq 0 length);
  Ok st.2.

(** Specification side.  The position of the budget list that a label
    selects, with Python's negative indices; [None] when [budget[label]]
    raises. *)
Definition slot (budget : list Z) (label : Z) : option nat :=
  match index_of budget label with
  | Ok k => Some k
  | Raise _ => None
  end.

(** How many of the first [i] items select position [k]. *)
Definition seen (dataset : list (A * Z)) (budget : list Z) (k i : nat) : Z :=
  Z.of_nat (length (List.filter
                      (fun label => bool_decide (slot budget label = Some k))
                      (take i dataset.*2))).

(** Item [i] is kept when fewer items of its class came before it than the
    class's initial budget. *)
Definition kept (dataset : list (A * Z)) (budget : list Z) (i : nat) : bool :=
  match dataset.*2 !! i with
  | Some label =>
      match slot budget label with
      | Some k =>
          match budget !! k with
          | Some b => seen dataset budget k i <? b
          | None => false
          end
      | None => false
      end
  | None => false
  end.

End IndexBuilder.

(** *** NumPy helpers used by the construction *)

Fixpoint insert_sorted (x : Z) (l : list Z) : list Z :=
  match l with
  | [] => [x]
  | y :: l' =>
      if x <? y then x :: l
      else if x =? y then l
      else y :: insert_sorted x l'
  end.

(** [np.unique(targets)]: the distinct values, ascending. *)
Definition np_unique (targets : list Z) : list Z :=
  foldr insert_sorted [] targets.

Fixpoint where_from (k : nat) (targets : list Z) (c : Z) : list nat :=
  match targets with
  | [] => []
  | t :: ts =>
      if t =? c then k :: where_from (S k) ts c else where_from (S k) ts c
  end.

(** [np.where(targets == c)[0]]: the positions holding [c], ascending. *)
Definition np_where_eq (targets : list Z) (c : Z) : list nat :=
  where_from 0 targets c.

Section Construction.
Context {Img RNG : Type}.

(** [np.random.shuffle]: permutes its argument and advances the global
    generator. *)
Variable shuffle : RNG -> list nat -> list nat * RNG.

(** [data[selec_idx, ...]]: one row per index, [IndexError] past the end. *)
Definition fancy_index (data : list Img) (selec_idx : list nat)
  : result (list Img) :=
  for_each (fun rows i =>
              match data !! i with
              | Some row => Ok (rows ++ [row])
              | None => Raise IndexError
              end) [] selec_idx.

(** [np.vstack]: refuses an empty sequence of blocks. *)
Definition np_vstack (blocks : list (list Img)) : result (list Img) :=
  match blocks with
  | [] => Raise (ValueError "need at least one array to concatenate")
  | _ => Ok (concat blocks)
  end.

(** The fields of [M2M_SVHN_LT] the construction touches, with NumPy's
    global generator. [data] is the sample array by rows, so that
    [data.shape[0]] is [length (data s)]. *)
Record M2M_SVHN_LT : Type := {
  data : list Img;
  labels : list Z;
  num_per_cls_dict : gmap Z Z;
  img_num_list : list Z;
  np_random : RNG;
}.

Definition set_num_per_cls_dict (f : gmap Z Z -> gmap Z Z) (s : M2M_SVHN_LT) :=
  {| data := data s; labels := labels s;
     num_per_cls_dict := f (num_per_cls_dict s);
     img_num_list := img_num_list s; np_random := np_random s |}.

Definition set_np_random (g : RNG) (s : M2M_SVHN_LT) :=
  {| data := data s; labels := labels s;
     num_per_cls_dict := num_per_cls_dict s;
     img_num_list := img_num_list s; np_random := g |}.

Definition set_data_labels (d : list Img) (l : list Z) (s : M2M_SVHN_LT) :=
  {| data := d; labels := l;
     num_per_cls_dict := num_per_cls_dict s;
     img_num_list := img_num_list s; np_random := np_random s |}.

(** Body of [for the_class, the_img_num in zip(classes, img_num_per_cls)];
    the locals are [(new_data, new_targets)]. *)
Definition gen_body (targets_np : list Z)
    (acc : list (list Img) * list Z) (p : Z * Z)
  : method M2M_SVHN_LT (list (list Img) * list Z) :=
  let '(new_data, new_targets) := acc in
  let '(the_class, the_img_num) := p in
  _ ← modify (set_num_per_cls_dict <[the_class := the_img_num]>);
  let idx := np_where_eq targets_np the_class in
  self ← get;
  let '(idx, g) := shuffle (np_random self) idx in
  _ ← modify (set_np_random g);
  let selec_idx := slice_to idx the_img_num in
  rows ← lift (fancy_index (data self) selec_idx);
  mret (new_data ++ [rows], new_targets ++ list_mul the_class the_img_num).

(** [M2M_SVHN_LT.gen_imbalanced_data]. *)
Definition gen_imbalanced_data (img_num_per_cls : list Z)
  : method M2M_SVHN_LT unit :=
  self ← get;
  let targets_np := labels self in
  let classes := np_unique targets_np in
  _ ← modify (set_num_per_cls_dict (fun _ => ∅));
  '(new_data, new_targets) ←
    for_loop (gen_body targets_np) ([], []) (zip classes img_num_per_cls);
  new_data ← lift (np_vstack new_data);
  _ ← modify (set_data_labels new_data new_targets);
  if decide (length new_data = length new_targets) then mret tt
  else raise (AssertionError "Length of data &             labels do not match!").

End Construction.

(** *** Target counts per class, over exact reals *)

(** Floats are exact reals in this part: no rounding, no overflow and a
    total [int(...)].  [Binary64.get_img_num_per_cls] below is the same
    function on doubles. *)

(** [x / y] on floats. *)
Definition float_div (x y : R) : result R :=
  if Req_dec_T y 0 then Raise ZeroDivisionError else Ok (x / y)%R.

(** [x ** y] on floats.  A negative base with a fractional exponent gives a
    Python [complex], which the caller's [int(...)] refuses with a
    [TypeError]. *)
Definition float_pow (x y : R) : result R :=
  if Rlt_dec 0 x then Ok (Rpower x y)
  else if Req_dec_T x 0 then
    if Req_dec_T y 0 then Ok 1%R
    else if Rlt_dec 0 y then Ok 0%R
    else Raise ZeroDivisionError
  else if Req_dec_T y (IZR (Int_part y)) then Ok (powerRZ x (Int_part y))
  else Raise TypeError.

(** [int(x)] on a float: truncation toward zero. *)
Definition py_int (x : R) : Z :=
  if Rle_dec 0 x then Int_part x else - Int_part (- x).

(** [for _ in range(n): l.append(x)] *)
Definition append_times {A : Type} (n : nat) (x : A) (l : list A) : list A :=
  foldl (fun acc _ => acc ++ [x]) l (seq 0 n).

(** [M2M_SVHN_LT.get_img_num_per_cls] *)
Definition get_img_num_per_cls (cls_num : nat) (imb_type : string)
    (imb_factor : R) : result (list Z) :=
  let img_max := 1000 in
  if String.eqb imb_type "exp" then
    for_each (fun img_num_per_cls cls_idx =>
                e ← float_div (INR cls_idx) (INR cls_num - 1);
                p ← float_pow imb_factor e;
                let num := (IZR img_max * p)%R in
                Ok (img_num_per_cls ++ [py_int num]))
             [] (seq 0 cls_num)
  else if String.eqb imb_type "step" then
    let img_num_per_cls := append_times (cls_num / 2) img_max [] in
    Ok (append_times (cls_num / 2) (py_int (IZR img_max * imb_factor))
                     img_num_per_cls)
  else Ok (list_mul img_max (Z.of_nat cls_num)).

(** The spec's [floor(img_max * imb_factor^(c/(cls_num-1)))]; [Int_part] is
    the floor. *)
Definition exp_count (cls_num : nat) (f : R) (c : nat) : Z :=
  Int_part (1000 * Rpower f (INR c / (INR cls_num - 1))).

(** *** Specification side of the construction *)

(** The number of samples of class [c]. *)
Definition class_count (labels : list Z) (c : Z) : Z :=
  Z.of_nat (length (List.filter (fun t => t =? c) labels)).

(** The sum of the target counts of [(class, count)] pairs. *)
Definition total_count (pairs : list (Z * Z)) : Z :=
  foldr (fun p acc => p.2 + acc) 0 pairs.

(** [sum(num_per_cls_dict.values())] *)
Definition dict_sum (m : gmap Z Z) : Z :=
  map_fold (fun _ v acc => v + acc) 0 m.

(** *** The constructor and its helpers *)

(** [dict[key]] on a missing key. *)
Inductive key_error : Type := KeyError (key : Z).

Section Wrapper.
Context {Img RNG : Type}.
Variable shuffle : RNG -> list nat -> list nat * RNG.
(** [np.random.seed] *)
Variable seed : Z -> RNG.

Definition set_img_num_list (l : list Z) (s : @M2M_SVHN_LT Img RNG) :=
  {| data := data s; labels := labels s;
     num_per_cls_dict := num_per_cls_dict s;
     img_num_list := l; np_random := np_random s |}.

(** The counts of [np.unique(targets, return_counts=True)], in the order of
    the classes. *)
Definition np_unique_counts (targets : list Z) : list Z :=
  map (fun c => Z.of_nat (length (np_where_eq targets c))) (np_unique targets).

(** Body of the loop of [change_order_class]; no shuffle here. *)
Definition change_body (targets_np : list Z)
    (acc : list (list Img) * list Z) (p : Z * Z)
  : method (@M2M_SVHN_LT Img RNG) (list (list Img) * list Z) :=
  let '(new_data, new_targets) := acc in
  let '(the_class, the_img_num) := p in
  _ ← modify (set_num_per_cls_dict <[the_class := the_img_num]>);
  let idx := np_where_eq targets_np the_class in
  let selec_idx := slice_to idx the_img_num in
  self ← get;
  rows ← lift (fancy_index (data self) selec_idx);
  mret (new_data ++ [rows], new_targets ++ list_mul the_class the_img_num).

(** [M2M_SVHN_LT.change_order_class] *)
Definition change_order_class : method (@M2M_SVHN_LT Img RNG) unit :=
  self ← get;
  let targets_np := labels self in
  let classes := np_unique targets_np in
  let class_counts := np_unique_counts targets_np in
  let new_classes := drop 1 classes ++ take 1 classes in
  let new_img_num_per_cls := drop 1 class_counts ++ take 1 class_counts in
  _ ← modify (set_num_per_cls_dict (fun _ => ∅));
  '(new_data, new_targets) ←
    for_loop (change_body targets_np) ([], [])
             (zip new_classes new_img_num_per_cls);
  new_data ← lift (np_vstack new_data);
  _ ← modify (set_data_labels new_data new_targets);
  _ ← modify (set_img_num_list new_img_num_per_cls);
  if decide (length new_data = length new_targets) then mret tt
  else raise (AssertionError "Length of data &             labels do not match!").

(** [M2M_SVHN_LT.get_cls_num_list]; [inl] is the raised [KeyError]. *)
Definition get_cls_num_list (cls_num : nat) (self : @M2M_SVHN_LT Img RNG)
  : key_error + list Z :=
  foldl (fun acc i =>
           match acc with
           | inr cls_num_list =>
               match num_per_cls_dict self !! Z.of_nat i with
               | Some n => inr (cls_num_list ++ [n])
               | None => inl (KeyError (Z.of_nat i))
               end
           | inl e => inl e
           end)
        (inr []) (seq 0 cls_num).


End Wrapper.

(** *** Specification side of the constructor and of the index builder *)

(** The samples of class [c], in dataset order. *)
Definition group {Img : Type} (c : Z) (samples : list (Img * Z))
  : list (Img * Z) :=
  List.filter (fun p => p.2 =? c) samples.

(** The class blocks of a list of [(class, count)] pairs. *)
Definition blocks (pairs : list (Z * Z)) : list Z :=
  flat_map (fun p => replicate (Z.to_nat p.2) p.1) pairs.

(** How many indices of [selected] belong to the class of budget position
    [k]. *)
Definition retained {A : Type} (dataset : list (A * Z)) (budget : list Z)
    (selected : list nat) (k : nat) : Z :=
  Z.of_nat (length (List.filter
    (fun i => bool_decide (dataset.*2 !! i ≫= slot budget = Some k))
    selected)).

(** What one class contributes to [gen_imbalanced_data]: [idxs] are the
    positions taken. *)
Definition class_pick {Img : Type} (targets_np : list Z) (data : list Img)
    (p : Z * Z) (idxs : list nat) (rows : list Img) : Prop :=
  NoDup idxs
  /\ Forall (fun i => targets_np !! i = Some p.1) idxs
  /\ length idxs = Z.to_nat (Z.min p.2 (class_count targets_np p.1))
  /\ Forall2 (fun i row => data !! i = Some row) idxs rows.

(** The pairs [change_order_class] walks: every class with its number of
    samples, the first class moved to the end. *)
Definition rotated_pairs (targets : list Z) : list (Z * Z) :=
  map (fun c => (c, class_count targets c))
      (drop 1 (np_unique targets) ++ take 1 (np_unique targets)).

(** The dataset [change_order_class] leaves. *)
Definition reordered {Img RNG : Type} (s : @M2M_SVHN_LT Img RNG)
  : @M2M_SVHN_LT Img RNG :=
  let samples := zip (data s) (labels s) in
  let classes := drop 1 (np_unique (labels s))
                 ++ take 1 (np_unique (labels s)) in
  {| data := (flat_map (fun c => group c samples) classes).*1;
     labels := (flat_map (fun c => group c samples) classes).*2;
     num_per_cls_dict :=
       foldl (fun m p => <[p.1 := p.2]> m) ∅ (rotated_pairs (labels s));
     img_num_list := (rotated_pairs (labels s)).*2;
     np_random := np_random s |}.

End Dataset.

(* ===================================================================== *)
(** ** The target counts in binary64 *)
(* ===================================================================== *)

Module Binary64.

(** Python's [float] is IEEE binary64.  [SpecFloat] computes its
    operations bit for bit, rounding to nearest with ties to even; a float
    is a signed zero, an infinity, [nan], or [(-1)^s * m * 2^e]. *)
Definition float : Type := spec_float.
Definition prec : Z := 53.
Definition emax : Z := 1024.

Definition zero : float := S754_zero false.
Definition one : float := S754_finite false 4503599627370496 (-52).

(** [x - y] and [x * y]: no exception, an overflow gives [inf]. *)
Definition fsub : float -> float -> float := SFsub prec emax.
Definition fmul : float -> float -> float := SFmul prec emax.

(** The conversion an arithmetic operator applies to an [int] operand
    beside a [float] one. *)
Definition of_int (z : Z) : result float :=
  match binary_normalize prec emax z 0 false with
  | S754_infinity _ =>
      Raise (OverflowError "int too large to convert to float")
  | x => Ok x
  end.

(** [x / y] *)
Definition float_div (x y : float) : result float :=
  match y with
  | S754_zero _ => Raise ZeroDivisionError
  | _ => Ok (SFdiv prec emax x y)
  end.

(** [int(x)]: truncation toward zero; refused for [inf] and [nan]. *)
Definition py_int (x : float) : result Z :=
  match x with
  | S754_zero _ => Ok 0
  | S754_finite s m e =>
      Ok (cond_Zopp s (match e with
                       | Zneg k => Z.pos m / 2 ^ Z.pos k
                       | _ => Z.pos m * 2 ^ e
                       end))
  | S754_infinity _ =>
      Raise (OverflowError "cannot convert float infinity to integer")
  | S754_nan => Raise (ValueError "cannot convert float NaN to integer")
  end.

Section Profile.
(** [x ** y] on floats: CPython's special cases around the C library's
    [pow], whose last bit no standard fixes.  A [complex] result (negative
    base, fractional exponent) is reported as the [TypeError] that the
    caller's [int(...)] raises for it. *)
Variable float_pow : float -> float -> result float.

(** [cls_idx / (cls_num - 1.0)] *)
Definition exponent (cls_num cls_idx : nat) : result float :=
  n ← of_int (Z.of_nat cls_num);
  i ← of_int (Z.of_nat cls_idx);
  float_div i (fsub n one).

(** [M2M_SVHN_LT.get_img_num_per_cls] *)
Definition get_img_num_per_cls (cls_num : nat) (imb_type : string)
    (imb_factor : float) : result (list Z) :=
  let img_max := 1000 in
  if String.eqb imb_type "exp" then
    for_each (fun img_num_per_cls cls_idx =>
                e ← exponent cls_num cls_idx;
                p ← float_pow imb_factor e;
                m ← of_int img_max;
                num ← py_int (fmul m p);
                Ok (img_num_per_cls ++ [num]))
             [] (seq 0 cls_num)
  else if String.eqb imb_type "step" then
    let img_num_per_cls := Dataset.append_times (cls_num / 2) img_max [] in
    for_each (fun img_num_per_cls _ =>
                m ← of_int img_max;
                num ← py_int (fmul m imb_factor);
                Ok (img_num_per_cls ++ [num]))
             img_num_per_cls (seq 0 (cls_num / 2))
  else Ok (list_mul img_max (Z.of_nat cls_num)).

End Profile.

(** *** Specification side *)

(** The rational a finite float stands for. *)
Definition value (x : float) : option Q :=
  match x with
  | S754_zero _ => Some 0%Q
  | S754_finite s m e =>
      Some (match e with
            | Zneg k => cond_Zopp s (Z.pos m) # 2 ^ k
            | _ => inject_Z (cond_Zopp s (Z.pos m) * 2 ^ e)
            end)
  | _ => None
  end.

(** [floor(x)] of a finite float. *)
Definition floor (x : float) : option Z := Qfloor <$> value x.

(** A float as the hardware holds it: 53 significant bits at most, the
    exponent in range. *)
Definition is_float (x : float) : Prop := valid_binary prec emax x = true.

(** [0 <= x <= 1] *)
Definition in_unit (x : float) : Prop :=
  is_float x /\ SFleb zero x = true /\ SFleb x one = true.

(** [0 < x <= 1] *)
Definition in_unit_pos (x : float) : Prop :=
  is_float x /\ SFltb zero x = true /\ SFleb x one = true.

(** The float that holds the integer [n] exactly, for [1 <= n < 2^53]:
    53 significant bits, the leading one set. *)
Definition exact (n : Z) : float :=
  S754_finite false (Z.to_pos (n * 2 ^ (52 - Z.log2 n))) (Z.log2 n - 52).

(** [img_max] as a float. *)
Definition thousand : float := S754_finite false 8796093022208000 (-43).

(** Round [M / 2^n] to the nearest integer, ties to even. *)
Definition rne (M n : Z) : Z :=
  let q := M / 2 ^ n in
  let r := M mod 2 ^ n in
  if 2 * r <? 2 ^ n then q
  else if 2 * r =? 2 ^ n then (if Z.even q then q else q + 1)
  else q + 1.

(** A non-negative finite float in units of [2^-1200], an integer for every
    exponent from [-1200] on. *)
Definition scaled (x : float) : Z :=
  match x with
  | S754_finite false m e => Z.pos m * 2 ^ (e + 1200)
  | _ => 0
  end.

(** In those units: the position of the last bit a double keeps of [X],
    and [X] rounded there. *)
Definition grid (X : Z) : Z := Z.max (Z.log2 X - 52) 126.
Definition rounded (X : Z) : Z := rne X (grid X) * 2 ^ grid X.

(** A shift record that holds [M] shifted right by [k] bits, with the last
    bit shifted out and the sticky bit of those before it. *)
Definition tracks (M k : Z) (mrs : shr_record) : Prop :=
  shr_m mrs = M / 2 ^ k
  /\ shr_r mrs = Z.testbit M (k - 1)
  /\ shr_s mrs = negb (M mod 2 ^ Z.max (k - 1) 0 =? 0).

End Binary64.

(* ===================================================================== *)
(** ** NumPy float arithmetic *)
(* ===================================================================== *)

Module NumPy.

(** A float is an exact rational or one of the IEEE specials; the sign of
    zero is not kept (every zero divides as [+0.0]). *)
Inductive npfloat : Type :=
| Fin (x : Qc)
| PInf
| NInf
| NaN.

(** A Python scalar operand: [0] is an [int], [0.9999] a [float]. *)
Inductive scalar : Type :=
| PyInt (z : Z)
| PyFloat (x : Qc).

Definition to_float (b : scalar) : Qc :=
  match b with
  | PyInt z => Q2Qc (inject_Z z)
  | PyFloat x => x
  end.

Definition np_neg (a : npfloat) : npfloat :=
  match a with
  | Fin x => Fin (- x)
  | PInf => NInf
  | NInf => PInf
  | NaN => NaN
  end.

Definition signed_inf (positive : bool) : npfloat :=
  if positive then PInf else NInf.

Definition np_add (a b : npfloat) : npfloat :=
  match a, b with
  | NaN, _ | _, NaN => NaN
  | Fin x, Fin y => Fin (x + y)
  | PInf, NInf | NInf, PInf => NaN
  | PInf, _ | _, PInf => PInf
  | NInf, _ | _, NInf => NInf
  end.

Definition np_sub (a b : npfloat) : npfloat := np_add a (np_neg b).

Definition np_mul (a b : npfloat) : npfloat :=
  match a, b with
  | NaN, _ | _, NaN => NaN
  | Fin x, Fin y => Fin (x * y)
  | Fin x, PInf | PInf, Fin x =>
      if decide (x = 0)%Qc then NaN else signed_inf (bool_decide (0 < x)%Qc)
  | Fin x, NInf | NInf, Fin x =>
      if decide (x = 0)%Qc then NaN else signed_inf (bool_decide (x < 0)%Qc)
  | PInf, PInf | NInf, NInf => PInf
  | PInf, NInf | NInf, PInf => NInf
  end.

(** Division never raises in NumPy: a zero divisor gives [inf] or [nan]
    (and a [RuntimeWarning] on the console). *)
Definition np_div (a b : npfloat) : npfloat :=
  match a, b with
  | NaN, _ | _, NaN => NaN
  | Fin x, Fin y =>
      if decide (y = 0)%Qc then
        if decide (x = 0)%Qc then NaN else signed_inf (bool_decide (0 < x)%Qc)
      else Fin (x / y)
  | Fin _, (PInf | NInf) => Fin 0
  | PInf, Fin y => signed_inf (bool_decide (0 <= y)%Qc)
  | NInf, Fin y => signed_inf (bool_decide (y < 0)%Qc)
  | (PInf | NInf), (PInf | NInf) => NaN
  end.

(** Two's complement wrap-around of an [int64] result. *)
Definition wrap64 (z : Z) : Z := (z + 2 ^ 63) mod 2 ^ 64 - 2 ^ 63.

(** [np.power(base, exps)] for a scalar base and a list of Python ints.  An
    [int] base keeps the array integral, where a negative exponent is
    refused; a [float] base gives floats. *)
Definition np_power (base : scalar) (exps : list Z) : result (list npfloat) :=
  match base with
  | PyInt z =>
      if decide (Forall (fun e => 0 <= e) exps) then
        Ok (map (fun e => Fin (Q2Qc (inject_Z (wrap64 (z ^ e))))) exps)
      else Raise (ValueError
                    "Integers to negative integer powers are not allowed.")
  | PyFloat x =>
      Ok (map (fun e => if decide (0 <= e) then Fin (x ^ Z.to_nat e)
                        else np_div (Fin 1) (Fin (x ^ Z.to_nat (- e)))) exps)
  end.

(** [np.sum] *)
Definition np_sum (a : list npfloat) : npfloat := foldl np_add (Fin 0) a.

End NumPy.
Import NumPy.

(* ===================================================================== *)
(** ** The trainers *)
(* ===================================================================== *)

Module Strategy.

(** The three subclasses of [Trainer]. *)
Inductive TrainerKind : Type := ERMTrainer | LDAMDRWTrainer | MixupTrainer.

(** The loss objects [get_criterion] installs; their classes come from
    [torch.nn] and [imbalanceddl.loss], so only the constructor arguments
    are recorded. *)
Inductive Criterion : Type :=
| CrossEntropyLoss (weight : option (list npfloat)) (reduction : string)
| LDAMLoss (cls_num_list : list Z) (max_m : Qc) (s : Z)
           (weight : list npfloat).

Record ParamGroup : Type := { lr : Qc }.

Section Trainers.
(** External collaborators: the network, the optimizer's internal state,
    the batches of [train_loader], and the three [AverageMeter]s. *)
Context {Model OptState Batch BatchStats Meters : Type}.

Record Optimizer : Type := {
  param_groups : list ParamGroup;
  opt_state : OptState;
}.

Record Cfg : Type := {
  epochs : Z;
  print_freq : Z;
  cfg_cls_num_list : list Z;
}.

(** A line of [log_training], before formatting. *)
Record LogLine : Type := {
  ll_epoch : Z;
  ll_batch : nat;
  ll_total : nat;
  ll_lr : Qc;
  ll_meters : Meters;
}.

(** A mapping sent to [wandb.log]. *)
Record WandbRecord : Type := {
  wb_epoch : Z;
  wb_meters : Meters;
  wb_lr : Qc;
}.

Record Trainer : Type := {
  cfg : Cfg;
  strategy : string;
  epoch : Z;
  cls_num_list : list Z;
  criterion : option Criterion;
  model : Model;
  optimizer : Optimizer;
  log_training : list LogLine;
  wandb : list WandbRecord;
}.

Definition set_criterion (c : Criterion) (t : Trainer) : Trainer :=
  {| cfg := cfg t; strategy := strategy t; epoch := epoch t;
     cls_num_list := cls_num_list t; criterion := Some c;
     model := model t; optimizer := optimizer t;
     log_training := log_training t; wandb := wandb t |}.

Definition set_model_optimizer (m : Model) (o : Optimizer) (t : Trainer)
  : Trainer :=
  {| cfg := cfg t; strategy := strategy t; epoch := epoch t;
     cls_num_list := cls_num_list t; criterion := criterion t;
     model := m; optimizer := o;
     log_training := log_training t; wandb := wandb t |}.

Definition write_log (l : LogLine) (t : Trainer) : Trainer :=
  {| cfg := cfg t; strategy := strategy t; epoch := epoch t;
     cls_num_list := cls_num_list t; criterion := criterion t;
     model := model t; optimizer := optimizer t;
     log_training := log_training t ++ [l]; wandb := wandb t |}.

Definition wandb_log (r : WandbRecord) (t : Trainer) : Trainer :=
  {| cfg := cfg t; strategy := strategy t; epoch := epoch t;
     cls_num_list := cls_num_list t; criterion := criterion t;
     model := model t; optimizer := optimizer t;
     log_training := log_training t; wandb := wandb t ++ [r] |}.

(** *** [get_criterion] *)

(** The name each trainer answers to. *)
Definition own_strategy (k : TrainerKind) : string :=
  match k with
  | ERMTrainer => "ERM"
  | LDAMDRWTrainer => "LDAM_DRW"
  | MixupTrainer => "Mixup_DRW"
  end.

Definition not_supported : exn :=
  ValueError "[Warning] Strategy is not supported !".

Definition betas : list scalar := [PyInt 0; PyFloat (Q2Qc (9999 # 10000))].

(** [if self.cfg.epochs == 300: idx = self.epoch // 250
     else: idx = self.epoch // 160] *)
Definition drw_idx (epochs epoch : Z) : Z :=
  if decide (epochs = 300) then epoch / 250 else epoch / 160.

(** [1.0 - np.power(beta, cls_num_list)] *)
Definition effective_num (beta : scalar) (cls_num_list : list Z)
  : result (list npfloat) :=
  p ← np_power beta cls_num_list;
  Ok (map (np_sub (Fin 1)) p).

(** [(1.0 - beta) / np.array(effective_num)] *)
Definition raw_weights (beta : scalar) (effective_num : list npfloat)
  : list npfloat :=
  map (np_div (Fin (1 - to_float beta))) effective_num.

(** [per_cls_weights / np.sum(per_cls_weights) * len(cls_num_list)] *)
Definition normalize (per_cls_weights : list npfloat) (num_classes : nat)
  : list npfloat :=
  map (fun w => np_mul (np_div w (np_sum per_cls_weights))
                       (Fin (Q2Qc (inject_Z (Z.of_nat num_classes)))))
      per_cls_weights.

(** The reweighting lines shared, verbatim, by [LDAMDRWTrainer] and
    [MixupTrainer]. *)
Definition drw_weights (epochs epoch : Z) (cls_num_list : list Z)
  : result (list npfloat) :=
  let idx := drw_idx epochs epoch in
  beta ← getitem betas idx;
  effective_num ← effective_num beta cls_num_list;
  beta ← getitem betas idx;
  let per_cls_weights := raw_weights beta effective_num in
  Ok (normalize per_cls_weights (length cls_num_list)).

Definition get_criterion (k : TrainerKind) : method Trainer unit :=
  self ← get;
  match k with
  | ERMTrainer =>
      if String.eqb (strategy self) "ERM" then
        let per_cls_weights := None in
        modify (set_criterion (CrossEntropyLoss per_cls_weights "none"))
      else raise not_supported
  | LDAMDRWTrainer =>
      if String.eqb (strategy self) "LDAM_DRW" then
        per_cls_weights ←
          lift (drw_weights (epochs (cfg self)) (epoch self)
                            (cls_num_list self));
        modify (set_criterion
                  (LDAMLoss (cfg_cls_num_list (cfg self))
                            (Q2Qc (1 # 2)) 30 per_cls_weights))
      else raise not_supported
  | MixupTrainer =>
      if String.eqb (strategy self) "Mixup_DRW" then
        per_cls_weights ←
          lift (drw_weights (epochs (cfg self)) (epoch self)
                            (cls_num_list self));
        modify (set_criterion
                  (CrossEntropyLoss (Some per_cls_weights) "none"))
      else raise not_supported
  end.

(** *** [train_one_epoch] *)

(** Forward pass, loss, accuracy, [zero_grad], [backward] and
    [optimizer.step()] of one batch: it may replace the model and the
    optimizer and yields the figures fed to the meters. *)
Variable learn : TrainerKind -> option Criterion -> Batch ->
                 Model -> Optimizer -> result (Model * Optimizer * BatchStats).
(** [losses.update], [top1.update], [top5.update]. *)
Variable meters_init : Meters.
Variable meters_update : Meters -> BatchStats -> Meters.
(** [Trainer.compute_metrics_and_record], of the base class. *)
Variable compute_metrics_and_record :
  list BatchStats -> Meters -> method Trainer unit.

(** [self.optimizer.param_groups[-1]['lr'] * 0.1] *)
Definition reported_lr (o : Optimizer) : result Qc :=
  g ← getitem (param_groups o) (-1);
  Ok (lr g * Q2Qc (1 # 10))%Qc.

(** [i % self.cfg.print_freq == 0] *)
Definition is_report_batch (i : nat) (print_freq : Z) : result bool :=
  if decide (print_freq = 0) then Raise ZeroDivisionError
  else Ok (bool_decide (Z.of_nat i mod print_freq = 0)).

(** The periodic report of batch [i]. *)
Definition report (k : TrainerKind) (i total : nat) (meters : Meters)
  : method Trainer unit :=
  self ← get;
  lr ← lift (reported_lr (optimizer self));
  _ ← modify (write_log {| ll_epoch := epoch self; ll_batch := i;
                           ll_total := total; ll_lr := lr;
                           ll_meters := meters |});
  match k with
  | ERMTrainer =>
      self ← get;
      lr ← lift (reported_lr (optimizer self));
      modify (wandb_log {| wb_epoch := epoch self; wb_meters := meters;
                           wb_lr := lr |})
  | LDAMDRWTrainer | MixupTrainer => mret tt
  end.

(** Body of [for i, (_input, target) in enumerate(self.train_loader)]; the
    locals are the meters and the per-batch figures kept for the confusion
    matrix. *)
Definition batch_body (k : TrainerKind) (total : nat)
    (acc : Meters * list BatchStats) (ib : nat * Batch)
  : method Trainer (Meters * list BatchStats) :=
  let '(meters, all_preds) := acc in
  let '(i, batch) := ib in
  self ← get;
  '(m, o, stats) ← lift (learn k (criterion self) batch
                               (model self) (optimizer self));
  _ ← modify (set_model_optimizer m o);
  let meters := meters_update meters stats in
  let all_preds := all_preds ++ [stats] in
  self ← get;
  b ← lift (is_report_batch i (print_freq (cfg self)));
  _ ← (if b : bool then report k i total meters else mret tt);
  mret (meters, all_preds).

(** The loop of [train_one_epoch], with the [wandb.log] that
    [MixupTrainer] issues once after it. *)
Definition train_batches (k : TrainerKind) (train_loader : list Batch)
  : method Trainer (Meters * list BatchStats) :=
  '(meters, all_preds) ←
    for_loop (batch_body k (length train_loader)) (meters_init, [])
             (zip (seq 0 (length train_loader)) train_loader);
  _ ← match k with
      | MixupTrainer =>
          self ← get;
          lr ← lift (reported_lr (optimizer self));
          modify (wandb_log {| wb_epoch := epoch self; wb_meters := meters;
                               wb_lr := lr |})
      | ERMTrainer | LDAMDRWTrainer => mret tt
      end;
  mret (meters, all_preds).

Definition train_one_epoch (k : TrainerKind) (train_loader : list Batch)
  : method Trainer unit :=
  '(meters, all_preds) ← train_batches k train_loader;
  compute_metrics_and_record all_preds meters.

(** *** Specification side of the periodic report *)

(** The optimizer as each successive batch leaves it. *)
Fixpoint optimizers_after (k : TrainerKind) (c : option Criterion)
    (m : Model) (o : Optimizer) (train_loader : list Batch)
  : list Optimizer :=
  match train_loader with
  | [] => []
  | batch :: rest =>
      match learn k c batch m o with
      | Ok (m', o', _) => o' :: optimizers_after k c m' o' rest
      | Raise _ => []
      end
  end.

(** One tenth of the learning rate of the last parameter group. *)
Definition tenth_of_lr (o : Optimizer) : option Qc :=
  g ← last (param_groups o); Some (lr g * Q2Qc (1 # 10))%Qc.

(** The [(batch index, lr)] pairs a run reports when batch [first + j]
    leaves the optimizer [opts !! j]. *)
Definition expected_reports (print_freq : Z) (first : nat)
    (opts : list Optimizer) : list (nat * Qc) :=
  omap (fun io : nat * Optimizer =>
          if bool_decide (Z.of_nat io.1 mod print_freq = 0)
          then v ← tenth_of_lr io.2; Some (io.1, v)
          else None)
       (zip (seq first (length opts)) opts).

(** What a log line says about the learning rate. *)
Definition emitted (l : LogLine) : nat * Qc := (ll_batch l, ll_lr l).

End Trainers.

(** *** Specification side of the reweighting *)

(** [sum] of exact weights. *)
Definition qsum (l : list Qc) : Qc := foldl Qcplus 0%Qc l.

(** [(1 - beta) / effective_num[c]] with [effective_num[c] = 1 - beta^n]. *)
Definition class_weight (beta : Qc) (n : Z) : Qc :=
  ((1 - beta) / (1 - beta ^ Z.to_nat n))%Qc.

(** The class weights, L1-normalised and rescaled by the number of classes. *)
Definition drw_formula (beta : Qc) (cls_num_list : list Z) : list Qc :=
  let raw := map (class_weight beta) cls_num_list in
  map (fun w => (w / qsum raw
                 * Q2Qc (inject_Z (Z.of_nat (length cls_num_list))))%Qc) raw.

(** The criterion a DRW trainer installs for a weight vector. *)
Definition installed (k : TrainerKind) (cfg_counts : list Z)
    (weight : list npfloat) : Criterion :=
  match k with
  | LDAMDRWTrainer => LDAMLoss cfg_counts (Q2Qc (1 # 2)) 30 weight
  | _ => CrossEntropyLoss (Some weight) "none"
  end.

(** What the reweighting lines yield when some count is zero: [nan] for the
    empty classes, [0] for the others. *)
Definition zero_count_weights (cls_num_list : list Z) : list npfloat :=
  map (fun n => if decide (n = 0) then NaN else Fin 0) cls_num_list.

End Strategy.

(* ===================================================================== *)
(** ** Mixup *)
(* ===================================================================== *)

Module Mixup.

(** [mixup_data] and [mixup_criterion] of [_mixup_drw.py].  Tensor entries
    are [npfloat]s: finite values are exact and [0 * inf] is [nan], as in
    IEEE arithmetic.  [np.random.beta] and [torch.randperm] draw from the
    two global generators, which are threaded as explicit state.

    A batch is a list of rows, a row the flattened pixels of one image;
    [lam * x] and [x + x'] act entry by entry on tensors of one shape. *)
Definition tensor_scale (lam : Qc) (x : list (list npfloat))
  : list (list npfloat) :=
  map (map (np_mul (Fin lam))) x.

Definition tensor_add (x x' : list (list npfloat)) : list (list npfloat) :=
  zip_with (zip_with np_add) x x'.

Section MixupData.
(** NumPy's and PyTorch's global generators. *)
Context {NpRNG TorchRNG : Type}.
(** [np.random.beta(a, b)] *)
Variable np_random_beta : NpRNG -> Qc -> Qc -> Qc * NpRNG.
(** [torch.randperm(n)] *)
Variable randperm : TorchRNG -> nat -> list nat * TorchRNG.

Record Generators : Type := {
  np_gen : NpRNG;
  torch_gen : TorchRNG;
}.

Definition set_np_gen (g : NpRNG) (s : Generators) : Generators :=
  {| np_gen := g; torch_gen := torch_gen s |}.

Definition set_torch_gen (g : TorchRNG) (s : Generators) : Generators :=
  {| np_gen := np_gen s; torch_gen := g |}.

(** [mixup_data(x, y, alpha)]; returns [(mixed_x, y_a, y_b, lam)], where
    [lam] is the [int] 1 when [alpha <= 0]. *)
Definition mixup_data (x : list (list npfloat)) (y : list Z) (alpha : Qc)
  : method Generators
           (list (list npfloat) * list Z * list Z * scalar) :=
  lam ← (if decide (0 < alpha)%Qc then
           s ← get;
           let '(v, g) := np_random_beta (np_gen s) alpha alpha in
           _ ← modify (set_np_gen g);
           mret (PyFloat v)
         else mret (PyInt 1));
  let batch_size := length x in
  s ← get;
  let '(index, g) := randperm (torch_gen s) batch_size in
  _ ← modify (set_torch_gen g);
  x_index ← lift (Dataset.fancy_index x index);
  let mixed_x := tensor_add (tensor_scale (to_float lam) x)
                            (tensor_scale (1 - to_float lam) x_index) in
  let y_a := y in
  y_b ← lift (Dataset.fancy_index y index);
  mret (mixed_x, y_a, y_b, lam).

End MixupData.

(** [a + b] on two one-dimensional tensors: the sizes agree, or one of them
    is 1 and that entry is broadcast; any other pair of sizes is refused. *)
Definition tensor1_add (a b : list npfloat) : result (list npfloat) :=
  if decide (length a = length b) then Ok (zip_with np_add a b)
  else match a, b with
       | [x], _ => Ok (map (np_add x) b)
       | _, [y] => Ok (map (fun x => np_add x y) a)
       | _, _ =>
           Raise (RuntimeError
                    ("The size of tensor a (" +:+ pretty (length a)
                     +:+ ") must match the size of tensor b ("
                     +:+ pretty (length b)
                     +:+ ") at non-singleton dimension 0"))
       end.

(** [mixup_criterion(criterion, pred, y_a, y_b, lam)], for a criterion with
    [reduction='none']: one loss per sample. *)
Definition mixup_criterion {Pred : Type}
    (criterion : Pred -> list Z -> list npfloat)
    (pred : Pred) (y_a y_b : list Z) (lam : scalar)
  : result (list npfloat) :=
  tensor1_add
    (map (np_mul (Fin (to_float lam))) (criterion pred y_a))
    (map (np_mul (Fin (1 - to_float lam))) (criterion pred y_b)).

(** Specification side: an entry that is neither [inf] nor [nan]. *)
Definition is_finite (a : npfloat) : Prop :=
  match a with
  | Fin _ => True
  | _ => False
  end.

(** A finite entry within [[lo, hi]]. *)
Definition within (lo hi : Qc) (a : npfloat) : Prop :=
  match a with
  | Fin v => (lo <= v <= hi)%Qc
  | _ => False
  end.

End Mixup.

(* ===================================================================== *)
(** ** Concrete objects for the examples *)
(* ===================================================================== *)

Module Examples.
Import Strategy.

(** A trainer over trivial collaborators, one parameter group of learning
    rate [1/10], nothing logged yet and no criterion installed. *)
Definition trainer (name : string) (total_epochs current_epoch : Z)
    (counts : list Z) : @Trainer unit unit unit :=
  {| cfg := {| epochs := total_epochs; print_freq := 1;
               cfg_cls_num_list := counts |};
     strategy := name; epoch := current_epoch; cls_num_list := counts;
     criterion := None; model := tt;
     optimizer := {| param_groups := [{| lr := Q2Qc (1 # 10) |}];
                     opt_state := tt |};
     log_training := []; wandb := [] |}.

(** A learning step that changes nothing and reports no figures. *)
Definition idle_learn (k : TrainerKind) (c : option Criterion) (b : unit)
    (m : unit) (o : @Optimizer unit) : result (unit * @Optimizer unit * unit) :=
  Ok (m, o, tt).

(** Five samples of classes 1, 0, 1, 0, 0 and a generator-free shuffle
    that reverses its argument. *)
Definition svhn : @Dataset.M2M_SVHN_LT string unit :=
  {| Dataset.data := ["a"; "b"; "c"; "d"; "e"]%string;
     Dataset.labels := [1; 0; 1; 0; 0];
     Dataset.num_per_cls_dict := ∅;
     Dataset.img_num_list := [];
     Dataset.np_random := tt |}.

Definition rev_shuffle (g : unit) (l : list nat) : list nat * unit :=
  (rev l, g).

(** The items of [svhn], as the index builder reads them. *)
Definition svhn_items : list (string * Z) :=
  zip (Dataset.data svhn) (Dataset.labels svhn).


(** [trainer] with another reporting period. *)
Definition with_print_freq (pf : Z) (t : @Trainer unit unit unit)
  : @Trainer unit unit unit :=
  {| cfg := {| epochs := epochs (cfg t); print_freq := pf;
               cfg_cls_num_list := cfg_cls_num_list (cfg t) |};
     strategy := strategy t; epoch := epoch t;
     cls_num_list := cls_num_list t; criterion := criterion t;
     model := model t; optimizer := optimizer t;
     log_training := log_training t; wandb := wandb t |}.

(** A base class that records nothing. *)
Definition no_record (all_preds : list unit) (meters : unit)
  : method (@Trainer unit unit unit) unit :=
  mret tt.

(** A batch of two images of two pixels, a permutation that reverses, a
    beta draw that is always 1/2, and a criterion whose loss is the
    label. *)
Definition images : list (list npfloat) :=
  [[Fin 0; Fin 1]; [Fin 1; Fin 0]].

Definition rev_randperm (g : unit) (n : nat) : list nat * unit :=
  (rev (seq 0 n), g).

Definition half_beta (g : unit) (a b : Qc) : Qc * unit := (Q2Qc (1 # 2), g).

Definition generators : @Mixup.Generators unit unit :=
  {| Mixup.np_gen := tt; Mixup.torch_gen := tt |}.

Definition label_loss (pred : unit) (y : list Z) : list npfloat :=
  map (fun l => Fin (Q2Qc (inject_Z l))) y.


(** The doubles [0.5], [0.1], [0.03125] and [0.31622776601683794]. *)
Definition half : Binary64.float := S754_finite false 4503599627370496 (-53).

(** The double [1e306]; [1000 * 1e306] overflows to [inf]. *)
Definition huge : Binary64.float := S754_finite false 6413338752028713 964.

(** [x ** y] at the points the examples use, with the double CPython
    returns there, the correctly rounded power: [0.1 ** 0.5] and
    [0.03125 ** (c / 5.0)] for [c = 1 .. 4].  A row is the mantissa and
    exponent of [x], of [y] and of [x ** y]. *)
Definition pow_table
  : list (positive * Z * (positive * Z) * (positive * Z)) :=
  [ (7205759403792794%positive, -56, (4503599627370496%positive, -53),
     (5696652996790543%positive, -54));
    (4503599627370496%positive, -57, (7205759403792794%positive, -55),
     (4503599627370496%positive, -53));
    (4503599627370496%positive, -57, (7205759403792794%positive, -54),
     (9007199254740991%positive, -55));
    (4503599627370496%positive, -57, (5404319552844595%positive, -53),
     (4503599627370496%positive, -55));
    (4503599627370496%positive, -57, (7205759403792794%positive, -53),
     (9007199254740991%positive, -57)) ].

(** [**] as far as the examples go: [x ** 0.0 = 1.0], [x ** 1.0 = x] and
    the table; no other point is provided. *)
Definition pow_points (x y : Binary64.float) : result Binary64.float :=
  match x, y with
  | _, S754_zero _ => Ok Binary64.one
  | S754_finite false mx ex, S754_finite false my ey =>
      if decide ((my, ey) = (4503599627370496%positive, -52)) then Ok x
      else match list_find (fun r => r.1 = (mx, ex, (my, ey))) pow_table with
           | Some (_, (_, (m, e))) => Ok (S754_finite false m e)
           | None => Raise (ValueError "no such point in the table")
           end
  | _, _ => Raise (ValueError "no such point in the table")
  end.

End Examples.

(* ===================================================================== *)
(** * Properties *)
(* ===================================================================== *)

Import Strategy.

(** ** Python primitives *)

Lemma index_of_nat {A : Type} (l : list A) (k : nat) :
  (k < length l)%nat -> index_of l (Z.of_nat k) = Ok k.
Proof.
  intros Hk. unfold index_of.
  destruct (decide _) as [_|Hn]; [|lia].
  by rewrite Nat2Z.id.
Qed.

Lemma getitem_nat {A : Type} (l : list A) (k : nat) (x : A) :
  l !! k = Some x -> getitem l (Z.of_nat k) = Ok x.
Proof.
  intros Hx. unfold getitem.
  rewrite index_of_nat by (by eapply lookup_lt_Some).
  cbn. by rewrite Hx.
Qed.

Lemma index_of_bound {A : Type} (l : list A) (i : Z) (k : nat) :
  index_of l i = Ok k -> (k < length l)%nat.
Proof.
  unfold index_of. repeat destruct (decide _); intros [= <-]; lia.
Qed.

Lemma index_of_raises {A : Type} (l : list A) (i : Z) (e : exn) :
  index_of l i = Raise e -> e = IndexError.
Proof. unfold index_of. repeat destruct (decide _); congruence. Qed.

Ltac simpl_result :=
  cbn [mbind mret result_bind result_ret fst snd] in *.

(** A loop over [range(k, k + m)] keeps an invariant indexed by the loop
    counter; [E] collects the exceptions the body may raise. *)
Lemma for_each_seq_inv {St : Type} (body : St -> nat -> result St)
    (P : nat -> St -> Prop) (E : exn -> Prop) (m k : nat) (s : St) :
  (forall i s0, (k <= i < k + m)%nat -> P i s0 ->
     match body s0 i with Ok s' => P (S i) s' | Raise e => E e end) ->
  P k s ->
  match for_each body s (seq k m) with
  | Ok s' => P (k + m)%nat s'
  | Raise e => E e
  end.
Proof.
  revert k s. induction m as [|m IH]; intros k s Hbody Hs; cbn.
  - by rewrite Nat.add_0_r.
  - specialize (Hbody k s ltac:(lia) Hs) as Hk.
    destruct (body s k) as [s'|e]; [|done].
    replace (k + S m)%nat with (S k + m)%nat by lia.
    apply IH; [|done].
    intros i s0 Hi. apply Hbody. lia.
Qed.

(** ** The oversampling index builder *)

Section IndexBuilderFacts.
Context {A : Type}.
Implicit Types (dataset : list (A * Z)) (budget num : list Z).

Lemma select_body_index dataset (i : nat) (st : Dataset.budget_state) :
  (i < length dataset)%nat ->
  exists a label, dataset !! i = Some (a, label) /\
  Dataset.select_body dataset (seq 0 (length dataset)) st i =
    (remaining ← getitem st.1 label;
     if decide (remaining > 0) then
       num' ← setitem st.1 label (remaining - 1);
       Ok (num', st.2 ++ [i])
     else Ok (st.1, st.2)).
Proof.
  intros Hi. destruct (lookup_lt_is_Some_2 dataset i Hi) as [[a label] Hit].
  exists a, label. split; [done|].
  destruct st as [num sel]. unfold Dataset.select_body.
  rewrite (getitem_nat (seq 0 (length dataset)) i i)
    by (by rewrite lookup_seq_lt).
  simpl_result. by rewrite (getitem_nat dataset i (a, label)).
Qed.

(** One pass: after [i] iterations the selection is an increasing
    subsequence of [0 .. i-1]; the only exception is an [IndexError] from a
    label outside the budget list. *)
Lemma select_loop_sublist dataset num :
  match for_each (Dataset.select_body dataset (seq 0 (length dataset)))
                 (num, []) (seq 0 (length dataset)) with
  | Ok st => st.2 `sublist_of` seq 0 (length dataset)
             /\ StronglySorted lt st.2
             /\ Forall (fun j => (j < length dataset)%nat) st.2
  | Raise e => e = IndexError
  end.
Proof.
  apply (for_each_seq_inv _
    (fun i st => st.2 `sublist_of` seq 0 i /\ StronglySorted lt st.2
                 /\ Forall (fun j => (j < i)%nat) st.2)
    (fun e => e = IndexError) (length dataset) 0%nat).
  - intros i [n sel] [_ Hi] (Hsub & Hsort & Hlt). cbn in Hi, Hsub, Hsort, Hlt.
    destruct (select_body_index dataset i (n, sel) Hi) as (a & label & _ & ->).
    cbn [fst snd]. unfold getitem, setitem.
    destruct (index_of n label) as [k|e] eqn:Hk; simpl_result;
      [|by eapply index_of_raises].
    destruct (n !! k) as [r|]; simpl_result; [|done].
    assert (Hweak : Forall (fun j => (j < S i)%nat) sel).
    { eapply Forall_impl; [exact Hlt|]. cbn. lia. }
    case_decide; simpl_result.
    + split_and!.
      * rewrite seq_S. by apply sublist_app.
      * apply StronglySorted_app. split_and!; [|done|repeat constructor].
        intros x1 x2 Hx1 ->%list_elem_of_singleton.
        by apply (proj1 (Forall_forall _ _) Hlt x1).
      * apply Forall_app. split; [done|]. repeat constructor.
    + split_and!; [|done|done].
      rewrite seq_S. by apply sublist_inserts_r.
  - cbn. split_and!; constructor.
Qed.

Lemma index_of_length {B C : Type} (l : list B) (l' : list C) (i : Z) :
  length l = length l' -> index_of l i = index_of l' i.
Proof. intros H. unfold index_of. by rewrite H. Qed.

Lemma slot_in_range budget (label : Z) :
  0 <= label < Z.of_nat (length budget) ->
  Dataset.slot budget label = Some (Z.to_nat label).
Proof.
  intros H. unfold Dataset.slot, index_of. by rewrite decide_True by done.
Qed.

Lemma seen_nonneg dataset budget (k i : nat) : 0 <= Dataset.seen dataset budget k i.
Proof. unfold Dataset.seen. lia. Qed.

Lemma seen_S dataset budget (k : nat) (label : Z) (i : nat) :
  dataset.*2 !! i = Some label ->
  Dataset.seen dataset budget k (S i)
  = Dataset.seen dataset budget k i
    + (if bool_decide (Dataset.slot budget label = Some k) then 1 else 0).
Proof.
  intros Hl. unfold Dataset.seen.
  rewrite (take_S_r _ _ _ Hl), List.filter_app, length_app. cbn.
  destruct (bool_decide _); cbn; lia.
Qed.

Lemma kept_seq_S dataset budget (i : nat) :
  List.filter (Dataset.kept dataset budget) (seq 0 (S i))
  = List.filter (Dataset.kept dataset budget) (seq 0 i)
    ++ (if Dataset.kept dataset budget i then [i] else []).
Proof. by rewrite seq_S, List.filter_app. Qed.

(** What the loop keeps is decided by the class counts Dataset.seen so far; it
    raises only on a label that is no position of the budget list. *)
Lemma select_loop_kept dataset budget :
  match for_each (Dataset.select_body dataset (seq 0 (length dataset)))
                 (budget, []) (seq 0 (length dataset)) with
  | Ok st => st.2 = List.filter (Dataset.kept dataset budget) (seq 0 (length dataset))
  | Raise e =>
      e = IndexError
      /\ Exists (fun item => Dataset.slot budget item.2 = None) dataset
  end.
Proof.
  pose proof (for_each_seq_inv
    (Dataset.select_body dataset (seq 0 (length dataset)))
    (fun i st =>
       st.2 = List.filter (Dataset.kept dataset budget) (seq 0 i)
       /\ length st.1 = length budget
       /\ forall (k : nat) (b : Z), budget !! k = Some b ->
            st.1 !! k = Some (b - Z.min (Dataset.seen dataset budget k i)
                                        (Z.max b 0)))
    (fun e => e = IndexError
              /\ Exists (fun item => Dataset.slot budget item.2 = None) dataset)
    (length dataset) 0%nat (budget, [])) as Hinv.
  cbn beta in Hinv.
  match type of Hinv with ?Hs -> _ => assert (Hstep : Hs) end.
  { clear Hinv.
    intros i [num sel] [_ Hi] (Hsel & Hlen & Hnum).
    cbn in Hi, Hsel, Hlen, Hnum.
    destruct (select_body_index dataset i (num, sel) Hi)
      as (a & label & Hit & ->).
    cbn [fst snd].
    assert (Hl : dataset.*2 !! i = Some label)
      by (by rewrite list_lookup_fmap, Hit).
    unfold getitem, setitem.
    rewrite (index_of_length num budget label Hlen).
    destruct (index_of budget label) as [k|e] eqn:Hk; simpl_result.
    2:{ split; [by eapply index_of_raises|].
        apply Exists_exists. exists (a, label).
        split; [by eapply list_elem_of_lookup_2|].
        unfold Dataset.slot. cbn. by rewrite Hk. }
    assert (Hslot : Dataset.slot budget label = Some k) by (unfold Dataset.slot; by rewrite Hk).
    destruct (lookup_lt_is_Some_2 budget k) as [b Hb];
      [by eapply index_of_bound|].
    rewrite (Hnum _ _ Hb). simpl_result.
    pose proof (seen_nonneg dataset budget k i) as Hge.
    rewrite kept_seq_S. unfold Dataset.kept at 2. rewrite Hl, Hslot, Hb.
    assert (Hk' : (k < length num)%nat)
      by (rewrite Hlen; by eapply lookup_lt_Some).
    case_decide; simpl_result.
    - destruct (Z.ltb_spec (Dataset.seen dataset budget k i) b); [|lia].
      split_and!; [by rewrite Hsel|by rewrite length_insert|].
      intros c b' Hb'. rewrite (seen_S _ _ _ _ _ Hl), Hslot.
      destruct (decide (c = k)) as [->|Hne].
      + rewrite list_lookup_insert_eq by done.
        rewrite bool_decide_eq_true_2 by done.
        assert (b' = b) as -> by congruence. f_equal. lia.
      + rewrite list_lookup_insert_ne by done.
        rewrite bool_decide_eq_false_2 by congruence.
        rewrite Z.add_0_r. by apply Hnum.
    - destruct (Z.ltb_spec (Dataset.seen dataset budget k i) b); [lia|].
      split_and!; [by rewrite Hsel, app_nil_r|done|].
      intros c b' Hb'. rewrite (seen_S _ _ _ _ _ Hl), Hslot, (Hnum _ _ Hb').
      destruct (decide (c = k)) as [->|Hne].
      + rewrite bool_decide_eq_true_2 by done.
        assert (b' = b) as -> by congruence. f_equal. lia.
      + rewrite bool_decide_eq_false_2 by congruence. f_equal. lia. }
  specialize (Hinv Hstep). clear Hstep.
  assert (Hinit : forall (k : nat) (b : Z), budget !! k = Some b ->
            budget !! k
            = Some (b - Z.min (Dataset.seen dataset budget k 0) (Z.max b 0))).
  { intros k b ->. f_equal. unfold Dataset.seen. rewrite take_0. cbn. lia. }
  specialize (Hinv (conj eq_refl (conj eq_refl Hinit))).
  destruct (for_each _ _ _) as [[num' sel']|e]; [|done].
  apply Hinv.
Qed.

End IndexBuilderFacts.

(** C7. [get_imbalanced_data] walks the dataset once, in index order, and
    retains index [i] exactly while the budget entry of its class,
    decremented once per retained item, is still positive: that is, exactly
    when fewer items of the same class precede [i] than the class's target
    count ([kept]).  It returns unless some label is no position of the
    target-count list.  In particular labels [0, 0, 1, 0] with target counts
    [2, 1] give the index list [0, 1, 2]. *)
Theorem get_imbalanced_data_budget :
  (forall (A : Type) (dataset : list (A * Z)) (budget : list Z),
     match Dataset.get_imbalanced_data dataset budget with
     | Ok selected =>
         selected = List.filter (Dataset.kept dataset budget)
                                (seq 0 (length dataset))
     | Raise e =>
         e = IndexError
         /\ Exists (fun item => Dataset.slot budget item.2 = None) dataset
     end)
  /\ Dataset.get_imbalanced_data [(tt, 0); (tt, 0); (tt, 1); (tt, 0)] [2; 1]
     = Ok [0; 1; 2]%nat.
Proof.
  split; [|reflexivity].
  intros A dataset budget. unfold Dataset.get_imbalanced_data.
  pose proof (select_loop_kept dataset budget) as H.
  by destruct (for_each _ _ _) as [[num' sel']|e].
Qed.

(** C10. Whatever the dataset and the target counts, a list returned by
    [get_imbalanced_data] is a strictly increasing subsequence of
    [0 .. len(dataset)-1] without repetition, so it is never longer than the
    dataset; the only way not to return is an [IndexError] for a label that
    is not a position of the target-count list. *)
Theorem get_imbalanced_data_single_pass {A : Type}
    (dataset : list (A * Z)) (num_sample_per_class : list Z) :
  match Dataset.get_imbalanced_data dataset num_sample_per_class with
  | Ok selected =>
      selected `sublist_of` seq 0 (length dataset)
      /\ StronglySorted lt selected
      /\ Forall (fun i => (i < length dataset)%nat) selected
      /\ NoDup selected
      /\ (length selected <= length dataset)%nat
  | Raise e => e = IndexError
  end.
Proof.
  unfold Dataset.get_imbalanced_data.
  pose proof (select_loop_sublist dataset num_sample_per_class) as H.
  destruct (for_each _ _ _) as [[num' sel]|e]; simpl_result; [|done].
  destruct H as (Hsub & Hsort & Hlt). split_and!; [done..| |].
  - eapply sublist_NoDup; [apply NoDup_seq|exact Hsub].
  - apply sublist_length in Hsub. by rewrite length_seq in Hsub.
Qed.

(** ** The DRW schedule *)

(** The schedule breakpoint: 250 for a 300-epoch run, 160 otherwise. *)
Lemma drw_idx_div (epochs epoch : Z) :
  Strategy.drw_idx epochs epoch
  = epoch / (if decide (epochs = 300) then 250 else 160).
Proof. unfold Strategy.drw_idx. by case_decide. Qed.

(** C2, as the code has it. There is no clamp: for an epoch of the first two
    stages, [0 <= epoch < 2 * breakpoint], the index [epoch // breakpoint] is
    0 or 1 and [betas[idx]] is in bounds, selecting [0] before the
    breakpoint and [0.9999] from it on. *)
Theorem drw_idx_in_bounds (epochs epoch : Z) :
  let breakpoint := if decide (epochs = 300) then 250 else 160 in
  0 <= epoch < 2 * breakpoint ->
  (Strategy.drw_idx epochs epoch = 0 \/ Strategy.drw_idx epochs epoch = 1)
  /\ getitem Strategy.betas (Strategy.drw_idx epochs epoch)
     = Ok (if decide (epoch < breakpoint) then PyInt 0
           else PyFloat (Q2Qc (9999 # 10000))).
Proof.
  intros breakpoint Hepoch. rewrite drw_idx_div. fold breakpoint.
  assert (Hbp : 0 < breakpoint) by (unfold breakpoint; case_decide; lia).
  case_decide as Hlt.
  - rewrite Z.div_small by lia. split; [by left|reflexivity].
  - assert (epoch / breakpoint = 1) as ->; [|split; [by right|reflexivity]].
    symmetry. apply (Z.div_unique epoch breakpoint 1 (epoch - breakpoint)); lia.
Qed.

Lemma drw_idx_in_bounds_witness :
  0 <= 160 < 2 * (if decide (200 = 300) then 250 else 160)
  /\ getitem Strategy.betas (Strategy.drw_idx 200 160)
     = Ok (PyFloat (Q2Qc (9999 # 10000))).
Proof.
  assert (H : 0 <= 160 < 2 * (if decide (200 = 300) then 250 else 160))
    by (case_decide; lia).
  split; [exact H|].
  exact (proj2 (drw_idx_in_bounds 200 160 H)).
Defined.

(** C2 fails as stated: in a 400-epoch run, epoch 320 gives index 2, which
    is outside [betas], and [get_criterion] ends in an [IndexError]. *)
Lemma drw_idx_not_clamped :
  Strategy.drw_idx 400 320 = 2
  /\ getitem Strategy.betas (Strategy.drw_idx 400 320) = Raise IndexError
  /\ Strategy.get_criterion Strategy.LDAMDRWTrainer
       (Examples.trainer "LDAM_DRW" 400 320 [10; 5])
     = (Raise IndexError, Examples.trainer "LDAM_DRW" 400 320 [10; 5])
  /\ Strategy.get_criterion Strategy.MixupTrainer
       (Examples.trainer "Mixup_DRW" 400 320 [10; 5])
     = (Raise IndexError, Examples.trainer "Mixup_DRW" 400 320 [10; 5]).
Proof. split_and!; reflexivity. Qed.

(** ** Unsupported strategy names *)

(** C4. A trainer whose [strategy] is not its own name raises at once the
    [ValueError] "Strategy is not supported" (the spec's
    [UnsupportedStrategyError]); nothing is assigned before the [raise], so
    the trainer, and with it the [criterion] field, is left as it was: no
    default criterion is installed. *)
Theorem get_criterion_unsupported {Model OptState Meters : Type}
    (k : Strategy.TrainerKind) (t : @Strategy.Trainer Model OptState Meters) :
  Strategy.strategy t <> Strategy.own_strategy k ->
  Strategy.get_criterion k t
  = (Raise (ValueError "[Warning] Strategy is not supported !"), t)
  /\ Strategy.criterion (Strategy.get_criterion k t).2 = Strategy.criterion t.
Proof.
  intros Hne.
  assert (Heq : Strategy.get_criterion k t
                = (Raise (ValueError "[Warning] Strategy is not supported !"),
                   t)).
  { unfold Strategy.get_criterion, get, mbind, method_bind.
    apply String.eqb_neq in Hne. destruct k; cbn in Hne |- *;
      by rewrite Hne. }
  by rewrite Heq.
Qed.

Lemma get_criterion_unsupported_witness :
  Strategy.get_criterion Strategy.ERMTrainer
    (Examples.trainer "LDAM_DRW" 200 0 [10; 5])
  = (Raise (ValueError "[Warning] Strategy is not supported !"),
     Examples.trainer "LDAM_DRW" 200 0 [10; 5])
  /\ Strategy.criterion
       (Strategy.get_criterion Strategy.ERMTrainer
          (Examples.trainer "LDAM_DRW" 200 0 [10; 5])).2 = None.
Proof.
  apply (get_criterion_unsupported Strategy.ERMTrainer
           (Examples.trainer "LDAM_DRW" 200 0 [10; 5])).
  cbn. discriminate.
Defined.

(** ** Exact arithmetic behind the reweighting *)

Lemma Qc_beta_range (b : scalar) :
  b = PyInt 0 \/ b = PyFloat (Q2Qc (9999 # 10000)) ->
  (0 <= to_float b)%Qc /\ (to_float b < 1)%Qc.
Proof. intros [->| ->]; split; by vm_compute. Qed.

Lemma Qcpower_le_1 (x : Qc) (n : nat) :
  (0 <= x)%Qc -> (x <= 1)%Qc -> (x ^ n <= 1)%Qc.
Proof.
  intros H0 H1. induction n as [|n IH]; [by vm_compute|].
  cbn [Qcpower]. 
  apply Qcle_trans with (1 * x ^ n)%Qc.
  - apply Qcmult_le_compat_r; [done|by apply Qcpower_pos].
  - by rewrite Qcmult_1_l.
Qed.

Lemma Qcpower_lt_1 (x : Qc) (n : nat) :
  (0 <= x)%Qc -> (x < 1)%Qc -> (0 < n)%nat -> (x ^ n < 1)%Qc.
Proof.
  intros H0 H1 Hn. destruct n as [|n]; [lia|]. cbn [Qcpower].
  apply Qcle_lt_trans with (x * 1)%Qc.
  - rewrite !(Qcmult_comm x). apply Qcmult_le_compat_r; [|done].
    apply Qcpower_le_1; [done|by apply Qclt_le_weak].
  - by rewrite Qcmult_1_r.
Qed.


Lemma foldl_Qcplus (a : Qc) (l : list Qc) :
  foldl Qcplus a l = (a + qsum l)%Qc.
Proof.
  unfold qsum. revert a. induction l as [|x l IH]; intros a; cbn.
  - ring.
  - rewrite (IH (a + x)%Qc), (IH (0 + x)%Qc). ring.
Qed.

Lemma qsum_cons (x : Qc) (l : list Qc) : qsum (x :: l) = (x + qsum l)%Qc.
Proof. unfold qsum at 1. cbn. rewrite foldl_Qcplus. ring. Qed.

Lemma qsum_scale (c : Qc) (l : list Qc) :
  qsum (map (fun w => (w * c)%Qc) l) = (qsum l * c)%Qc.
Proof.
  induction l as [|x l IH]; cbn [map].
  - unfold qsum. cbn. ring.
  - rewrite !qsum_cons, IH. ring.
Qed.

Lemma qsum_pos (l : list Qc) :
  Forall (fun w => (0 < w)%Qc) l -> l <> [] -> (0 < qsum l)%Qc.
Proof.
  intros Hl Hne. destruct Hl as [|x l Hx Hl]; [done|]. clear Hne.
  rewrite qsum_cons. apply Qcplus_pos_nonneg; [done|].
  induction Hl as [|y l Hy Hl IH]; [by vm_compute|].
  rewrite qsum_cons. apply Qclt_le_weak. by apply Qcplus_pos_nonneg.
Qed.

Lemma qsum_replicate_1 (n : nat) :
  qsum (replicate n 1%Qc) = Q2Qc (inject_Z (Z.of_nat n)).
Proof.
  induction n as [|n IH]; [by apply Qc_is_canon|].
  cbn [replicate]. rewrite qsum_cons, IH.
  apply Qc_is_canon. rewrite Nat2Z.inj_succ. unfold Z.succ.
  cbn [this Qcplus Q2Qc]. rewrite !Qred_correct, inject_Z_plus. ring.
Qed.

Lemma np_sum_Fin (l : list Qc) : np_sum (map Fin l) = Fin (qsum l).
Proof.
  unfold np_sum, qsum. generalize 0%Qc.
  induction l as [|x l IH]; intros a; cbn; [done|]. apply IH.
Qed.


Lemma getitem_betas (i : Z) (b : scalar) :
  getitem betas i = Ok b ->
  b = PyInt 0 \/ b = PyFloat (Q2Qc (9999 # 10000)).
Proof.
  unfold getitem. destruct (index_of betas i) as [k|e] eqn:Hk; [|done].
  apply index_of_bound in Hk. simpl_result.
  destruct k as [|[|k]]; cbn in *; [intros [= <-]; auto..|lia].
Qed.

Lemma getitem_betas_raises (i : Z) (e : exn) :
  getitem betas i = Raise e -> e = IndexError.
Proof.
  unfold getitem. destruct (index_of betas i) as [k|e'] eqn:Hk; simpl_result.
  - apply index_of_bound in Hk.
    destruct k as [|[|k]]; cbn in *; [done..|lia].
  - intros [= <-]. by eapply index_of_raises.
Qed.

(** Both entries of [betas] raised to a non-negative count: the integer
    [0] and the float [0.9999] agree with the rational power. *)
Lemma np_power_betas (b : scalar) (cls_num_list : list Z) :
  b = PyInt 0 \/ b = PyFloat (Q2Qc (9999 # 10000)) ->
  Forall (fun n => 0 <= n) cls_num_list ->
  np_power b cls_num_list
  = Ok (map (fun n => Fin (to_float b ^ Z.to_nat n)) cls_num_list).
Proof.
  intros [->| ->] Hcls; unfold np_power.
  - rewrite decide_True by done. f_equal.
    apply map_ext_in. intros n Hn%list_elem_of_In.
    pose proof (proj1 (Forall_forall _ _) Hcls n Hn) as Hn0. cbn in Hn0.
    f_equal. destruct (decide (n = 0)) as [->|Hne]; [by apply Qc_is_canon|].
    rewrite Z.pow_0_l by lia.
    change (to_float (PyInt 0)) with 0%Qc.
    rewrite Qcpower_0 by lia. by apply Qc_is_canon.
  - f_equal. apply map_ext_in. intros n Hn%list_elem_of_In.
    pose proof (proj1 (Forall_forall _ _) Hcls n Hn) as Hn0. cbn in Hn0.
    by rewrite decide_True by done.
Qed.

Lemma effective_num_betas (b : scalar) (cls_num_list : list Z) :
  b = PyInt 0 \/ b = PyFloat (Q2Qc (9999 # 10000)) ->
  Forall (fun n => 0 <= n) cls_num_list ->
  effective_num b cls_num_list
  = Ok (map (fun n => Fin (1 - to_float b ^ Z.to_nat n)) cls_num_list).
Proof.
  intros Hb Hcls. unfold effective_num.
  rewrite (np_power_betas b cls_num_list Hb Hcls). simpl_result.
  by rewrite map_map.
Qed.

Lemma effective_num_nonzero (b : scalar) (n : Z) :
  b = PyInt 0 \/ b = PyFloat (Q2Qc (9999 # 10000)) ->
  1 <= n -> (0 < 1 - to_float b ^ Z.to_nat n)%Qc.
Proof.
  intros Hb Hn. destruct (Qc_beta_range b Hb) as [H0 H1].
  unfold Qcminus. apply (proj1 (Qclt_minus_iff _ _)).
  apply Qcpower_lt_1; [done..|lia].
Qed.

Lemma class_weight_pos (b : scalar) (n : Z) :
  b = PyInt 0 \/ b = PyFloat (Q2Qc (9999 # 10000)) ->
  1 <= n -> (0 < class_weight (to_float b) n)%Qc.
Proof.
  intros Hb Hn. unfold class_weight, Qcdiv.
  apply Qcmult_pos_pos.
  - destruct (Qc_beta_range b Hb) as [H0 H1].
    unfold Qcminus. by apply (proj1 (Qclt_minus_iff _ _)).
  - apply Qcinv_pos. by apply effective_num_nonzero.
Qed.

Lemma Qc_pos_nonzero (x : Qc) : (0 < x)%Qc -> x <> 0%Qc.
Proof. intros H ->. by vm_compute in H. Qed.

Lemma raw_weights_Fin (b : scalar) (cls_num_list : list Z) :
  b = PyInt 0 \/ b = PyFloat (Q2Qc (9999 # 10000)) ->
  Forall (fun n => 1 <= n) cls_num_list ->
  raw_weights b (map (fun n => Fin (1 - to_float b ^ Z.to_nat n))
                     cls_num_list)
  = map Fin (map (class_weight (to_float b)) cls_num_list).
Proof.
  intros Hb Hcls. unfold raw_weights. rewrite !map_map.
  apply map_ext_in. intros n Hn%list_elem_of_In.
  pose proof (proj1 (Forall_forall _ _) Hcls n Hn) as Hn1. cbn in Hn1.
  unfold np_div. rewrite decide_False; [done|].
  apply Qc_pos_nonzero. by apply effective_num_nonzero.
Qed.

Lemma normalize_Fin (raw : list Qc) (k : nat) :
  Forall (fun w => (0 < w)%Qc) raw ->
  normalize (map Fin raw) k
  = map Fin (map (fun w => (w / qsum raw
                            * Q2Qc (inject_Z (Z.of_nat k)))%Qc) raw).
Proof.
  intros Hraw. unfold normalize. rewrite np_sum_Fin, !map_map.
  apply map_ext_in. intros w Hw. unfold np_div. rewrite decide_False; [done|].
  apply Qc_pos_nonzero, qsum_pos; [done|]. by intros ->.
Qed.

Lemma class_weights_pos (b : scalar) (cls_num_list : list Z) :
  b = PyInt 0 \/ b = PyFloat (Q2Qc (9999 # 10000)) ->
  Forall (fun n => 1 <= n) cls_num_list ->
  Forall (fun w => (0 < w)%Qc) (map (class_weight (to_float b)) cls_num_list).
Proof.
  intros Hb Hcls. apply Forall_map.
  eapply Forall_impl; [exact Hcls|]. intros n Hn. by apply class_weight_pos.
Qed.

(** With every count at least 1, the reweighting lines compute the spec's
    formula, and no [inf] or [nan] arises. *)
Lemma drw_weights_selected (epochs epoch : Z) (cls_num_list : list Z)
    (b : scalar) :
  getitem betas (drw_idx epochs epoch) = Ok b ->
  Forall (fun n => 1 <= n) cls_num_list ->
  drw_weights epochs epoch cls_num_list
  = Ok (map Fin (drw_formula (to_float b) cls_num_list)).
Proof.
  intros Hsel Hcls. pose proof (getitem_betas _ _ Hsel) as Hb.
  assert (Hcls0 : Forall (fun n => 0 <= n) cls_num_list).
  { eapply Forall_impl; [exact Hcls|]. cbn. lia. }
  unfold drw_weights. rewrite Hsel. simpl_result.
  rewrite (effective_num_betas b cls_num_list Hb Hcls0). simpl_result.
  rewrite (raw_weights_Fin b cls_num_list Hb Hcls).
  rewrite normalize_Fin by (by apply class_weights_pos).
  reflexivity.
Qed.

Lemma drw_formula_length (beta : Qc) (cls_num_list : list Z) :
  length (drw_formula beta cls_num_list) = length cls_num_list.
Proof. unfold drw_formula. by rewrite !length_map. Qed.

Lemma drw_formula_sum (b : scalar) (cls_num_list : list Z) :
  b = PyInt 0 \/ b = PyFloat (Q2Qc (9999 # 10000)) ->
  Forall (fun n => 1 <= n) cls_num_list ->
  qsum (drw_formula (to_float b) cls_num_list)
  = Q2Qc (inject_Z (Z.of_nat (length cls_num_list))).
Proof.
  intros Hb Hcls. unfold drw_formula.
  destruct cls_num_list as [|n cls]; [by apply Qc_is_canon|].
  set (raw := map _ (n :: cls)). set (L := Q2Qc _).
  assert (Hs : qsum raw <> 0%Qc).
  { apply Qc_pos_nonzero, qsum_pos; [by apply class_weights_pos|done]. }
  rewrite (map_ext _ (fun w => (w * (/ qsum raw * L))%Qc))
    by (intros w; unfold Qcdiv; ring).
  rewrite qsum_scale. field. done.
Qed.

Lemma drw_formula_uniform (cls_num_list : list Z) :
  Forall (fun n => 1 <= n) cls_num_list ->
  drw_formula 0 cls_num_list = replicate (length cls_num_list) 1%Qc.
Proof.
  intros Hcls. unfold drw_formula.
  assert (Hraw : map (class_weight 0) cls_num_list
                 = replicate (length cls_num_list) 1%Qc).
  { induction Hcls as [|n cls Hn Hcls IH]; [done|]. cbn. f_equal; [|done].
    unfold class_weight. rewrite Qcpower_0 by lia. by apply Qc_is_canon. }
  rewrite Hraw, qsum_replicate_1.
  destruct cls_num_list as [|n cls]; [done|].
  set (L := Q2Qc _).
  assert (HL : L <> 0%Qc).
  { unfold L. intros H. apply Q2Qc_eq_iff in H.
    unfold Qeq in H. cbn in H. lia. }
  rewrite (map_ext _ (fun w => w)) by (intros w; field; done).
  apply map_id.
Qed.


Lemma get_criterion_drw {Model OptState Meters : Type}
    (k : TrainerKind) (t : @Trainer Model OptState Meters) :
  k = LDAMDRWTrainer \/ k = MixupTrainer ->
  strategy t = own_strategy k ->
  get_criterion k t
  = match drw_weights (epochs (cfg t)) (epoch t) (cls_num_list t) with
    | Ok w =>
        (Ok tt, set_criterion (installed k (cfg_cls_num_list (cfg t)) w) t)
    | Raise e => (Raise e, t)
    end.
Proof.
  intros [->| ->] Hs; unfold get_criterion, get, mbind, method_bind, lift;
    rewrite Hs; cbn [own_strategy]; rewrite String.eqb_refl;
    by destruct (drw_weights _ _ _).
Qed.

Lemma drw_weights_raises (epochs epoch : Z) (cls_num_list : list Z) (e : exn) :
  getitem betas (drw_idx epochs epoch) = Raise e ->
  drw_weights epochs epoch cls_num_list = Raise e.
Proof. intros H. unfold drw_weights. by rewrite H. Qed.

(** C1. In both DRW trainers, with every class count at least 1 and whatever
    the epoch: when the schedule selects a beta, [get_criterion] installs
    the weights [drw_formula beta cls_num_list], that is
    [effective_num[c] = 1 - beta^cls_num_list[c]],
    [weight[c] = (1 - beta) / effective_num[c]], divided by their sum and
    multiplied by the number of classes; they are finite and sum to the
    number of classes; when the selected beta is 0, in particular for an
    epoch below the breakpoint, they are all 1.  When no beta is selected
    no weight is computed ([IndexError]). *)
Theorem drw_criterion_weights {Model OptState Meters : Type}
    (k : TrainerKind) (t : @Trainer Model OptState Meters) :
  k = LDAMDRWTrainer \/ k = MixupTrainer ->
  strategy t = own_strategy k ->
  Forall (fun n => 1 <= n) (cls_num_list t) ->
  let num_classes := length (cls_num_list t) in
  let breakpoint := if decide (epochs (cfg t) = 300) then 250 else 160 in
  match getitem betas (drw_idx (epochs (cfg t)) (epoch t)) with
  | Ok b =>
      let weights := drw_formula (to_float b) (cls_num_list t) in
      get_criterion k t
      = (Ok tt, set_criterion (installed k (cfg_cls_num_list (cfg t))
                                         (map Fin weights)) t)
      /\ length weights = num_classes
      /\ qsum weights = Q2Qc (inject_Z (Z.of_nat num_classes))
      /\ (to_float b = 0%Qc -> weights = replicate num_classes 1%Qc)
  | Raise e => get_criterion k t = (Raise IndexError, t)
  end
  /\ (0 <= epoch t < breakpoint ->
      get_criterion k t
      = (Ok tt, set_criterion
                  (installed k (cfg_cls_num_list (cfg t))
                             (map Fin (replicate num_classes 1%Qc))) t)).
Proof.
  intros Hk Hs Hcls num_classes breakpoint.
  rewrite (get_criterion_drw k t Hk Hs). split.
  - destruct (getitem betas _) as [b|e] eqn:Hsel.
    + pose proof (getitem_betas _ _ Hsel) as Hb.
      rewrite (drw_weights_selected _ _ _ b Hsel Hcls).
      split_and!; [done|apply drw_formula_length|by apply drw_formula_sum|].
      intros ->. by apply drw_formula_uniform.
    + rewrite (drw_weights_raises _ _ _ e Hsel).
      by rewrite (getitem_betas_raises _ _ Hsel).
  - intros Hepoch.
    assert (Hsel : getitem betas (drw_idx (epochs (cfg t)) (epoch t))
                   = Ok (PyInt 0)).
    { rewrite drw_idx_div. fold breakpoint. by rewrite Z.div_small by lia. }
    rewrite (drw_weights_selected _ _ _ _ Hsel Hcls).
    change (to_float (PyInt 0)) with 0%Qc.
    by rewrite drw_formula_uniform.
Qed.

Lemma drw_criterion_weights_witness :
  get_criterion LDAMDRWTrainer (Examples.trainer "LDAM_DRW" 200 160 [10; 5])
  = (Ok tt,
     set_criterion
       (LDAMLoss [10; 5] (Q2Qc (1 # 2)) 30
          (map Fin (drw_formula (Q2Qc (9999 # 10000)) [10; 5])))
       (Examples.trainer "LDAM_DRW" 200 160 [10; 5]))
  /\ qsum (drw_formula (Q2Qc (9999 # 10000)) [10; 5]) = Q2Qc (inject_Z 2).
Proof.
  assert (Hcls : Forall (fun n => 1 <= n) [10; 5])
    by (repeat constructor; lia).
  pose proof (proj1 (drw_criterion_weights LDAMDRWTrainer
                (Examples.trainer "LDAM_DRW" 200 160 [10; 5])
                (or_introl eq_refl) eq_refl Hcls)) as H.
  change (getitem betas _) with (Ok (PyFloat (Q2Qc (9999 # 10000)))) in H.
  destruct H as (Hget & _ & Hsum & _). split; [exact Hget|exact Hsum].
Defined.

(** ** A zero class count *)


Lemma raw_weights_zero (b : scalar) (cls_num_list : list Z) :
  b = PyInt 0 \/ b = PyFloat (Q2Qc (9999 # 10000)) ->
  Forall (fun n => 0 <= n) cls_num_list ->
  raw_weights b (map (fun n => Fin (1 - to_float b ^ Z.to_nat n))
                     cls_num_list)
  = map (fun n => if decide (n = 0) then PInf
                  else Fin (class_weight (to_float b) n)) cls_num_list.
Proof.
  intros Hb Hcls. unfold raw_weights. rewrite !map_map.
  apply map_ext_in. intros n Hn%list_elem_of_In.
  pose proof (proj1 (Forall_forall _ _) Hcls n Hn) as Hn0. cbn in Hn0.
  unfold np_div. destruct (decide (n = 0)) as [->|Hz].
  - change (Z.to_nat 0) with 0%nat. cbn [Qcpower].
    assert ((1 - 1)%Qc = 0%Qc) as -> by ring.
    rewrite decide_True by done.
    destruct (Qc_beta_range b Hb) as [H0 H1].
    assert (Hpos : (0 < 1 - to_float b)%Qc).
    { unfold Qcminus. by apply (proj1 (Qclt_minus_iff _ _)). }
    rewrite decide_False by (by apply Qc_pos_nonzero).
    by rewrite bool_decide_eq_true_2.
  - rewrite decide_False; [done|].
    apply Qc_pos_nonzero, effective_num_nonzero; [done|lia].
Qed.

Lemma np_sum_inf (a : npfloat) (l : list npfloat) :
  Forall (fun w => w = PInf \/ exists x, w = Fin x) (a :: l) ->
  Exists (fun w => w = PInf) (a :: l) ->
  foldl np_add a l = PInf.
Proof.
  revert a. induction l as [|w l IH]; intros a Hall Hex; cbn.
  - by apply Exists_cons in Hex as [->|?%Exists_nil].
  - apply Forall_cons in Hall as [Ha [Hw Hl]%Forall_cons].
    apply IH.
    + constructor; [|done].
      destruct Ha as [->|[x ->]], Hw as [->|[y ->]]; cbn; eauto.
    + apply Exists_cons in Hex as [->|[->|Hex]%Exists_cons].
      * left. by destruct Hw as [->|[y ->]].
      * left. by destruct Ha as [->|[x ->]].
      * by right.
Qed.

Lemma drw_weights_zero_count (epochs epoch : Z) (cls_num_list : list Z)
    (b : scalar) :
  getitem betas (drw_idx epochs epoch) = Ok b ->
  Forall (fun n => 0 <= n) cls_num_list ->
  0 ∈ cls_num_list ->
  drw_weights epochs epoch cls_num_list
  = Ok (zero_count_weights cls_num_list).
Proof.
  intros Hsel Hcls Hzero. pose proof (getitem_betas _ _ Hsel) as Hb.
  unfold drw_weights. rewrite Hsel. simpl_result.
  rewrite (effective_num_betas b cls_num_list Hb Hcls). simpl_result.
  rewrite (raw_weights_zero b cls_num_list Hb Hcls).
  unfold normalize, np_sum. rewrite np_sum_inf.
  - f_equal. unfold zero_count_weights. rewrite map_map.
    apply map_ext. intros n. case_decide; [done|]. cbn. f_equal. ring.
  - constructor; [right; eauto|]. apply Forall_map, Forall_forall.
    intros n _. cbn. case_decide; eauto.
  - right. apply Exists_exists. exists PInf. split; [|done].
    apply list_elem_of_fmap. exists 0. by rewrite decide_True.
Qed.

(** C3, as the code has it. There is no guard: when a (non-negative) count
    is zero and a beta is selected, the effective number of that class is 0
    at either stage, the division is carried out on it, no exception is
    raised, and [get_criterion] installs a weight vector that is [nan] at
    the zero-count classes and 0 elsewhere. *)
Theorem zero_count_not_guarded {Model OptState Meters : Type}
    (k : TrainerKind) (t : @Trainer Model OptState Meters) (b : scalar) :
  k = LDAMDRWTrainer \/ k = MixupTrainer ->
  strategy t = own_strategy k ->
  Forall (fun n => 0 <= n) (cls_num_list t) ->
  0 ∈ cls_num_list t ->
  getitem betas (drw_idx (epochs (cfg t)) (epoch t)) = Ok b ->
  (exists eff, effective_num b (cls_num_list t) = Ok eff /\ Fin 0 ∈ eff)
  /\ get_criterion k t
     = (Ok tt, set_criterion
                 (installed k (cfg_cls_num_list (cfg t))
                            (zero_count_weights (cls_num_list t))) t).
Proof.
  intros Hk Hs Hcls Hzero Hsel. pose proof (getitem_betas _ _ Hsel) as Hb.
  split.
  - rewrite (effective_num_betas b _ Hb Hcls). eexists. split; [done|].
    apply list_elem_of_fmap. exists 0. split; [|done].
    apply (f_equal Fin). change (Z.to_nat 0) with 0%nat. cbn [Qcpower]. ring.
  - rewrite (get_criterion_drw k t Hk Hs).
    by rewrite (drw_weights_zero_count _ _ _ b Hsel Hcls Hzero).
Qed.

Lemma zero_count_not_guarded_witness :
  get_criterion MixupTrainer (Examples.trainer "Mixup_DRW" 200 160 [0; 5])
  = (Ok tt,
     set_criterion (CrossEntropyLoss (Some [NaN; Fin 0]) "none")
                   (Examples.trainer "Mixup_DRW" 200 160 [0; 5])).
Proof.
  assert (Hcls : Forall (fun n => 0 <= n) [0; 5])
    by (repeat constructor; lia).
  assert (Hzero : 0 ∈ [0; 5]) by (left).
  exact (proj2 (zero_count_not_guarded MixupTrainer
                  (Examples.trainer "Mixup_DRW" 200 160 [0; 5])
                  (PyFloat (Q2Qc (9999 # 10000)))
                  (or_intror eq_refl) eq_refl Hcls Hzero eq_refl)).
Defined.

(** C3 fails as stated: with counts [0, 5] no error is surfaced at either
    stage; [get_criterion] returns normally with a [nan] weight. *)
Lemma zero_count_reaches_division :
  get_criterion LDAMDRWTrainer (Examples.trainer "LDAM_DRW" 200 0 [0; 5])
  = (Ok tt,
     set_criterion (LDAMLoss [0; 5] (Q2Qc (1 # 2)) 30 [NaN; Fin 0])
                   (Examples.trainer "LDAM_DRW" 200 0 [0; 5]))
  /\ get_criterion LDAMDRWTrainer (Examples.trainer "LDAM_DRW" 200 160 [0; 5])
     = (Ok tt,
        set_criterion (LDAMLoss [0; 5] (Q2Qc (1 # 2)) 30 [NaN; Fin 0])
                      (Examples.trainer "LDAM_DRW" 200 160 [0; 5]))
  /\ raw_weights (PyInt 0) [Fin 0; Fin 1] = [PInf; Fin 1].
Proof.
  assert (Hcls : Forall (fun n => 0 <= n) [0; 5])
    by (repeat constructor; lia).
  assert (Hzero : 0 ∈ [0; 5]) by (left).
  split_and!.
  - rewrite (get_criterion_drw LDAMDRWTrainer
               (Examples.trainer "LDAM_DRW" 200 0 [0; 5])
               (or_introl eq_refl) eq_refl).
    unfold Examples.trainer.
    cbn [cfg epochs epoch cls_num_list cfg_cls_num_list].
    by rewrite (drw_weights_zero_count 200 0 [0; 5] (PyInt 0) eq_refl
                  Hcls Hzero).
  - rewrite (get_criterion_drw LDAMDRWTrainer
               (Examples.trainer "LDAM_DRW" 200 160 [0; 5])
               (or_introl eq_refl) eq_refl).
    unfold Examples.trainer.
    cbn [cfg epochs epoch cls_num_list cfg_cls_num_list].
    by rewrite (drw_weights_zero_count 200 160 [0; 5]
                  (PyFloat (Q2Qc (9999 # 10000))) eq_refl Hcls Hzero).
  - reflexivity.
Qed.

(** ** The periodic report *)

Lemma getitem_last {A : Type} (l : list A) :
  getitem l (-1)
  = match last l with Some x => Ok x | None => Raise IndexError end.
Proof.
  unfold getitem, index_of. rewrite last_lookup.
  destruct l as [|x l]; [done|].
  rewrite decide_False by lia. rewrite decide_True by (cbn [length]; lia).
  simpl_result.
  replace (Z.to_nat (-1 + Z.of_nat (length (x :: l))))
    with (pred (length (x :: l))) by (cbn [length]; lia).
  by destruct (_ !! _).
Qed.

Section ReportFacts.
Context {Model OptState Batch BatchStats Meters : Type}.
Variable learn : TrainerKind -> option Criterion -> Batch -> Model ->
                 @Optimizer OptState ->
                 result (Model * @Optimizer OptState * BatchStats).
Variable meters_init : Meters.
Variable meters_update : Meters -> BatchStats -> Meters.
Implicit Types (t : @Trainer Model OptState Meters).

Lemma reported_lr_tenth (o : @Optimizer OptState) :
  reported_lr o
  = match tenth_of_lr o with Some v => Ok v | None => Raise IndexError end.
Proof.
  unfold reported_lr, tenth_of_lr. rewrite getitem_last.
  by destruct (last _).
Qed.

(** A report appends one line, and for [ERMTrainer] one record, carrying
    one tenth of the last group's learning rate; it touches nothing else. *)
Lemma report_ok (k : TrainerKind) (i total : nat) (meters : Meters)
    t t' :
  report k i total meters t = (Ok tt, t') ->
  exists v, tenth_of_lr (optimizer t) = Some v
  /\ log_training t'
     = log_training t ++ [{| ll_epoch := epoch t; ll_batch := i;
                             ll_total := total; ll_lr := v;
                             ll_meters := meters |}]
  /\ wandb t'
     = wandb t ++ match k with
                  | ERMTrainer => [{| wb_epoch := epoch t;
                                      wb_meters := meters; wb_lr := v |}]
                  | _ => []
                  end
  /\ cfg t' = cfg t /\ epoch t' = epoch t /\ criterion t' = criterion t
  /\ model t' = model t /\ optimizer t' = optimizer t.
Proof.
  unfold report, mbind, method_bind, get, lift, modify, mret, method_ret.
  rewrite reported_lr_tenth.
  destruct (tenth_of_lr (optimizer t)) as [v|] eqn:Hv; [|done].
  destruct k; cbn [write_log optimizer epoch].
  - rewrite reported_lr_tenth, Hv. intros [= <-]. exists v. cbn.
    by rewrite app_nil_r || done.
  - intros [= <-]. exists v. cbn. by rewrite app_nil_r.
  - intros [= <-]. exists v. cbn. by rewrite app_nil_r.
Qed.

Lemma expected_reports_cons (print_freq : Z) (first : nat)
    (o : @Optimizer OptState) (opts : list (@Optimizer OptState)) :
  expected_reports print_freq first (o :: opts)
  = expected_reports print_freq first [o]
    ++ expected_reports print_freq (S first) opts.
Proof.
  unfold expected_reports. cbn [length seq zip zip_with].
  by rewrite <- omap_app.
Qed.

Lemma expected_reports_one (print_freq : Z) (i : nat)
    (o : @Optimizer OptState) :
  expected_reports print_freq i [o]
  = if bool_decide (Z.of_nat i mod print_freq = 0)
    then match tenth_of_lr o with Some v => [(i, v)] | None => [] end
    else [].
Proof.
  unfold expected_reports. cbn.
  destruct (bool_decide _); [|done]. by destruct (tenth_of_lr o).
Qed.

(** One iteration: the learning step replaces model and optimizer, and a
    report is issued exactly when [print_freq] divides the batch index. *)
Lemma batch_body_ok (k : TrainerKind) (total : nat)
    (acc r : Meters * list BatchStats) (i : nat) (batch : Batch) t t1 :
  batch_body learn meters_update k total acc (i, batch) t = (Ok r, t1) ->
  exists m' o' stats,
    learn k (criterion t) batch (model t) (optimizer t) = Ok (m', o', stats)
    /\ model t1 = m' /\ optimizer t1 = o'
    /\ cfg t1 = cfg t /\ epoch t1 = epoch t /\ criterion t1 = criterion t
    /\ map emitted (log_training t1)
       = map emitted (log_training t)
         ++ expected_reports (print_freq (cfg t)) i [o']
    /\ map wb_lr (wandb t1)
       = map wb_lr (wandb t)
         ++ match k with
            | ERMTrainer =>
                map snd (expected_reports (print_freq (cfg t)) i [o'])
            | _ => []
            end.
Proof.
  destruct acc as [meters all_preds].
  unfold batch_body, mbind, method_bind, get, lift, modify, mret, method_ret.
  destruct (learn k _ batch _ _) as [[[m' o'] stats]|e]; [|done].
  cbn [set_model_optimizer cfg].
  unfold is_report_batch. case_decide as Hpf; [done|].
  destruct (bool_decide (Z.of_nat i mod print_freq (cfg t) = 0)) eqn:Hdiv.
  - destruct (report _ _ _ _ _) as [[[]|e] t2] eqn:Hrep; [|done].
    intros [= <- <-]. exists m', o', stats.
    rewrite expected_reports_one, Hdiv.
    apply report_ok in Hrep
      as (v & Hv & Hlog & Hw & Hcfg & Hep & Hcr & Hm & Ho).
    cbn in Hv, Hlog, Hw, Hcfg, Hep, Hcr, Hm, Ho. rewrite Hv.
    split_and!; [done..| |].
    + by rewrite Hlog, map_app.
    + rewrite Hw, map_app. by destruct k.
  - intros [= <- <-]. exists m', o', stats.
    rewrite expected_reports_one, Hdiv. cbn.
    split_and!; [done..|by rewrite app_nil_r|].
    destruct k; cbn; by rewrite app_nil_r.
Qed.

Lemma batches_ok (k : TrainerKind) (total : nat) (train_loader : list Batch) :
  forall (first : nat) (acc r : Meters * list BatchStats) t t',
  for_loop (batch_body learn meters_update k total) acc
           (zip (seq first (length train_loader)) train_loader) t
  = (Ok r, t') ->
  let opts := optimizers_after learn k (criterion t) (model t) (optimizer t)
                               train_loader in
  length opts = length train_loader
  /\ optimizer t' = default (optimizer t) (last opts)
  /\ cfg t' = cfg t /\ epoch t' = epoch t
  /\ map emitted (log_training t')
     = map emitted (log_training t)
       ++ expected_reports (print_freq (cfg t)) first opts
  /\ map wb_lr (wandb t')
     = map wb_lr (wandb t)
       ++ match k with
          | ERMTrainer =>
              map snd (expected_reports (print_freq (cfg t)) first opts)
          | _ => []
          end.
Proof.
  induction train_loader as [|batch rest IH]; intros first acc r t t'.
  - cbn. intros [= <- <-]. unfold expected_reports. cbn.
    split_and!; [done..|by rewrite app_nil_r|].
    destruct k; cbn; by rewrite app_nil_r.
  - cbn [length seq zip zip_with for_loop].
    unfold mbind at 1, method_bind at 1.
    destruct (batch_body _ _ _ _ _ _ _) as [[acc1|e] t1] eqn:Hbody; [|done].
    intros Hrest.
    apply batch_body_ok in Hbody
      as (m' & o' & stats & Hlearn & Hm & Ho & Hcfg & Hep & Hcr & Hlog & Hw).
    apply IH in Hrest as (Hlen & Hopt & Hcfg' & Hep' & Hlog' & Hw').
    rewrite Hm, Ho, Hcr, Hcfg in *. clear IH.
    cbn [optimizers_after]. rewrite Hlearn.
    rewrite expected_reports_cons.
    split_and!.
    + cbn [length]. by rewrite Hlen.
    + rewrite Hopt.
      destruct (optimizers_after _ _ _ _ _ rest) as [|x l]; [done|].
      change (last (o' :: x :: l)) with (last (x :: l)).
      by destruct (proj2 (last_is_Some (x :: l)) ltac:(done)) as [y ->].
    + congruence.
    + congruence.
    + by rewrite Hlog', Hlog, app_assoc.
    + rewrite Hw', Hw. destruct k; rewrite ?app_nil_r; [|done..].
      by rewrite map_app, app_assoc.
Qed.
End ReportFacts.

(** C9, as the code has it. In every successful epoch the log lines written
    are exactly those of the batch indices that [print_freq] divides, in
    order, and the learning rate on each is one tenth of the learning rate
    of the optimizer's last parameter group as that batch left it (not the
    learning rate itself).  [ERMTrainer] sends the same value to the metrics
    sink with each report, [LDAMDRWTrainer] sends nothing to the sink, and
    [MixupTrainer] sends one record after the last batch. *)
Theorem periodic_report_lr {Model OptState Batch BatchStats Meters : Type}
    (learn : TrainerKind -> option Criterion -> Batch -> Model ->
             @Optimizer OptState ->
             result (Model * @Optimizer OptState * BatchStats))
    (meters_init : Meters) (meters_update : Meters -> BatchStats -> Meters)
    (k : TrainerKind) (train_loader : list Batch)
    (t t' : @Trainer Model OptState Meters) (r : Meters * list BatchStats) :
  train_batches learn meters_init meters_update k train_loader t = (Ok r, t') ->
  let opts := optimizers_after learn k (criterion t) (model t) (optimizer t)
                               train_loader in
  let reports := expected_reports (print_freq (cfg t)) 0 opts in
  length opts = length train_loader
  /\ map emitted (log_training t') = map emitted (log_training t) ++ reports
  /\ match k with
     | ERMTrainer =>
         map wb_lr (wandb t') = map wb_lr (wandb t) ++ map snd reports
     | LDAMDRWTrainer => map wb_lr (wandb t') = map wb_lr (wandb t)
     | MixupTrainer =>
         exists v, tenth_of_lr (default (optimizer t) (last opts)) = Some v
                   /\ map wb_lr (wandb t') = map wb_lr (wandb t) ++ [v]
     end.
Proof.
  unfold train_batches. unfold mbind at 1, method_bind at 1.
  destruct (for_loop _ _ _ _) as [[[meters all_preds]|e] t1] eqn:Hloop;
    [|done].
  apply batches_ok in Hloop as (Hlen & Hopt & Hcfg & Hep & Hlog & Hw).
  destruct k; unfold mbind, method_bind, get, lift, modify, mret, method_ret.
  - intros [= <- <-]. by split_and!.
  - intros [= <- <-]. rewrite app_nil_r in Hw. by split_and!.
  - rewrite reported_lr_tenth.
    destruct (tenth_of_lr (optimizer t1)) as [v|] eqn:Hv; [|done].
    intros [= <- <-]. cbn [wandb_log log_training wandb].
    split_and!; [done..|]. exists v. rewrite <- Hopt. split; [done|].
    rewrite map_app, Hw. cbn. by rewrite app_nil_r.
Qed.

Lemma periodic_report_lr_witness :
  map emitted
      (log_training
         (train_batches Examples.idle_learn tt (fun m _ => m) LDAMDRWTrainer
            [tt; tt; tt] (Examples.trainer "LDAM_DRW" 200 0 [10; 5])).2)
  = expected_reports 1 0
      (optimizers_after Examples.idle_learn LDAMDRWTrainer None tt
         (optimizer (Examples.trainer "LDAM_DRW" 200 0 [10; 5]))
         [tt; tt; tt]).
Proof.
  exact (proj1 (proj2
    (periodic_report_lr Examples.idle_learn tt (fun m _ => m) LDAMDRWTrainer
       [tt; tt; tt] (Examples.trainer "LDAM_DRW" 200 0 [10; 5])
       (train_batches Examples.idle_learn tt (fun m _ => m) LDAMDRWTrainer
          [tt; tt; tt] (Examples.trainer "LDAM_DRW" 200 0 [10; 5])).2
       (tt, [tt; tt; tt]) eq_refl))).
Defined.

(** C9 fails as stated: with one parameter group of learning rate 1/10 and
    [print_freq = 1], the report of batch 0 carries 1/100 on the log line
    and, for [ERMTrainer], in the record sent to the sink, while the
    optimizer's learning rate is still 1/10; [LDAMDRWTrainer] sends nothing
    to the sink. *)
Lemma reported_lr_is_scaled :
  let run (k : TrainerKind) (name : string) :=
    (train_batches Examples.idle_learn tt (fun m _ => m) k [tt]
       (Examples.trainer name 200 0 [10; 5])).2 in
  map (fun l => this (ll_lr l)) (log_training (run ERMTrainer "ERM"%string))
  = [(1 # 100)%Q]
  /\ map (fun w => this (wb_lr w)) (wandb (run ERMTrainer "ERM"%string))
     = [(1 # 100)%Q]
  /\ map (fun g => this (lr g)) (param_groups (optimizer (run ERMTrainer "ERM"%string)))
     = [(1 # 10)%Q]
  /\ map (fun l => this (ll_lr l))
         (log_training (run LDAMDRWTrainer "LDAM_DRW"%string))
     = [(1 # 100)%Q]
  /\ wandb (run LDAMDRWTrainer "LDAM_DRW"%string) = []
  /\ map (fun l => this (ll_lr l))
         (log_training (run MixupTrainer "Mixup_DRW"%string))
     = [(1 # 100)%Q].
Proof. cbv zeta. split_and!; by vm_compute. Qed.

(** ** Construction of the imbalanced dataset *)

Lemma insert_sorted_elem (x z : Z) (l : list Z) :
  z ∈ Dataset.insert_sorted x l <-> z = x \/ z ∈ l.
Proof.
  induction l as [|y l IH]; cbn.
  - rewrite list_elem_of_singleton, elem_of_nil. tauto.
  - destruct (Z.ltb_spec x y); [by rewrite elem_of_cons|].
    destruct (Z.eqb_spec x y) as [->|Hne].
    + rewrite elem_of_cons. tauto.
    + rewrite !elem_of_cons, IH. tauto.
Qed.

Lemma insert_sorted_sorted (x : Z) (l : list Z) :
  StronglySorted Z.lt l -> StronglySorted Z.lt (Dataset.insert_sorted x l).
Proof.
  induction 1 as [|y l Hl IH Hy]; cbn; [by repeat constructor|].
  destruct (Z.ltb_spec x y) as [Hlt|Hge].
  - constructor; [by constructor|]. constructor; [done|].
    eapply Forall_impl; [exact Hy|]. cbn. lia.
  - destruct (Z.eqb_spec x y) as [Heq|Hne]; [by constructor|].
    constructor; [done|]. apply Forall_forall. intros z Hz.
    apply insert_sorted_elem in Hz as [->|Hz]; [lia|].
    by apply (proj1 (Forall_forall _ _) Hy).
Qed.

Lemma np_unique_sorted (targets : list Z) :
  StronglySorted Z.lt (Dataset.np_unique targets).
Proof.
  induction targets as [|t ts IH]; cbn; [constructor|].
  by apply insert_sorted_sorted.
Qed.

Lemma np_unique_NoDup (targets : list Z) : NoDup (Dataset.np_unique targets).
Proof.
  pose proof (np_unique_sorted targets) as H.
  induction H as [|y l Hl IH Hy]; constructor; [|done].
  intros Hin. pose proof (proj1 (Forall_forall _ _) Hy y Hin). lia.
Qed.

Lemma np_unique_nil (targets : list Z) :
  Dataset.np_unique targets = [] -> targets = [].
Proof.
  destruct targets as [|t ts]; [done|].
  change (Dataset.np_unique (t :: ts))
    with (Dataset.insert_sorted t (Dataset.np_unique ts)).
  intros H.
  assert (Ht : t ∈ Dataset.insert_sorted t (Dataset.np_unique ts))
    by (apply insert_sorted_elem; by left).
  rewrite H in Ht. by apply elem_of_nil in Ht.
Qed.

Lemma where_from_spec (k : nat) (targets : list Z) (c : Z) :
  length (Dataset.where_from k targets c)
  = length (List.filter (fun t => t =? c) targets)
  /\ Forall (fun i => (i < k + length targets)%nat)
            (Dataset.where_from k targets c).
Proof.
  revert k. induction targets as [|t ts IH]; intros k; cbn; [by split|].
  destruct (IH (S k)) as [Hlen Hall].
  assert (Hall' : Forall (fun i => (i < k + S (length ts))%nat)
                         (Dataset.where_from (S k) ts c)).
  { eapply Forall_impl; [exact Hall|]. cbn. lia. }
  destruct (t =? c); cbn; [|done].
  split; [by rewrite Hlen|]. constructor; [lia|done].
Qed.

Lemma dict_sum_insert (m : gmap Z Z) (c n : Z) :
  m !! c = None ->
  Dataset.dict_sum (<[c := n]> m) = n + Dataset.dict_sum m.
Proof.
  intros Hc. unfold Dataset.dict_sum.
  rewrite map_fold_insert_L; [done| |done].
  intros. lia.
Qed.

Section ConstructionFacts.
Context {Img RNG : Type}.
Variable shuffle : RNG -> list nat -> list nat * RNG.
Hypothesis shuffle_perm : forall g l, (shuffle g l).1 ≡ₚ l.
Implicit Types (s : @Dataset.M2M_SVHN_LT Img RNG) (pairs : list (Z * Z)).

Lemma fancy_index_from (data : list Img) (selec_idx : list nat)
    (acc : list Img) :
  Forall (fun i => (i < length data)%nat) selec_idx ->
  exists rows,
    for_each (fun rows i => match data !! i with
                            | Some row => Ok (rows ++ [row])
                            | None => Raise IndexError
                            end) acc selec_idx = Ok (acc ++ rows)
    /\ length rows = length selec_idx.
Proof.
  revert acc. induction selec_idx as [|i idx IH]; intros acc Hall.
  - exists []. by rewrite app_nil_r.
  - apply Forall_cons in Hall as [Hi Hall]. cbn [for_each].
    destruct (lookup_lt_is_Some_2 data i Hi) as [row ->].
    destruct (IH (acc ++ [row]) Hall) as (rows & -> & Hlen).
    exists (row :: rows). rewrite <- app_assoc. split; [done|].
    cbn. by rewrite Hlen.
Qed.

Lemma fancy_index_ok (data : list Img) (selec_idx : list nat) :
  Forall (fun i => (i < length data)%nat) selec_idx ->
  exists rows, Dataset.fancy_index data selec_idx = Ok rows
               /\ length rows = length selec_idx.
Proof. intros Hall. by apply (fancy_index_from data selec_idx []). Qed.

(** One class: the count is recorded, the class's positions are shuffled
    and cut to the count, and as many rows as labels are appended. *)
Lemma gen_body_ok (targets_np : list Z) (new_data : list (list Img))
    (new_targets : list Z) (c n : Z) s :
  length (Dataset.data s) = length targets_np ->
  0 <= n <= Dataset.class_count targets_np c ->
  exists rows g,
    Dataset.gen_body shuffle targets_np (new_data, new_targets) (c, n) s
    = (Ok (new_data ++ [rows], new_targets ++ replicate (Z.to_nat n) c),
       Dataset.set_np_random g
         (Dataset.set_num_per_cls_dict <[c := n]> s))
    /\ length rows = Z.to_nat n.
Proof using shuffle_perm.
  intros Hlen Hn.
  unfold Dataset.gen_body, mbind, method_bind, modify, get, lift, mret,
    method_ret.
  pose proof (shuffle_perm (Dataset.np_random s)
                (Dataset.np_where_eq targets_np c)) as Hperm.
  cbn [Dataset.set_num_per_cls_dict Dataset.np_random Dataset.data].
  destruct (shuffle _ _) as [idx g]. cbn [fst] in Hperm.
  destruct (where_from_spec 0 targets_np c) as [Hcount Hbound].
  assert (Hsel : Forall (fun i => (i < length (Dataset.data s))%nat)
                        (slice_to idx n)).
  { unfold slice_to. rewrite decide_True by lia. apply Forall_take.
    rewrite Hperm, Hlen. exact Hbound. }
  destruct (fancy_index_ok _ _ Hsel) as (rows & -> & Hrows).
  exists rows, g. split; [done|].
  rewrite Hrows. unfold slice_to. rewrite decide_True by lia.
  rewrite length_take, Hperm. unfold Dataset.np_where_eq. rewrite Hcount.
  unfold Dataset.class_count in Hn. lia.
Qed.

Lemma gen_loop_ok (targets_np : list Z) pairs :
  forall (new_data : list (list Img)) (new_targets : list Z) s,
  length (Dataset.data s) = length targets_np ->
  Forall (fun p => 0 <= p.2 <= Dataset.class_count targets_np p.1) pairs ->
  NoDup pairs.*1 ->
  (forall c, c ∈ pairs.*1 -> Dataset.num_per_cls_dict s !! c = None) ->
  exists new_data' new_targets' s',
    for_loop (Dataset.gen_body shuffle targets_np) (new_data, new_targets)
             pairs s
    = (Ok (new_data', new_targets'), s')
    /\ Z.of_nat (length (concat new_data'))
       = Z.of_nat (length (concat new_data)) + Dataset.total_count pairs
    /\ Z.of_nat (length new_targets')
       = Z.of_nat (length new_targets) + Dataset.total_count pairs
    /\ Dataset.dict_sum (Dataset.num_per_cls_dict s')
       = Dataset.dict_sum (Dataset.num_per_cls_dict s) + Dataset.total_count pairs
    /\ length new_data' = (length new_data + length pairs)%nat.
Proof using shuffle_perm.
  induction pairs as [|[c n] pairs IH];
    intros new_data new_targets s Hlen Hall Hnd Hfresh.
  - exists new_data, new_targets, s. cbn. split_and!; [done|lia..].
  - apply Forall_cons in Hall as [Hn Hall]. cbn [fst snd] in Hn.
    apply NoDup_cons in Hnd as [Hc Hnd].
    destruct (gen_body_ok targets_np new_data new_targets c n s Hlen Hn)
      as (rows & g & Hbody & Hrows).
    cbn [for_loop]. unfold mbind at 1, method_bind at 1. rewrite Hbody.
    destruct (IH (new_data ++ [rows])
                 (new_targets ++ replicate (Z.to_nat n) c)
                 (Dataset.set_np_random g
                    (Dataset.set_num_per_cls_dict <[c := n]> s)))
      as (nd' & nt' & s' & -> & Hd & Ht & Hsum & Hne);
      [exact Hlen|exact Hall|exact Hnd| |].
    { intros c' Hc'. cbn. rewrite lookup_insert_ne by (by intros ->).
      apply Hfresh. by right. }
    exists nd', nt', s'. split; [done|].
    cbn [Dataset.total_count foldr snd] in *. fold (Dataset.total_count pairs) in *.
    rewrite concat_app, !length_app, length_replicate in *.
    cbn [concat length] in Hd. rewrite app_nil_r in Hd.
    cbn [Dataset.set_np_random Dataset.set_num_per_cls_dict
         Dataset.num_per_cls_dict] in Hsum.
    rewrite dict_sum_insert in Hsum by (apply Hfresh; by left).
    cbn [length] in *. split_and!; lia.
Qed.
End ConstructionFacts.

Lemma NoDup_zip_fst {A B : Type} (l : list A) (k : list B) :
  NoDup l -> NoDup (zip l k).*1.
Proof.
  revert k. induction l as [|x l IH]; intros k Hl; [constructor|].
  apply NoDup_cons in Hl as [Hx Hl].
  destruct k as [|y k]; cbn; [constructor|].
  apply NoDup_cons. split; [|by apply IH].
  intros Hin. apply Hx. clear -Hin.
  revert k Hin. induction l as [|z l IH']; intros [|y' k] Hin; cbn in *;
    try by apply elem_of_nil in Hin.
  apply elem_of_cons in Hin as [->|Hin]; [by left|]. right. by eapply IH'.
Qed.

Lemma zip_nil_inv {A B : Type} (l : list A) (k : list B) :
  zip l k = [] -> l = [] \/ k = [].
Proof. destruct l, k; cbn; by auto. Qed.

(** C8. After a successful [gen_imbalanced_data], whatever the target counts
    (hence for every [imb_type]), as long as each class's target count is
    between 0 and the number of samples of that class,
    [sum(num_per_cls_dict.values()) == len(labels) == data.shape[0]].  The
    construction does succeed unless there is no class or no target count,
    when [np.vstack] raises a [ValueError]. *)
Theorem gen_imbalanced_data_invariant {Img RNG : Type}
    (shuffle : RNG -> list nat -> list nat * RNG)
    (img_num_per_cls : list Z) (s : @Dataset.M2M_SVHN_LT Img RNG) :
  (forall g l, (shuffle g l).1 ≡ₚ l) ->
  length (Dataset.data s) = length (Dataset.labels s) ->
  Forall (fun p => 0 <= p.2 <= Dataset.class_count (Dataset.labels s) p.1)
         (zip (Dataset.np_unique (Dataset.labels s)) img_num_per_cls) ->
  match Dataset.gen_imbalanced_data shuffle img_num_per_cls s with
  | (Ok _, s') =>
      Dataset.dict_sum (Dataset.num_per_cls_dict s')
      = Z.of_nat (length (Dataset.labels s'))
      /\ length (Dataset.labels s') = length (Dataset.data s')
  | (Raise e, _) =>
      e = ValueError "need at least one array to concatenate"
      /\ (Dataset.labels s = [] \/ img_num_per_cls = [])
  end.
Proof.
  intros Hperm Hlen Hall.
  unfold Dataset.gen_imbalanced_data.
  unfold mbind at 1 2, method_bind at 1 2, get, modify.
  destruct (gen_loop_ok shuffle Hperm (Dataset.labels s)
              (zip (Dataset.np_unique (Dataset.labels s)) img_num_per_cls)
              [] [] (Dataset.set_num_per_cls_dict (fun _ => ∅) s))
    as (nd & nt & s1 & Hloop & Hd & Ht & Hsum & Hnd); [done|done| | |].
  { apply NoDup_zip_fst, np_unique_NoDup. }
  { intros c _. apply lookup_empty. }
  unfold mbind at 1, method_bind at 1. rewrite Hloop.
  unfold mbind, method_bind, lift, modify, mret, method_ret, raise.
  cbn [length concat Dataset.set_num_per_cls_dict Dataset.num_per_cls_dict]
    in Hd, Ht, Hsum, Hnd.
  unfold Dataset.dict_sum in Hsum at 2. rewrite map_fold_empty in Hsum.
  destruct nd as [|rows nd].
  - cbn. split; [done|].
    destruct (zip_nil_inv _ _ (nil_length_inv _ (eq_sym Hnd)))
      as [Hu%np_unique_nil|Hc]; auto.
  - cbn [Dataset.np_vstack].
    rewrite decide_True by lia.
    cbn [Dataset.set_data_labels Dataset.num_per_cls_dict Dataset.labels
         Dataset.data].
    split; lia.
Qed.

Lemma gen_imbalanced_data_invariant_witness :
  match Dataset.gen_imbalanced_data Examples.rev_shuffle [2; 1] Examples.svhn
  with
  | (Ok _, s') =>
      Dataset.dict_sum (Dataset.num_per_cls_dict s')
      = Z.of_nat (length (Dataset.labels s'))
      /\ length (Dataset.labels s') = length (Dataset.data s')
  | (Raise e, _) =>
      e = ValueError "need at least one array to concatenate"
      /\ (Dataset.labels Examples.svhn = [] \/ [2; 1] = @nil Z)
  end.
Proof.
  apply (gen_imbalanced_data_invariant Examples.rev_shuffle [2; 1]
           Examples.svhn).
  - intros g l. symmetry. apply Permutation_rev.
  - reflexivity.
  - change (zip _ _) with [(0, 2); (1, 1)].
    repeat apply Forall_cons_2; [..|apply Forall_nil_2];
      unfold Dataset.class_count; cbn; lia.
Defined.

(** ** Target counts per class, over exact reals *)

Lemma Int_part_le (x y : R) : (x <= y)%R -> Int_part x <= Int_part y.
Proof.
  intros Hxy.
  destruct (base_Int_part x) as [Hx _]. destruct (base_Int_part y) as [_ Hy].
  apply Z.lt_succ_r, lt_IZR. rewrite succ_IZR. lra.
Qed.

Lemma Int_part_IZR (z : Z) : Int_part (IZR z) = z.
Proof. symmetry. apply Int_part_spec. lra. Qed.

Lemma py_int_floor (x : R) : (0 <= x)%R -> Dataset.py_int x = Int_part x.
Proof. intros Hx. unfold Dataset.py_int. by destruct (Rle_dec 0 x). Qed.

Lemma append_times_replicate {A : Type} (n : nat) (x : A) (l : list A) :
  Dataset.append_times n x l = l ++ replicate n x.
Proof.
  unfold Dataset.append_times. generalize 0%nat. revert l.
  induction n as [|n IH]; intros l k; cbn; [by rewrite app_nil_r|].
  rewrite IH. by rewrite <- app_assoc.
Qed.

(** A loop that appends one value per index builds the [map]. *)
Lemma for_each_append {A B : Type} (body : list B -> A -> result (list B))
    (g : A -> B) (l : list A) (acc : list B) :
  (forall acc x, x ∈ l -> body acc x = Ok (acc ++ [g x])) ->
  for_each body acc l = Ok (acc ++ map g l).
Proof.
  revert acc. induction l as [|x l IH]; intros acc Hbody; cbn.
  - by rewrite app_nil_r.
  - rewrite Hbody by (by left). rewrite IH by (intros; apply Hbody; by right).
    by rewrite <- app_assoc.
Qed.

Lemma Rpower_antitone (f x y : R) :
  (0 < f <= 1)%R -> (x <= y)%R -> (Rpower f y <= Rpower f x)%R.
Proof.
  intros [Hf0 Hf1] Hxy. unfold Rpower.
  assert (Hln : (ln f <= 0)%R).
  { rewrite <- ln_1. destruct Hf1 as [Hlt| ->]; [|lra].
    left. by apply ln_increasing. }
  destruct (Rle_lt_or_eq_dec _ _ Hxy) as [Hlt| ->]; [|lra].
  destruct Hln as [Hneg|Hz].
  - left. apply exp_increasing. nra.
  - rewrite Hz, !Rmult_0_r. lra.
Qed.

Lemma INR_minus_1_pos (cls_num : nat) :
  (2 <= cls_num)%nat -> (0 < INR cls_num - 1)%R.
Proof.
  intros H. apply le_INR in H. change (INR 2) with 2%R in H. lra.
Qed.

Lemma get_img_num_per_cls_exp (cls_num : nat) (f : R) :
  (2 <= cls_num)%nat -> (0 < f)%R ->
  Dataset.get_img_num_per_cls cls_num "exp" f
  = Ok (map (Dataset.exp_count cls_num f) (seq 0 cls_num)).
Proof.
  intros Hn Hf. unfold Dataset.get_img_num_per_cls.
  change (String.eqb "exp" "exp") with true. cbv iota.
  rewrite (for_each_append _ (Dataset.exp_count cls_num f)); [done|].
  intros acc c _. unfold Dataset.float_div, Dataset.float_pow.
  pose proof (INR_minus_1_pos cls_num Hn) as Hpos.
  destruct (Req_dec_T (INR cls_num - 1) 0) as [Hz|_]; [lra|].
  simpl_result. destruct (Rlt_dec 0 f) as [_|?]; [|done]. simpl_result.
  rewrite py_int_floor; [done|].
  pose proof (exp_pos (INR c / (INR cls_num - 1) * ln f)) as He.
  unfold Rpower. lra.
Qed.


(** ** Binary64 arithmetic *)

Lemma digits2_log2 (p : positive) :
  Z.pos (digits2_pos p) = Z.log2 (Z.pos p) + 1.
Proof.
  assert (Hsize : forall q, digits2_pos q = Pos.size q).
  { induction q as [q IH|q IH|]; cbn; by rewrite ?IH. }
  destruct p as [p|p|]; cbn [digits2_pos Z.log2]; rewrite ?Hsize; lia.
Qed.












Lemma shr_1_m (mrs : shr_record) :
  0 <= shr_m mrs -> shr_m (shr_1 mrs) = shr_m mrs / 2.
Proof.
  destruct mrs as [m r s]. cbn [shr_m]. intros Hm.
  destruct m as [|[q|q|]|q]; cbn [shr_1 shr_m]; try done; try lia.
  - rewrite Pos2Z.inj_xI. apply (Z.div_unique _ _ _ 1); lia.
  - rewrite Pos2Z.inj_xO. apply (Z.div_unique _ _ _ 0); lia.
Qed.

Lemma iter_shr_m (p : positive) :
  forall mrs, 0 <= shr_m mrs ->
  shr_m (SpecFloat.iter_pos shr_1 p mrs) = shr_m mrs / 2 ^ Z.pos p.
Proof.
  assert (Hhalf : forall mrs, 0 <= shr_m mrs -> 0 <= shr_m (shr_1 mrs)).
  { intros mrs Hm. rewrite shr_1_m by done. by apply Z.div_pos. }
  induction p as [p IH|p IH|]; intros mrs Hm; cbn [SpecFloat.iter_pos].
  - rewrite IH, IH, shr_1_m; try done.
    + rewrite !Z.div_div by lia. f_equal.
      replace (Z.pos p~1) with (1 + Z.pos p + Z.pos p) by lia.
      rewrite !Z.pow_add_r by lia. change (2 ^ 1) with 2. ring.
    + by apply Hhalf.
    + rewrite IH by (by apply Hhalf). apply Z.div_pos; [by apply Hhalf|lia].
  - rewrite IH, IH; try done.
    + rewrite Z.div_div by lia. f_equal.
      replace (Z.pos p~0) with (Z.pos p + Z.pos p) by lia.
      by rewrite Z.pow_add_r by lia.
    + rewrite IH by done. apply Z.div_pos; [done|lia].
  - by rewrite shr_1_m.
Qed.

Lemma shr_spec (mrs : shr_record) (e n : Z) :
  0 <= shr_m mrs ->
  shr_m (shr mrs e n).1 = shr_m mrs / 2 ^ Z.max n 0
  /\ (shr mrs e n).2 = e + Z.max n 0.
Proof.
  intros Hm. unfold shr. destruct n as [|p|p]; cbn [fst snd].
  - change (2 ^ Z.max 0 0) with 1. rewrite Z.div_1_r. lia.
  - replace (Z.max (Z.pos p) 0) with (Z.pos p) by lia.
    by rewrite iter_shr_m.
  - replace (Z.max (Z.neg p) 0) with 0 by lia.
    change (2 ^ 0) with 1. rewrite Z.div_1_r. lia.
Qed.

Lemma round_nearest_even_bounds (m : Z) (l : location) :
  m <= round_nearest_even m l <= m + 1.
Proof. destruct l as [|[]]; cbn; try destruct (Z.even m); lia. Qed.

Lemma Zdigits2_shifted (mx : positive) (k m1 : Z) :
  0 <= k -> 0 <= m1 <= Z.pos mx / 2 ^ k + 1 ->
  Zdigits2 m1 <= Z.max 0 (Z.log2 (Z.pos mx) - k) + 2.
Proof.
  intros Hk Hm1. destruct m1 as [|m1|m1]; [cbn; lia| |lia].
  cbn [Zdigits2]. rewrite digits2_log2.
  assert (Z.log2 (Z.pos m1) <= Z.max 0 (Z.log2 (Z.pos mx) - k) + 1); [|lia].
  etransitivity; [apply Z.log2_le_mono, (proj2 Hm1)|].
  etransitivity; [apply Z.log2_succ_le|].
  rewrite <- Z.shiftr_div_pow2 by done.
  rewrite Z.log2_shiftr by lia. lia.
Qed.

(** Rounding an exact product that is not too large: the result is a zero
    or a finite float of the same sign. *)
Lemma round_aux_finite (s : bool) (mx : positive) (ex : Z) :
  ex <= 971 -> Z.pos (digits2_pos mx) + ex <= 1023 ->
  binary_round_aux Binary64.prec Binary64.emax s (Z.pos mx) ex loc_Exact
  = S754_zero s
  \/ exists m e,
       binary_round_aux Binary64.prec Binary64.emax s (Z.pos mx) ex loc_Exact
       = S754_finite s m e.
Proof.
  intros Hex Hdx. unfold binary_round_aux, shr_fexp. cbn [Zdigits2].
  set (n1 := fexp Binary64.prec Binary64.emax (Z.pos (digits2_pos mx) + ex)
             - ex).
  destruct (shr_spec (shr_record_of_loc (Z.pos mx) loc_Exact) ex n1
              ltac:(cbn; lia)) as [Hm1 He1].
  destruct (shr _ ex n1) as [mrs' e']. cbn [fst snd] in Hm1, He1.
  cbn [shr_record_of_loc shr_m] in Hm1.
  pose proof (round_nearest_even_bounds (shr_m mrs')
                (loc_of_shr_record mrs')) as Hr.
  set (m1 := round_nearest_even _ _) in *.
  assert (Hq : 0 <= Z.pos mx / 2 ^ Z.max n1 0)
    by (apply Z.div_pos; [lia|apply Z.pow_pos_nonneg; lia]).
  assert (Hm1' : 0 <= m1) by lia.
  set (n2 := fexp Binary64.prec Binary64.emax (Zdigits2 m1 + e') - e').
  destruct (shr_spec (shr_record_of_loc m1 loc_Exact) e' n2
              ltac:(cbn; lia)) as [Hm2 He2].
  destruct (shr _ e' n2) as [mrs'' e'']. cbn [fst snd] in Hm2, He2.
  cbn [shr_record_of_loc shr_m] in Hm2.
  assert (Hm2' : 0 <= shr_m mrs'').
  { rewrite Hm2. apply Z.div_pos; [done|apply Z.pow_pos_nonneg; lia]. }
  destruct (shr_m mrs'') as [|m|m]; [by left| |lia].
  right. exists m, e''.
  pose proof (Zdigits2_shifted mx (Z.max n1 0) m1 ltac:(lia) ltac:(lia))
    as Hd1.
  pose proof (digits2_log2 mx) as Hlog.
  assert (Hle : e'' <= 971).
  { subst e'' e'. unfold n2, n1, fexp, emin, Binary64.prec, Binary64.emax
      in *. lia. }
  unfold Binary64.emax, Binary64.prec.
  change (1024 - 53) with 971.
  by rewrite (proj2 (Z.leb_le _ _) Hle).
Qed.

Lemma Qfloor_pow2 (m k : positive) :
  Qfloor (Z.pos m # 2 ^ k) = Z.pos m / 2 ^ Z.pos k.
Proof. cbn [Qfloor]. by rewrite Pos2Z.inj_pow. Qed.

(** [int] of a float that is not negative is its floor. *)
Lemma float_int_floor (x : Binary64.float) :
  (x = S754_zero false \/ x = S754_zero true
   \/ exists m e, x = S754_finite false m e) ->
  exists k, Binary64.py_int x = Ok k /\ Binary64.floor x = Some k /\ 0 <= k.
Proof.
  intros [->|[->|(m & e & ->)]]; [by exists 0..|].
  unfold Binary64.py_int, Binary64.floor, Binary64.value. cbn [cond_Zopp].
  destruct e as [|e|e]; eexists; (split; [reflexivity|]); cbn [fmap option_fmap option_map].
  - rewrite Qfloor_Z. split; [done|lia].
  - rewrite Qfloor_Z. split; [done|]. pose proof (Z.pow_pos_nonneg 2 (Z.pos e)). lia.
  - rewrite Qfloor_pow2. split; [done|].
    apply Z.div_pos; [lia|]. apply Z.pow_pos_nonneg; lia.
Qed.

Lemma in_unit_cases (p : Binary64.float) :
  Binary64.in_unit p ->
  (exists s, p = S754_zero s)
  \/ exists m e, p = S754_finite false m e
                 /\ e <= -52 /\ Z.pos (digits2_pos m) <= 53.
Proof.
  intros (Hv & H0 & H1). destruct p as [s|s| |s m e].
  - left. by exists s.
  - destruct s; cbn in H0, H1; done.
  - done.
  - right. destruct s; [done|]. exists m, e. split; [done|].
    unfold Binary64.is_float, valid_binary, bounded, canonical_mantissa in Hv.
    apply andb_prop in Hv as [Hc _]. apply Z.eqb_eq in Hc.
    unfold fexp, emin, Binary64.prec, Binary64.emax in Hc.
    unfold SFleb, SFcompare, Binary64.one in H1.
    destruct (Z.compare_spec e (-52)) as [He|He|He]; [lia|lia|done].
Qed.

(** [img_max * p] for [0 <= p <= 1]: no overflow, and [int] is the floor. *)
Lemma mul_thousand (p : Binary64.float) :
  Binary64.in_unit p ->
  exists k, Binary64.py_int (Binary64.fmul Binary64.thousand p) = Ok k
            /\ Binary64.floor (Binary64.fmul Binary64.thousand p) = Some k
            /\ 0 <= k.
Proof.
  intros Hp. apply float_int_floor.
  destruct (in_unit_cases p Hp) as [[s ->]|(m & e & -> & He & Hd)].
  - destruct s; auto.
  - unfold Binary64.fmul, Binary64.thousand, SFmul. cbn [xorb].
    destruct (round_aux_finite false (8796093022208000 * m) (-43 + e))
      as [->|(m' & e' & ->)]; [lia| |by auto|by eauto].
    rewrite digits2_log2 in *. 
    pose proof (Z.log2_mul_above 8796093022208000 (Z.pos m)
                  ltac:(lia) ltac:(lia)) as Hmul.
    change (Z.log2 8796093022208000) with 52 in Hmul.
    rewrite Pos2Z.inj_mul. lia.
Qed.

(** ** Rounding to nearest, on integers *)

Lemma rne_mono (M M' n : Z) :
  0 <= n -> M <= M' -> Binary64.rne M n <= Binary64.rne M' n.
Proof.
  intros Hn Hle.
  assert (Hp : 0 < 2 ^ n) by (apply Z.pow_pos_nonneg; lia).
  pose proof (Z.div_le_mono M M' (2 ^ n) Hp Hle) as Hq.
  pose proof (Z.div_mod M (2 ^ n) ltac:(lia)) as HM.
  pose proof (Z.div_mod M' (2 ^ n) ltac:(lia)) as HM'.
  pose proof (Z.mod_pos_bound M (2 ^ n) Hp) as Hr.
  pose proof (Z.mod_pos_bound M' (2 ^ n) Hp) as Hr'.
  unfold Binary64.rne.
  destruct (Z.eq_dec (M / 2 ^ n) (M' / 2 ^ n)) as [Heq|Hne].
  - rewrite <- Heq in *.
    assert (M mod 2 ^ n <= M' mod 2 ^ n) by lia.
    destruct (Z.ltb_spec (2 * (M mod 2 ^ n)) (2 ^ n)),
             (Z.ltb_spec (2 * (M' mod 2 ^ n)) (2 ^ n)),
             (Z.eqb_spec (2 * (M mod 2 ^ n)) (2 ^ n)),
             (Z.eqb_spec (2 * (M' mod 2 ^ n)) (2 ^ n)),
             (Z.even (M / 2 ^ n)); lia.
  - destruct (Z.ltb_spec (2 * (M mod 2 ^ n)) (2 ^ n)),
             (Z.ltb_spec (2 * (M' mod 2 ^ n)) (2 ^ n)),
             (Z.eqb_spec (2 * (M mod 2 ^ n)) (2 ^ n)),
             (Z.eqb_spec (2 * (M' mod 2 ^ n)) (2 ^ n)),
             (Z.even (M / 2 ^ n)), (Z.even (M' / 2 ^ n)); lia.
Qed.

Lemma rne_exact (c n : Z) : 0 <= n -> Binary64.rne (c * 2 ^ n) n = c.
Proof.
  intros Hn.
  assert (Hp : 0 < 2 ^ n) by (apply Z.pow_pos_nonneg; lia).
  unfold Binary64.rne. rewrite Z.div_mul, Z.mod_mul by lia.
  by destruct (Z.ltb_spec (2 * 0) (2 ^ n)); [|lia].
Qed.

Lemma rne_le_grid (M c n : Z) : 0 <= n -> M <= c * 2 ^ n -> Binary64.rne M n <= c.
Proof.
  intros Hn Hle. rewrite <- (rne_exact c n Hn). by apply rne_mono.
Qed.

Lemma rne_ge_grid (M c n : Z) : 0 <= n -> c * 2 ^ n <= M -> c <= Binary64.rne M n.
Proof.
  intros Hn Hle. rewrite <- (rne_exact c n Hn). by apply rne_mono.
Qed.

Lemma rne_scale (M n k : Z) :
  0 <= n -> 0 <= k -> Binary64.rne (M * 2 ^ k) (n + k) = Binary64.rne M n.
Proof.
  intros Hn Hk.
  assert (Hp : 0 < 2 ^ n) by (apply Z.pow_pos_nonneg; lia).
  assert (Hpk : 0 < 2 ^ k) by (apply Z.pow_pos_nonneg; lia).
  unfold Binary64.rne. rewrite Z.pow_add_r by done.
  rewrite Z.div_mul_cancel_r by lia.
  rewrite Z.mul_mod_distr_r by lia.
  set (q := M / 2 ^ n). set (r := M mod 2 ^ n).
  destruct (Z.ltb_spec (2 * (r * 2 ^ k)) (2 ^ n * 2 ^ k)),
           (Z.ltb_spec (2 * r) (2 ^ n)); try nia.
  destruct (Z.eqb_spec (2 * (r * 2 ^ k)) (2 ^ n * 2 ^ k)),
           (Z.eqb_spec (2 * r) (2 ^ n)); try nia; done.
Qed.

Lemma rne_zero (M : Z) : Binary64.rne M 0 = M.
Proof. rewrite <- (Z.mul_1_r M) at 1. change 1 with (2 ^ 0). by apply rne_exact. Qed.

Lemma grid_pos (X : Z) : 0 <= Binary64.grid X.
Proof. unfold Binary64.grid. lia. Qed.

(** Rounding never reverses the order of two numbers. *)
Lemma rounded_mono (X X' : Z) : 0 < X <= X' -> Binary64.rounded X <= Binary64.rounded X'.
Proof.
  intros [HX Hle]. unfold Binary64.rounded.
  pose proof (Z.log2_le_mono X X' Hle) as HL.
  pose proof (Z.log2_spec X HX) as [_ Hup].
  pose proof (Z.log2_spec X' ltac:(lia)) as [Hlow' _].
  pose proof (Z.log2_nonneg X) as HL0.
  destruct (Z.eq_dec (Binary64.grid X) (Binary64.grid X')) as [Heq|Hne].
  - rewrite <- Heq. apply Z.mul_le_mono_nonneg_r.
    + apply Z.pow_nonneg. lia.
    + apply rne_mono; [apply grid_pos|done].
  - set (L := Z.log2 X) in *. set (L' := Z.log2 X') in *.
    assert (HN : Binary64.grid X < Binary64.grid X') by (unfold Binary64.grid in *; lia).
    assert (HN' : Binary64.grid X' = L' - 52) by (unfold Binary64.grid in *; lia).
    assert (HLL : L + 1 <= L') by (unfold Binary64.grid in *; lia).
    set (N := Binary64.grid X) in *. set (N' := Binary64.grid X') in *.
    assert (HN0 : 0 <= N) by apply grid_pos.
    transitivity (2 ^ L').
    + set (K := Z.max (L + 1) N).
      transitivity (2 ^ K); [|apply Z.pow_le_mono_r; lia].
      replace K with ((K - N) + N) by lia.
      rewrite Z.pow_add_r by lia.
      apply Z.mul_le_mono_nonneg_r; [apply Z.pow_nonneg; lia|].
      apply rne_le_grid; [done|].
      rewrite <- Z.pow_add_r by lia. replace (K - N + N) with K by lia.
      transitivity (2 ^ Z.succ L); [lia|]. apply Z.pow_le_mono_r; lia.
    + replace L' with (52 + N') at 1 by lia.
      rewrite Z.pow_add_r by lia.
      apply Z.mul_le_mono_nonneg_r; [apply Z.pow_nonneg; lia|].
      apply rne_ge_grid; [lia|].
      rewrite <- Z.pow_add_r by lia. by replace (52 + N') with L' by lia.
Qed.

(** ** The shift of [SpecFloat] and the rounding it prepares *)

Lemma shr_1_bits (mrs : shr_record) :
  0 <= shr_m mrs ->
  shr_r (shr_1 mrs) = Z.odd (shr_m mrs)
  /\ shr_s (shr_1 mrs) = shr_r mrs || shr_s mrs.
Proof.
  destruct mrs as [m r s]. cbn [shr_m shr_r shr_s]. intros Hm.
  by destruct m as [|[q|q|]|q]; cbn; try lia.
Qed.

Lemma mod_pow2_succ (M k : Z) :
  0 <= k ->
  M mod 2 ^ (k + 1) = M mod 2 ^ k + 2 ^ k * Z.b2z (Z.testbit M k).
Proof.
  intros Hk. rewrite Z.testbit_spec' by done.
  rewrite Z.pow_add_r by lia. change (2 ^ 1) with 2.
  apply Z.rem_mul_r; [|lia].
  pose proof (Z.pow_pos_nonneg 2 k). lia.
Qed.

Lemma tracks_start (M : Z) : Binary64.tracks M 0 (shr_record_of_loc M loc_Exact).
Proof.
  unfold Binary64.tracks. cbn [shr_record_of_loc shr_m shr_r shr_s].
  change (2 ^ 0) with 1. rewrite Z.div_1_r, Z.mod_1_r.
  by rewrite Z.testbit_neg_r by lia.
Qed.

Lemma tracks_shr_1 (M k : Z) (mrs : shr_record) :
  0 <= M -> 0 <= k -> Binary64.tracks M k mrs -> Binary64.tracks M (k + 1) (shr_1 mrs).
Proof.
  intros HM Hk (Hm & Hr & Hs).
  assert (Hp : 0 < 2 ^ k) by (apply Z.pow_pos_nonneg; lia).
  assert (Hm0 : 0 <= shr_m mrs) by (rewrite Hm; apply Z.div_pos; lia).
  destruct (shr_1_bits mrs Hm0) as [Hr1 Hs1].
  unfold Binary64.tracks. split_and!.
  - rewrite shr_1_m, Hm by done.
    rewrite Z.pow_add_r by lia. change (2 ^ 1) with 2.
    by rewrite Z.div_div by lia.
  - rewrite Hr1, Hm. replace (k + 1 - 1) with k by lia.
    by rewrite Z.testbit_odd, Z.shiftr_div_pow2.
  - rewrite Hs1, Hr, Hs. replace (Z.max (k + 1 - 1) 0) with k by lia.
    destruct (Z.eq_dec k 0) as [->|Hk0].
    + change (2 ^ Z.max (0 - 1) 0) with 1. change (2 ^ 0) with 1.
      rewrite Z.mod_1_r. by rewrite Z.testbit_neg_r by lia.
    + replace (Z.max (k - 1) 0) with (k - 1) by lia.
      replace k with (k - 1 + 1) at 3 by lia.
      rewrite mod_pow2_succ by lia.
      pose proof (Z.mod_pos_bound M (2 ^ (k - 1))
                    ltac:(apply Z.pow_pos_nonneg; lia)) as Hb.
      pose proof (Z.pow_pos_nonneg 2 (k - 1) ltac:(lia) ltac:(lia)) as Hp1.
      destruct (Z.testbit M (k - 1)); cbn [Z.b2z orb].
      * symmetry. apply negb_true_iff, Z.eqb_neq. lia.
      * by rewrite Z.mul_0_r, Z.add_0_r.
Qed.

Lemma tracks_iter (M : Z) (p : positive) :
  0 <= M ->
  forall k mrs, 0 <= k -> Binary64.tracks M k mrs ->
  Binary64.tracks M (k + Z.pos p) (SpecFloat.iter_pos shr_1 p mrs).
Proof.
  intros HM. induction p as [p IH|p IH|]; intros k mrs Hk Ht;
    cbn [SpecFloat.iter_pos].
  - replace (k + Z.pos p~1) with (k + 1 + Z.pos p + Z.pos p) by lia.
    apply IH; [lia|]. apply IH; [lia|]. by apply tracks_shr_1.
  - replace (k + Z.pos p~0) with (k + Z.pos p + Z.pos p) by lia.
    apply IH; [lia|]. by apply IH.
  - by apply tracks_shr_1.
Qed.

Lemma tracks_shr (M e n : Z) :
  0 <= M ->
  Binary64.tracks M (Z.max n 0) (shr (shr_record_of_loc M loc_Exact) e n).1
  /\ (shr (shr_record_of_loc M loc_Exact) e n).2 = e + Z.max n 0.
Proof.
  intros HM. unfold shr. destruct n as [|p|p]; cbn [fst snd].
  - split; [apply tracks_start|lia].
  - split; [|lia]. replace (Z.max (Z.pos p) 0) with (0 + Z.pos p) by lia.
    apply tracks_iter; [done..|apply tracks_start].
  - split; [apply tracks_start|lia].
Qed.

(** What [round_nearest_even] makes of a shifted mantissa. *)
Lemma tracks_round (M n : Z) (mrs : shr_record) :
  0 <= M -> 0 <= n -> Binary64.tracks M n mrs ->
  round_nearest_even (shr_m mrs) (loc_of_shr_record mrs) = Binary64.rne M n.
Proof.
  intros HM Hn (Hm & Hr & Hs). destruct mrs as [m r s].
  cbn [shr_m shr_r shr_s] in *. subst m.
  destruct (Z.eq_dec n 0) as [->|Hn0].
  - rewrite Z.testbit_neg_r in Hr by lia.
    change (2 ^ Z.max (0 - 1) 0) with 1 in Hs. rewrite Z.mod_1_r in Hs.
    subst r s. cbn. change (2 ^ 0) with 1. rewrite Z.div_1_r.
    by rewrite rne_zero.
  - replace (Z.max (n - 1) 0) with (n - 1) in Hs by lia.
    pose proof (mod_pow2_succ M (n - 1) ltac:(lia)) as Hmod.
    replace (n - 1 + 1) with n in Hmod by lia.
    pose proof (Z.mod_pos_bound M (2 ^ (n - 1))
                  ltac:(apply Z.pow_pos_nonneg; lia)) as Hb.
    assert (Hpow : 2 ^ n = 2 * 2 ^ (n - 1)).
    { replace n with (1 + (n - 1)) at 1 by lia.
      by rewrite Z.pow_add_r by lia. }
    unfold Binary64.rne. rewrite Hmod.
    destruct r, s; rewrite <- Hr in *; cbn [Z.b2z] in *;
      cbn [loc_of_shr_record round_nearest_even];
      symmetry in Hs;
      [apply negb_true_iff, Z.eqb_neq in Hs
      |apply negb_false_iff, Z.eqb_eq in Hs
      |apply negb_true_iff, Z.eqb_neq in Hs
      |apply negb_false_iff, Z.eqb_eq in Hs];
      repeat match goal with
             | |- context [Z.ltb ?a ?b] => destruct (Z.ltb_spec a b)
             | |- context [Z.eqb ?a ?b] => destruct (Z.eqb_spec a b)
             end; try lia; done.
Qed.

Lemma fexp_eq (x : Z) :
  fexp Binary64.prec Binary64.emax x = Z.max (x - 53) (-1074).
Proof. reflexivity. Qed.

Lemma rne_nonneg (M n : Z) : 0 <= M -> 0 <= n -> 0 <= Binary64.rne M n.
Proof. intros HM Hn. apply rne_ge_grid; [done|lia]. Qed.

(** [Binary64.rounded], from the mantissa and the shift [binary_round_aux] applies. *)
Lemma rounded_link (M ex : Z) :
  0 < M -> -1200 <= ex ->
  let n1 := Z.max (fexp Binary64.prec Binary64.emax (Z.log2 M + 1 + ex) - ex)
                  0 in
  Binary64.rounded (M * 2 ^ (ex + 1200)) = Binary64.rne M n1 * 2 ^ (ex + n1 + 1200).
Proof.
  intros HM Hex n1. unfold Binary64.rounded.
  assert (Hgrid : Binary64.grid (M * 2 ^ (ex + 1200))
                  = fexp Binary64.prec Binary64.emax (Z.log2 M + 1 + ex)
                    + 1200).
  { unfold Binary64.grid. rewrite <- Z.shiftl_mul_pow2 by lia.
    rewrite Z.log2_shiftl by lia. rewrite fexp_eq. lia. }
  rewrite Hgrid. subst n1. rewrite fexp_eq in *.
  set (E := Z.max (Z.log2 M + 1 + ex - 53) (-1074)) in *.
  destruct (Z.le_gt_cases ex E) as [Hle|Hgt].
  - replace (Z.max (E - ex) 0) with (E - ex) by lia.
    replace (E + 1200) with ((E - ex) + (ex + 1200)) at 1 by lia.
    rewrite rne_scale by lia. f_equal. f_equal. lia.
  - replace (Z.max (E - ex) 0) with 0 by lia.
    rewrite rne_zero.
    replace (ex + 1200) with ((ex - E) + (E + 1200)) at 1 by lia.
    rewrite Z.pow_add_r, Z.mul_assoc by lia.
    rewrite rne_exact by lia.
    rewrite <- Z.mul_assoc, <- Z.pow_add_r by lia.
    f_equal. f_equal. lia.
Qed.

(** The float [binary_round_aux] makes of an exact positive number, in
    units of [2^-1200]: unless it overflows, it is that number Binary64.rounded. *)
Lemma round_aux_scaled (mx : positive) (ex : Z) :
  -1200 <= ex ->
  (exists s,
     binary_round_aux Binary64.prec Binary64.emax false (Z.pos mx) ex loc_Exact
     = S754_infinity s)
  \/ Binary64.scaled (binary_round_aux Binary64.prec Binary64.emax false (Z.pos mx) ex
                              loc_Exact)
     = Binary64.rounded (Z.pos mx * 2 ^ (ex + 1200))
     /\ forall s m e,
          binary_round_aux Binary64.prec Binary64.emax false (Z.pos mx) ex
                           loc_Exact = S754_finite s m e ->
          s = false /\ ex <= e.
Proof.
  intros Hex. rewrite (rounded_link (Z.pos mx) ex) by lia. cbv zeta.
  unfold binary_round_aux, shr_fexp. cbn [Zdigits2].
  rewrite digits2_log2.
  set (d := Z.log2 (Z.pos mx) + 1).
  pose proof (Z.log2_spec (Z.pos mx) ltac:(lia)) as [_ HMd].
  replace (Z.succ (Z.log2 (Z.pos mx))) with d in HMd by (unfold d; lia).
  assert (Hd : 1 <= d) by (unfold d; pose proof (Z.log2_nonneg (Z.pos mx)); lia).
  set (E := fexp Binary64.prec Binary64.emax (d + ex)).
  assert (HE : E = Z.max (d + ex - 53) (-1074)) by apply fexp_eq.
  destruct (tracks_shr (Z.pos mx) ex (E - ex) ltac:(lia)) as [Ht1 He1].
  destruct (shr _ ex (E - ex)) as [mrs' e']. cbn [fst snd] in Ht1, He1.
  rewrite (tracks_round (Z.pos mx) (Z.max (E - ex) 0) mrs') by (done || lia).
  set (n1 := Z.max (E - ex) 0) in *.
  set (m1 := Binary64.rne (Z.pos mx) n1).
  assert (Hm1 : 0 <= m1) by (apply rne_nonneg; lia).
  assert (Hm1u : m1 <= 2 ^ Z.max (d - n1) 0).
  { apply rne_le_grid; [lia|].
    rewrite <- Z.pow_add_r by lia.
    transitivity (2 ^ d); [lia|]. apply Z.pow_le_mono_r; lia. }
  set (n2' := fexp Binary64.prec Binary64.emax (Zdigits2 m1 + e') - e').
  destruct (tracks_shr m1 e' n2' Hm1) as [(Hm2 & _ & _) He2].
  assert (Hexact : m1 / 2 ^ Z.max n2' 0 * 2 ^ Z.max n2' 0 = m1).
  { destruct (Z.le_gt_cases n2' 0) as [Hn2|Hn2].
    - replace (Z.max n2' 0) with 0 by lia.
      change (2 ^ 0) with 1. rewrite Z.div_1_r. lia.
    - unfold n2' in Hn2. rewrite fexp_eq in Hn2.
      destruct m1 as [|p1|p1] eqn:Ep1; [cbn [Zdigits2] in Hn2; lia| |lia].
      cbn [Zdigits2] in Hn2. rewrite digits2_log2 in Hn2.
      pose proof (Z.log2_spec (Z.pos p1) ltac:(lia)) as [Hlo _].
      assert (Hj : Z.max (d - n1) 0 <= 53) by lia.
      assert (Hlog : Z.log2 (Z.pos p1) <= Z.max (d - n1) 0).
      { etransitivity; [apply Z.log2_le_mono, Hm1u|].
        rewrite Z.log2_pow2; lia. }
      assert (Hlog53 : Z.log2 (Z.pos p1) = 53) by lia.
      assert (Hj53 : Z.max (d - n1) 0 = 53) by lia.
      rewrite Hlog53 in Hlo. rewrite Hj53 in Hm1u.
      assert (Hp1 : Z.pos p1 = 2 ^ 53) by lia.
      assert (Hn2' : n2' = 1).
      { unfold n2'. rewrite fexp_eq. cbn [Zdigits2].
        rewrite digits2_log2, Hlog53. lia. }
      rewrite Hn2', Hp1. reflexivity. }
  destruct (shr _ e' n2') as [mrs'' e'']. cbn [fst snd] in Hm2, He2.
  assert (Hm2' : 0 <= shr_m mrs'').
  { rewrite Hm2. apply Z.div_pos; [done|apply Z.pow_pos_nonneg; lia]. }
  destruct (shr_m mrs'') as [|m|m] eqn:Em; [| |lia].
  - right. split; [|done]. cbn [Binary64.scaled]. rewrite <- Hexact, <- Hm2. lia.
  - destruct (e'' <=? Binary64.emax - Binary64.prec); [right|left; by eexists].
    split.
    + cbn [Binary64.scaled]. rewrite <- Hexact, <- Hm2.
      rewrite <- Z.mul_assoc, <- Z.pow_add_r by lia.
      f_equal. f_equal. lia.
    + intros s m0 e0 [= <- <- <-]. split; [done|lia].
Qed.

(** ** Order of floats and of their products with [img_max] *)

Lemma scaled_nonneg (x : Binary64.float) : 0 <= Binary64.scaled x.
Proof.
  destruct x as [s|s| |[] m e]; cbn [Binary64.scaled]; try done.
  apply Z.mul_nonneg_nonneg; [lia|apply Z.pow_nonneg; lia].
Qed.

Lemma in_unit_shape (p : Binary64.float) :
  Binary64.in_unit p ->
  (exists s, p = S754_zero s)
  \/ exists m e,
       p = S754_finite false m e
       /\ -1074 <= e <= -52
       /\ e = Z.max (Z.log2 (Z.pos m) + 1 + e - 53) (-1074).
Proof.
  intros Hp. pose proof Hp as (Hv & _ & _).
  destruct (in_unit_cases p Hp) as [?|(m & e & -> & He & _)]; [by left|].
  right. exists m, e. split; [done|].
  unfold Binary64.is_float, valid_binary, bounded, canonical_mantissa in Hv.
  apply andb_prop in Hv as [Hc _]. apply Z.eqb_eq in Hc.
  rewrite fexp_eq, digits2_log2 in Hc. lia.
Qed.

Lemma scaled_le (p' p : Binary64.float) :
  Binary64.in_unit p' -> Binary64.in_unit p -> SFleb p' p = true ->
  Binary64.scaled p' <= Binary64.scaled p.
Proof.
  intros Hp' Hp Hle.
  destruct (in_unit_shape p' Hp') as [[s' ->]|(m' & e' & -> & He' & Hc')];
    [apply scaled_nonneg|].
  destruct (in_unit_shape p Hp) as [[s ->]|(m & e & -> & He & Hc)]; [done|].
  unfold SFleb, SFcompare in Hle. cbn [Binary64.scaled].
  pose proof (Z.log2_spec (Z.pos m) ltac:(lia)) as [Hlo Hhi].
  pose proof (Z.log2_spec (Z.pos m') ltac:(lia)) as [Hlo' Hhi'].
  destruct (Z.compare_spec e' e) as [->|Hlt|Hgt]; [| |done].
  - apply Z.mul_le_mono_nonneg_r; [apply Z.pow_nonneg; lia|].
    fold (Pos.compare m' m) in Hle.
    destruct (Pos.compare_spec m' m); (done || lia).
  - assert (Hm : 2 ^ 52 <= Z.pos m).
    { replace (Z.log2 (Z.pos m)) with 52 in Hlo by lia. done. }
    assert (Hm' : Z.pos m' < 2 ^ 53).
    { eapply Z.lt_le_trans; [exact Hhi'|]. apply Z.pow_le_mono_r; lia. }
    transitivity (2 ^ 53 * 2 ^ (e' + 1200)).
    + apply Z.mul_le_mono_nonneg_r; [apply Z.pow_nonneg; lia|lia].
    + transitivity (2 ^ 52 * 2 ^ (e + 1200)).
      * rewrite <- !Z.pow_add_r by lia. apply Z.pow_le_mono_r; lia.
      * apply Z.mul_le_mono_nonneg_r; [apply Z.pow_nonneg; lia|lia].
Qed.

(** [img_max * p] in units of [2^-1200], for [0 < p <= 1]. *)
Lemma fmul_thousand_finite (m : positive) (e : Z) :
  Binary64.in_unit (S754_finite false m e) ->
  binary_round_aux Binary64.prec Binary64.emax false
                   (Z.pos (8796093022208000 * m)) (-43 + e) loc_Exact
  = S754_zero false
  \/ exists m2 e2,
       binary_round_aux Binary64.prec Binary64.emax false
                        (Z.pos (8796093022208000 * m)) (-43 + e) loc_Exact
       = S754_finite false m2 e2.
Proof.
  intros Hp.
  destruct (in_unit_cases _ Hp) as [[s [=]]|(m0 & e0 & [= <- <-] & He & Hd)].
  apply round_aux_finite; [lia|].
  rewrite digits2_log2 in *.
  pose proof (Z.log2_mul_above 8796093022208000 (Z.pos m)
                ltac:(lia) ltac:(lia)) as Hmul.
  change (Z.log2 8796093022208000) with 52 in Hmul.
  rewrite Pos2Z.inj_mul. lia.
Qed.

Lemma fmul_thousand_scaled (m : positive) (e : Z) :
  Binary64.in_unit (S754_finite false m e) ->
  Binary64.scaled (Binary64.fmul Binary64.thousand (S754_finite false m e))
  = Binary64.rounded (Z.pos (8796093022208000 * m) * 2 ^ (e + 1157))
  /\ ((exists s, Binary64.fmul Binary64.thousand (S754_finite false m e)
                 = S754_zero s)
      \/ exists m2 e2,
           Binary64.fmul Binary64.thousand (S754_finite false m e)
           = S754_finite false m2 e2 /\ -1200 <= e2).
Proof.
  intros Hp.
  destruct (in_unit_shape _ Hp) as [[s [=]]|(m0 & e0 & [= <- <-] & He & Hc)].
  pose proof (fmul_thousand_finite m e Hp) as Hfin.
  unfold Binary64.fmul, Binary64.thousand, SFmul. cbn [xorb].
  destruct (round_aux_scaled (8796093022208000 * m) (-43 + e) ltac:(lia))
    as [[s Hinf]|[Hsc Hexp]].
  { destruct Hfin as [Hz|(m2 & e2 & Hf)]; congruence. }
  replace (-43 + e + 1200) with (e + 1157) in Hsc by lia.
  split; [exact Hsc|].
  destruct Hfin as [Hz|(m2 & e2 & Hf)].
  - left. by exists false.
  - right. exists m2, e2. split; [done|].
    destruct (Hexp false m2 e2 Hf) as [_ He2]. lia.
Qed.

(** The float product [img_max * p] never reverses the order of two
    floats of [[0, 1]]. *)
Lemma fmul_thousand_mono (p' p : Binary64.float) :
  Binary64.in_unit p' -> Binary64.in_unit p -> SFleb p' p = true ->
  Binary64.scaled (Binary64.fmul Binary64.thousand p')
  <= Binary64.scaled (Binary64.fmul Binary64.thousand p).
Proof.
  intros Hp' Hp Hle.
  pose proof (scaled_le p' p Hp' Hp Hle) as Hsc.
  destruct (in_unit_shape p' Hp') as [[s' ->]|(m' & e' & -> & He' & Hc')];
    [apply scaled_nonneg|].
  destruct (in_unit_shape p Hp) as [[s ->]|(m & e & -> & He & Hc)]; [done|].
  rewrite (proj1 (fmul_thousand_scaled m' e' Hp')).
  rewrite (proj1 (fmul_thousand_scaled m e Hp)).
  cbn [Binary64.scaled] in Hsc.
  assert (Hp2 : 0 < 2 ^ (e' + 1157)) by (apply Z.pow_pos_nonneg; lia).
  rewrite !Pos2Z.inj_mul.
  apply rounded_mono. split; [lia|].
  replace (e' + 1200) with ((e' + 1157) + 43) in Hsc by lia.
  replace (e + 1200) with ((e + 1157) + 43) in Hsc by lia.
  rewrite (Z.pow_add_r 2 (e' + 1157) 43), (Z.pow_add_r 2 (e + 1157) 43),
    !Z.mul_assoc in Hsc by lia.
  apply Z.mul_le_mono_pos_r in Hsc; [|lia].
  rewrite <- !Z.mul_assoc. apply Z.mul_le_mono_nonneg_l; [lia|done].
Qed.

Lemma floor_scaled (x : Binary64.float) :
  ((exists s, x = S754_zero s)
   \/ exists m e, x = S754_finite false m e /\ -1200 <= e) ->
  Binary64.floor x = Some (Binary64.scaled x / 2 ^ 1200).
Proof.
  intros [[s ->]|(m & e & -> & He)]; [done|].
  unfold Binary64.floor, Binary64.value. cbn [cond_Zopp Binary64.scaled fmap option_fmap option_map].
  f_equal. destruct e as [|e|e].
  - rewrite Qfloor_Z. change (0 + 1200) with 1200.
    by rewrite Z.mul_1_r, Z.div_mul by lia.
  - rewrite Qfloor_Z. rewrite Z.pow_add_r by lia.
    by rewrite Z.mul_assoc, Z.div_mul by lia.
  - rewrite Qfloor_pow2.
    replace (2 ^ 1200) with (2 ^ Z.pos e * 2 ^ (Z.neg e + 1200)).
    + rewrite Z.div_mul_cancel_r; [done| |];
        apply Z.pow_nonzero; lia.
    + rewrite <- Z.pow_add_r by lia. f_equal. lia.
Qed.

(** [int(img_max * p)] never increases when [p] decreases, and stays
    within [img_max]. *)
Lemma count_mono (p' p : Binary64.float) (k' k : Z) :
  Binary64.in_unit p' -> Binary64.in_unit p -> SFleb p' p = true ->
  Binary64.floor (Binary64.fmul Binary64.thousand p') = Some k' ->
  Binary64.floor (Binary64.fmul Binary64.thousand p) = Some k ->
  k' <= k.
Proof.
  intros Hp' Hp Hle Hk' Hk.
  pose proof (fmul_thousand_mono p' p Hp' Hp Hle) as Hmono.
  assert (Hshape : forall q, Binary64.in_unit q ->
            Binary64.floor (Binary64.fmul Binary64.thousand q)
            = Some (Binary64.scaled (Binary64.fmul Binary64.thousand q) / 2 ^ 1200)).
  { intros q Hq. apply floor_scaled.
    destruct (in_unit_shape q Hq) as [[s ->]|(m & e & -> & _)].
    - left. by eexists.
    - destruct (fmul_thousand_scaled m e Hq) as [_ [?|?]]; [by left|by right]. }
  rewrite Hshape in Hk', Hk by done.
  injection Hk' as <-. injection Hk as <-.
  apply Z.div_le_mono; [|done]. apply Z.pow_pos_nonneg; lia.
Qed.

Lemma count_le_max (p : Binary64.float) (k : Z) :
  Binary64.in_unit p ->
  Binary64.floor (Binary64.fmul Binary64.thousand p) = Some k -> k <= 1000.
Proof.
  intros Hp Hk. destruct Hp as (Hv & H0 & H1).
  apply (count_mono p Binary64.one k 1000); [done| |done..|by vm_compute].
  by vm_compute.
Qed.

(** ** The profiles in binary64 *)

Lemma of_int_thousand : Binary64.of_int 1000 = Ok Binary64.thousand.
Proof. reflexivity. Qed.

Lemma for_each_const {B : Type} (k : B) (l : list nat) (acc : list B) :
  for_each (fun acc _ => Ok (acc ++ [k])) acc l
  = Ok (acc ++ replicate (length l) k).
Proof.
  revert acc. induction l as [|x l IH]; intros acc; cbn.
  - by rewrite app_nil_r.
  - rewrite IH. by rewrite <- app_assoc.
Qed.

(** The ["step"] profile, whatever [**] does: the second loop evaluates
    [int(img_max * imb_factor)] at every pass, so that an exception ends
    the run at the first one. *)
Lemma step_run (float_pow : Binary64.float -> Binary64.float ->
                            result Binary64.float)
    (cls_num : nat) (f : Binary64.float) :
  Binary64.get_img_num_per_cls float_pow cls_num "step" f
  = match Binary64.py_int (Binary64.fmul Binary64.thousand f) with
    | Ok low =>
        Ok (replicate (cls_num / 2) 1000 ++ replicate (cls_num / 2) low)
    | Raise e => if decide (cls_num / 2 = 0)%nat then Ok [] else Raise e
    end.
Proof.
  unfold Binary64.get_img_num_per_cls.
  change (String.eqb "step" "exp") with false.
  change (String.eqb "step" "step") with true. cbv iota zeta.
  rewrite of_int_thousand, append_times_replicate. simpl_result.
  destruct (Binary64.py_int _) as [low|e].
  - simpl_result. by rewrite for_each_const, length_seq.
  - simpl_result. destruct (cls_num / 2)%nat; [done|].
    by rewrite decide_False by done.
Qed.

Lemma in_unit_pos_unit (f : Binary64.float) :
  Binary64.in_unit_pos f -> Binary64.in_unit f.
Proof.
  intros (Hv & H0 & H1). split_and!; [done| |done].
  unfold SFltb, SFleb in *. by destruct (SFcompare _ _) as [[]|].
Qed.





(** C6. For an even [cls_num] and a float [0 < imb_factor <= 1] the
    ["step"] profile is returned and has [cls_num] entries: [cls_num/2]
    times [img_max = 1000], then [cls_num/2] times
    [floor(img_max * imb_factor)], where [img_max * imb_factor] is the
    binary64 product the code computes; that count lies between 0 and
    [img_max].  For [cls_num = 4], [imb_factor = 0.5] the profile is
    [1000, 1000, 500, 500].  The power operator plays no part. *)
Theorem step_profile :
  (forall (float_pow : Binary64.float -> Binary64.float
                       -> result Binary64.float)
          (cls_num : nat) (f : Binary64.float),
     Nat.Even cls_num -> Binary64.in_unit_pos f ->
     exists low,
       Binary64.floor (Binary64.fmul Binary64.thousand f) = Some low
       /\ 0 <= low <= 1000
       /\ Binary64.get_img_num_per_cls float_pow cls_num "step" f
          = Ok (replicate (cls_num / 2) 1000 ++ replicate (cls_num / 2) low)
       /\ length (replicate (cls_num / 2) 1000
                  ++ replicate (cls_num / 2) low) = cls_num)
  /\ forall float_pow,
       Binary64.get_img_num_per_cls float_pow 4 "step" Examples.half
       = Ok [1000; 1000; 500; 500].
Proof.
  split.
  - intros float_pow cls_num f [h Hh] Hf.
    pose proof (in_unit_pos_unit f Hf) as Hunit.
    destruct (mul_thousand f Hunit) as (low & Hint & Hfl & H0).
    exists low. split_and!; [done|done|by apply (count_le_max f)| |].
    + by rewrite step_run, Hint.
    + rewrite length_app, !length_replicate. subst cls_num.
      rewrite (Nat.mul_comm 2 h), Nat.div_mul by done. lia.
  - intros float_pow. by rewrite step_run.
Qed.

Lemma step_profile_witness :
  exists low,
    Binary64.floor (Binary64.fmul Binary64.thousand Examples.half) = Some low
    /\ 0 <= low <= 1000
    /\ Binary64.get_img_num_per_cls Examples.pow_points 4 "step" Examples.half
       = Ok (replicate (4 / 2) 1000 ++ replicate (4 / 2) low)
    /\ length (replicate (4 / 2) 1000 ++ replicate (4 / 2) low) = 4%nat.
Proof.
  apply (proj1 step_profile Examples.pow_points 4%nat Examples.half).
  - exists 2%nat. reflexivity.
  - by vm_compute.
Defined.




(* ===================================================================== *)
(** * Further properties *)
(* ===================================================================== *)

Import Dataset Mixup.

(** ** More on the target counts *)

Lemma Rpower_le_1 (f e : R) : (0 < f <= 1)%R -> (0 <= e)%R -> (Rpower f e <= 1)%R.
Proof.
  intros Hf He. rewrite <- (Rpower_O f) by lra. by apply Rpower_antitone.
Qed.

Lemma Int_part_bounds (x : R) (lo hi : Z) :
  (IZR lo <= x <= IZR hi)%R -> lo <= Int_part x <= hi.
Proof.
  intros [Hlo Hhi]. rewrite <- (Int_part_IZR lo), <- (Int_part_IZR hi).
  split; by apply Int_part_le.
Qed.

Lemma exp_count_bounds (cls_num : nat) (f : R) (c : nat) :
  (2 <= cls_num)%nat -> (0 < f <= 1)%R ->
  0 <= Dataset.exp_count cls_num f c <= 1000.
Proof.
  intros Hn Hf. unfold Dataset.exp_count. apply Int_part_bounds.
  pose proof (INR_minus_1_pos cls_num Hn) as Hpos.
  assert (He : (0 <= INR c / (INR cls_num - 1))%R).
  { apply Rmult_le_pos; [apply pos_INR|left; by apply Rinv_0_lt_compat]. }
  pose proof (Rpower_le_1 f _ Hf He).
  pose proof (exp_pos (INR c / (INR cls_num - 1) * ln f)) as Hp.
  unfold Rpower in *. lra.
Qed.

(** X1. For [0 < imb_factor <= 1] and every [imb_type], each target count
    [get_img_num_per_cls] returns lies between 0 and [img_max = 1000], and
    outside the ["step"] profile there is one count per class.  The only
    failure is the ["exp"] profile of a single class, whose exponent
    [0 / (1 - 1.0)] raises [ZeroDivisionError]. *)
Theorem img_num_per_cls_bounds (cls_num : nat) (imb_type : string) (f : R) :
  (0 < f <= 1)%R ->
  match Dataset.get_img_num_per_cls cls_num imb_type f with
  | Ok counts =>
      Forall (fun n => 0 <= n <= 1000) counts
      /\ (imb_type <> "step"%string -> length counts = cls_num)
  | Raise e =>
      e = ZeroDivisionError /\ imb_type = "exp"%string /\ cls_num = 1%nat
  end.
Proof.
  intros Hf.
  destruct (String.eqb_spec imb_type "exp") as [->|Hexp].
  - destruct (decide (2 <= cls_num)%nat) as [Hn|Hn].
    + rewrite get_img_num_per_cls_exp by (done || lra). split.
      * apply Forall_map, Forall_forall. intros c _.
        by apply exp_count_bounds.
      * intros _. by rewrite length_map, length_seq.
    + destruct cls_num as [|[|n]]; [by split| |lia].
      unfold Dataset.get_img_num_per_cls. cbn.
      unfold Dataset.float_div.
      destruct (Req_dec_T (1 - 1) 0) as [_|Hne]; [done|lra].
  - unfold Dataset.get_img_num_per_cls.
    rewrite (proj2 (String.eqb_neq _ _) Hexp).
    destruct (String.eqb_spec imb_type "step") as [->|Hstep].
    + rewrite !append_times_replicate. split; [|done].
      apply Forall_app. split; apply Forall_replicate; [lia|].
      rewrite py_int_floor by lra. apply Int_part_bounds. lra.
    + unfold list_mul. split.
      * apply Forall_replicate. lia.
      * intros _. rewrite length_replicate. lia.
Qed.

Lemma img_num_per_cls_bounds_witness :
  match Dataset.get_img_num_per_cls 4 "step" (1 / 2) with
  | Ok counts =>
      Forall (fun n => 0 <= n <= 1000) counts
      /\ ("step"%string <> "step"%string -> length counts = 4%nat)
  | Raise e =>
      e = ZeroDivisionError /\ "step"%string = "exp"%string /\ 4%nat = 1%nat
  end.
Proof. apply (img_num_per_cls_bounds 4 "step" (1 / 2)). lra. Defined.

(** X2. The ["step"] profile on doubles, for every class count and every
    float: when [int(img_max * imb_factor)] is defined the profile has
    [2 * (cls_num // 2)] counts, so that an odd [cls_num] leaves the last
    class without a count; when the product is [inf] or [nan] and there is
    a second half, [int] raises [OverflowError] or [ValueError], as it does
    for [imb_factor = 1e306], [inf] and [nan]. *)
Theorem step_profile_length :
  (forall (float_pow : Binary64.float -> Binary64.float
                       -> result Binary64.float)
          (cls_num : nat) (f : Binary64.float),
     match Binary64.get_img_num_per_cls float_pow cls_num "step" f with
     | Ok counts =>
         length counts = (cls_num - cls_num mod 2)%nat
         /\ ((2 <= cls_num)%nat ->
             exists low,
               Binary64.py_int (Binary64.fmul Binary64.thousand f) = Ok low
               /\ counts = replicate (cls_num / 2) 1000
                           ++ replicate (cls_num / 2) low)
     | Raise e =>
         (2 <= cls_num)%nat
         /\ Binary64.py_int (Binary64.fmul Binary64.thousand f) = Raise e
         /\ (e = OverflowError "cannot convert float infinity to integer"
             \/ e = ValueError "cannot convert float NaN to integer")
     end)
  /\ forall float_pow,
       Binary64.get_img_num_per_cls float_pow 2 "step" Examples.huge
       = Raise (OverflowError "cannot convert float infinity to integer")
       /\ Binary64.get_img_num_per_cls float_pow 2 "step"
                                       (S754_infinity false)
          = Raise (OverflowError "cannot convert float infinity to integer")
       /\ Binary64.get_img_num_per_cls float_pow 2 "step" S754_nan
          = Raise (ValueError "cannot convert float NaN to integer").
Proof.
  split.
  - intros float_pow cls_num f. rewrite step_run.
    pose proof (Nat.div_mod_eq cls_num 2) as Hdm.
    pose proof (Nat.mod_upper_bound cls_num 2 ltac:(lia)) as Hmod.
    destruct (Binary64.py_int _) as [low|e] eqn:Hint.
    + split; [rewrite length_app, !length_replicate; lia|].
      intros _. by exists low.
    + case_decide as Hhalf.
      * split; [cbn [length]; lia|]. intros Hn. lia.
      * split_and!; [lia|done|].
        destruct (Binary64.fmul _ _) as [s|s| |s m e']; cbn in Hint;
          injection Hint as <- || discriminate Hint; auto.
  - intros float_pow. by rewrite !step_run.
Qed.

(** ** More on the oversampling index builder *)

Section IndexBuilderMore.
Context {A : Type}.
Implicit Types (dataset : list (A * Z)) (budget : list Z).

Lemma seen_mono dataset budget (k i j : nat) :
  (i <= j)%nat -> Dataset.seen dataset budget k i <= Dataset.seen dataset budget k j.
Proof.
  intros Hij. unfold Dataset.seen.
  assert (Hsplit : take j dataset.*2
                   = take i dataset.*2 ++ drop i (take j dataset.*2)).
  { rewrite <- (take_drop i (take j dataset.*2)) at 1.
    rewrite take_take. by replace (i `min` j)%nat with i by lia. }
  rewrite Hsplit, List.filter_app, length_app. lia.
Qed.

Lemma seen_all dataset budget (k i : nat) :
  (length dataset <= i)%nat ->
  Dataset.seen dataset budget k i = Dataset.seen dataset budget k (length dataset).
Proof.
  intros Hi. unfold Dataset.seen.
  by rewrite !take_ge by (rewrite length_fmap; lia).
Qed.

Lemma retained_kept dataset budget (k : nat) (b : Z) (m : nat) :
  budget !! k = Some b ->
  (m <= length dataset)%nat ->
  retained dataset budget
    (List.filter (Dataset.kept dataset budget) (seq 0 m)) k
  = Z.min (Dataset.seen dataset budget k m) (Z.max b 0).
Proof.
  intros Hb. induction m as [|m IH]; intros Hm.
  - unfold retained, Dataset.seen. rewrite take_0. cbn. lia.
  - specialize (IH ltac:(lia)).
    destruct (lookup_lt_is_Some_2 dataset.*2 m) as [label Hl];
      [rewrite length_fmap; lia|].
    rewrite kept_seq_S, (seen_S _ _ _ _ _ Hl).
    unfold retained in *. rewrite List.filter_app, length_app, Nat2Z.inj_add, IH.
    pose proof (seen_nonneg dataset budget k m) as Hge.
    unfold Dataset.kept. rewrite Hl.
    destruct (Dataset.slot budget label) as [k'|] eqn:Hslot.
    2:{ rewrite bool_decide_eq_false_2 by done. cbn. lia. }
    destruct (decide (k' = k)) as [->|Hne].
    + rewrite Hb, bool_decide_eq_true_2 by done.
      destruct (Z.ltb_spec (Dataset.seen dataset budget k m) b); cbn.
      * rewrite Hl. cbn. rewrite Hslot, bool_decide_eq_true_2 by done.
        cbn. lia.
      * lia.
    + rewrite bool_decide_eq_false_2 by congruence.
      destruct (budget !! k') as [b'|]; [|cbn; lia].
      destruct (_ <? _); cbn; [|lia].
      rewrite Hl. cbn. rewrite Hslot, bool_decide_eq_false_2 by congruence.
      cbn. lia.
Qed.

Lemma filter_all_true {B : Type} (f : B -> bool) (l : list B) :
  Forall (fun x => f x = true) l -> List.filter f l = l.
Proof.
  induction 1 as [|x l Hx Hl IH]; cbn; [done|]. by rewrite Hx, IH.
Qed.

Lemma filter_all_false {B : Type} (f : B -> bool) (l : list B) :
  Forall (fun x => f x = false) l -> List.filter f l = [].
Proof.
  induction 1 as [|x l Hx Hl IH]; cbn; [done|]. by rewrite Hx, IH.
Qed.

(** The loop reaches every item: if it returns, every label was a position
    of the budget list. *)
Lemma select_loop_slots dataset budget :
  match for_each (Dataset.select_body dataset (seq 0 (length dataset)))
                 (budget, []) (seq 0 (length dataset)) with
  | Ok st => Forall (fun item => is_Some (Dataset.slot budget item.2)) dataset
  | Raise _ => True
  end.
Proof.
  pose proof (for_each_seq_inv
    (Dataset.select_body dataset (seq 0 (length dataset)))
    (fun i st =>
       length st.1 = length budget
       /\ Forall (fun item => is_Some (Dataset.slot budget item.2))
                 (take i dataset))
    (fun _ => True) (length dataset) 0%nat (budget, [])) as Hinv.
  cbn beta in Hinv.
  match type of Hinv with ?Hs -> _ => assert (Hstep : Hs) end.
  { clear Hinv. intros i [num sel] [_ Hi] (Hlen & Hall). cbn in Hi, Hlen.
    destruct (select_body_index dataset i (num, sel) Hi)
      as (a & label & Hit & ->).
    cbn [fst snd]. unfold getitem, setitem.
    rewrite (index_of_length num budget label Hlen).
    destruct (index_of budget label) as [k|e] eqn:Hk; simpl_result; [|done].
    assert (Hall' : Forall (fun item => is_Some (Dataset.slot budget item.2))
                           (take (S i) dataset)).
    { rewrite (take_S_r _ _ _ Hit). apply Forall_app. split; [done|].
      constructor; [|done]. unfold Dataset.slot. cbn. rewrite Hk. eauto. }
    destruct (num !! k); simpl_result; [|done].
    case_decide; simpl_result; [|done].
    split; [by rewrite length_insert|done]. }
  specialize (Hinv Hstep (conj eq_refl (Forall_nil_2 _))).
  destruct (for_each _ _ _) as [[num' sel']|e]; [|done].
  destruct Hinv as [_ Hall]. cbn in Hall. by rewrite take_ge in Hall.
Qed.

End IndexBuilderMore.

(** X3. When [get_imbalanced_data] returns, the number of selected indices
    whose label selects position [k] of [num_sample_per_class] is the
    smaller of the number of such items in the dataset and the target count
    at [k] (none when that count is negative). *)
Theorem get_imbalanced_data_class_counts {A : Type}
    (dataset : list (A * Z)) (budget : list Z) (selected : list nat)
    (k : nat) (b : Z) :
  Dataset.get_imbalanced_data dataset budget = Ok selected ->
  budget !! k = Some b ->
  retained dataset budget selected k
  = Z.min (Dataset.seen dataset budget k (length dataset)) (Z.max b 0).
Proof.
  intros Hget Hb.
  unfold Dataset.get_imbalanced_data in Hget.
  pose proof (select_loop_kept dataset budget) as H.
  destruct (for_each _ _ _) as [[num' sel']|e]; [|done].
  cbn in Hget, H. injection Hget as <-. rewrite H. by apply retained_kept.
Qed.

Lemma get_imbalanced_data_class_counts_witness :
  retained Examples.svhn_items [2; 1] [0; 1; 3]%nat 0
  = Z.min (Dataset.seen Examples.svhn_items [2; 1] 0
             (length Examples.svhn_items))
          (Z.max 2 0).
Proof.
  apply (get_imbalanced_data_class_counts Examples.svhn_items [2; 1]
           [0; 1; 3]%nat 0 2); reflexivity.
Defined.

(** X4. [get_imbalanced_data] returns a list exactly when every label of the
    dataset is a position of [num_sample_per_class], negative labels
    counting from the end as Python indices do; otherwise the lookup
    [num_sample_per_class[label]] ends the run with an exception. *)
Theorem get_imbalanced_data_returns {A : Type}
    (dataset : list (A * Z)) (budget : list Z) :
  (exists selected, Dataset.get_imbalanced_data dataset budget = Ok selected)
  <-> Forall (fun item => is_Some (Dataset.slot budget item.2)) dataset.
Proof.
  unfold Dataset.get_imbalanced_data.
  pose proof (select_loop_slots dataset budget) as Hslots.
  pose proof (select_loop_kept dataset budget) as Hkept.
  destruct (for_each _ _ _) as [[num' sel']|e]; simpl_result.
  - split; [done|]. eauto.
  - split; [by intros [? ?]|]. intros Hall. destruct Hkept as [_ Hex].
    apply Exists_exists in Hex as (item & Hin & Hnone).
    pose proof (proj1 (Forall_forall _ _) Hall item Hin) as [k Hk].
    congruence.
Qed.

(** X5. When the target count of every class is at least the number of
    items of that class, [get_imbalanced_data] selects the whole dataset,
    in order. *)
Theorem get_imbalanced_data_all {A : Type}
    (dataset : list (A * Z)) (budget : list Z) :
  Forall (fun item =>
            exists k b, Dataset.slot budget item.2 = Some k
                        /\ budget !! k = Some b
                        /\ Dataset.seen dataset budget k (length dataset) <= b)
         dataset ->
  Dataset.get_imbalanced_data dataset budget = Ok (seq 0 (length dataset)).
Proof.
  intros Hall. unfold Dataset.get_imbalanced_data.
  pose proof (select_loop_kept dataset budget) as Hkept.
  destruct (for_each _ _ _) as [[num' sel']|e]; simpl_result.
  - cbn in Hkept. rewrite Hkept. f_equal. apply filter_all_true.
    apply Forall_forall. intros i Hi%elem_of_seq.
    destruct (lookup_lt_is_Some_2 dataset i) as [[a label] Hit]; [lia|].
    pose proof (proj1 (Forall_lookup _ _) Hall i _ Hit)
      as (k & b & Hslot & Hb & Hle). cbn in Hslot.
    assert (Hl : dataset.*2 !! i = Some label)
      by (by rewrite list_lookup_fmap, Hit).
    unfold Dataset.kept. rewrite Hl, Hslot, Hb.
    apply Z.ltb_lt.
    pose proof (seen_S dataset budget k label i Hl) as HS.
    rewrite bool_decide_eq_true_2 in HS by done.
    pose proof (seen_mono dataset budget k (S i) (length dataset) ltac:(lia)).
    lia.
  - destruct Hkept as [_ Hex].
    apply Exists_exists in Hex as (item & Hin & Hnone).
    pose proof (proj1 (Forall_forall _ _) Hall item Hin)
      as (k & b & Hslot & _). congruence.
Qed.

Lemma get_imbalanced_data_all_witness :
  Dataset.get_imbalanced_data Examples.svhn_items [3; 2]
  = Ok (seq 0 (length Examples.svhn_items)).
Proof.
  apply (get_imbalanced_data_all Examples.svhn_items [3; 2]).
  repeat apply Forall_cons_2; [..|apply Forall_nil_2].
  - exists 1%nat, 2. by vm_compute.
  - exists 0%nat, 3. by vm_compute.
  - exists 1%nat, 2. by vm_compute.
  - exists 0%nat, 3. by vm_compute.
  - exists 0%nat, 3. by vm_compute.
Defined.

(** X6. With no positive target count [get_imbalanced_data] selects
    nothing; a label outside the list still raises [IndexError]. *)
Theorem get_imbalanced_data_none {A : Type}
    (dataset : list (A * Z)) (budget : list Z) :
  Forall (fun b => b <= 0) budget ->
  match Dataset.get_imbalanced_data dataset budget with
  | Ok selected => selected = []
  | Raise e => e = IndexError
  end.
Proof.
  intros Hall. unfold Dataset.get_imbalanced_data.
  pose proof (select_loop_kept dataset budget) as Hkept.
  destruct (for_each _ _ _) as [[num' sel']|e]; simpl_result; [|tauto].
  cbn in Hkept. rewrite Hkept. apply filter_all_false.
  apply Forall_forall. intros i _. unfold Dataset.kept.
  destruct (_ !! i) as [label|]; [|done].
  destruct (Dataset.slot budget label) as [k|]; [|done].
  destruct (budget !! k) as [b|] eqn:Hb; [|done].
  pose proof (proj1 (Forall_lookup _ _) Hall k b Hb) as Hb0. cbn in Hb0.
  pose proof (seen_nonneg dataset budget k i).
  apply Z.ltb_ge. lia.
Qed.

Lemma get_imbalanced_data_none_witness :
  match Dataset.get_imbalanced_data Examples.svhn_items [0; -1] with
  | Ok selected => selected = []
  | Raise e => e = IndexError
  end.
Proof.
  apply (get_imbalanced_data_none Examples.svhn_items [0; -1]).
  repeat apply Forall_cons_2; [..|apply Forall_nil_2]; lia.
Defined.

(** ** More on the construction of the imbalanced dataset *)

Lemma where_from_elem (k : nat) (targets : list Z) (c : Z) (i : nat) :
  i ∈ Dataset.where_from k targets c
  <-> (k <= i)%nat /\ targets !! (i - k)%nat = Some c.
Proof.
  revert k. induction targets as [|t ts IH]; intros k; cbn.
  - rewrite elem_of_nil. split; [done|]. by intros [_ ?].
  - assert (Hrest : i ∈ Dataset.where_from (S k) ts c
                    <-> (k < i)%nat /\ (t :: ts) !! (i - k)%nat = Some c).
    { rewrite IH. split.
      - intros [Hi Hl]. split; [lia|].
        replace (i - k)%nat with (S (i - S k)) by lia. done.
      - intros [Hi Hl]. split; [lia|].
        replace (i - k)%nat with (S (i - S k)) in Hl by lia. done. }
    destruct (Z.eqb_spec t c) as [->|Hne].
    + rewrite elem_of_cons, Hrest. split.
      * intros [->|[Hi Hl]]; [|split; [lia|done]].
        split; [lia|]. by rewrite Nat.sub_diag.
      * intros [Hi Hl]. destruct (decide (i = k)) as [->|Hne]; [by left|].
        right. split; [lia|done].
    + rewrite Hrest. split; [intros [Hi Hl]; split; [lia|done]|].
      intros [Hi Hl]. split; [|done].
      destruct (decide (i = k)) as [->|Hik]; [|lia].
      rewrite Nat.sub_diag in Hl. cbn in Hl. congruence.
Qed.

Lemma where_from_NoDup (k : nat) (targets : list Z) (c : Z) :
  NoDup (Dataset.where_from k targets c).
Proof.
  revert k. induction targets as [|t ts IH]; intros k; cbn; [constructor|].
  destruct (t =? c); [|done]. constructor; [|done].
  rewrite where_from_elem. lia.
Qed.

Lemma fancy_index_from_rows {Img : Type} (data : list Img)
    (selec_idx : list nat) (acc : list Img) :
  Forall (fun i => (i < length data)%nat) selec_idx ->
  exists rows,
    for_each (fun rows i => match data !! i with
                            | Some row => Ok (rows ++ [row])
                            | None => Raise IndexError
                            end) acc selec_idx = Ok (acc ++ rows)
    /\ Forall2 (fun i row => data !! i = Some row) selec_idx rows.
Proof.
  revert acc. induction selec_idx as [|i idx IH]; intros acc Hall.
  - exists []. rewrite app_nil_r. by split.
  - apply Forall_cons in Hall as [Hi Hall]. cbn [for_each].
    destruct (lookup_lt_is_Some_2 data i Hi) as [row Hrow]. rewrite Hrow.
    destruct (IH (acc ++ [row]) Hall) as (rows & -> & Hrows).
    exists (row :: rows). rewrite <- app_assoc. split; [done|].
    by constructor.
Qed.

Lemma fancy_index_rows {Img : Type} (data : list Img) (selec_idx : list nat) :
  Forall (fun i => (i < length data)%nat) selec_idx ->
  exists rows, Dataset.fancy_index data selec_idx = Ok rows
               /\ Forall2 (fun i row => data !! i = Some row) selec_idx rows.
Proof. intros Hall. by apply (fancy_index_from_rows data selec_idx []). Qed.

Section ConstructionMore.
Context {Img RNG : Type}.
Variable shuffle : RNG -> list nat -> list nat * RNG.
Hypothesis shuffle_perm : forall g l, (shuffle g l).1 ≡ₚ l.
Implicit Types (s : @Dataset.M2M_SVHN_LT Img RNG) (pairs : list (Z * Z)).

Lemma gen_body_pick (targets_np : list Z) (new_data : list (list Img))
    (new_targets : list Z) (c n : Z) s :
  length (Dataset.data s) = length targets_np ->
  0 <= n ->
  exists idxs rows g,
    Dataset.gen_body shuffle targets_np (new_data, new_targets) (c, n) s
    = (Ok (new_data ++ [rows], new_targets ++ replicate (Z.to_nat n) c),
       Dataset.set_np_random g
         (Dataset.set_num_per_cls_dict <[c := n]> s))
    /\ class_pick targets_np (Dataset.data s) (c, n) idxs rows.
Proof using shuffle_perm.
  intros Hlen Hn.
  unfold Dataset.gen_body, mbind, method_bind, modify, get, lift, mret,
    method_ret.
  pose proof (shuffle_perm (Dataset.np_random s)
                (Dataset.np_where_eq targets_np c)) as Hperm.
  cbn [Dataset.set_num_per_cls_dict Dataset.np_random Dataset.data].
  destruct (shuffle _ _) as [idx g]. cbn [fst] in Hperm.
  destruct (where_from_spec 0 targets_np c) as [Hcount Hbound].
  assert (Hidx : NoDup idx /\ Forall (fun i => targets_np !! i = Some c) idx
                 /\ Forall (fun i => (i < length (Dataset.data s))%nat) idx).
  { rewrite Hperm. split_and!.
    - apply where_from_NoDup.
    - apply Forall_forall. intros i [_ Hi]%where_from_elem.
      by rewrite Nat.sub_0_r in Hi.
    - by rewrite Hlen. }
  destruct Hidx as (Hnd & Hlab & Hlt).
  assert (Hslice : slice_to idx n = take (Z.to_nat n) idx).
  { unfold slice_to. by rewrite decide_True by lia. }
  rewrite Hslice.
  destruct (fancy_index_rows (Dataset.data s) (take (Z.to_nat n) idx))
    as (rows & -> & Hrows); [by apply Forall_take|].
  exists (take (Z.to_nat n) idx), rows, g. split; [done|].
  split_and!; [|by apply Forall_take| |done].
  - eapply sublist_NoDup; [exact Hnd|apply sublist_take].
  - rewrite length_take, Hperm. unfold Dataset.np_where_eq. rewrite Hcount.
    unfold Dataset.class_count. cbn [fst snd]. lia.
Qed.

Lemma gen_loop_picks (targets_np : list Z) pairs :
  forall (new_data : list (list Img)) (new_targets : list Z) s,
  length (Dataset.data s) = length targets_np ->
  Forall (fun p => 0 <= p.2) pairs ->
  exists idxss rowss s',
    for_loop (Dataset.gen_body shuffle targets_np) (new_data, new_targets)
             pairs s
    = (Ok (new_data ++ rowss, new_targets ++ blocks pairs), s')
    /\ Forall3 (class_pick targets_np (Dataset.data s)) pairs idxss rowss
    /\ Dataset.data s' = Dataset.data s
    /\ Dataset.labels s' = Dataset.labels s
    /\ Dataset.img_num_list s' = Dataset.img_num_list s
    /\ Dataset.num_per_cls_dict s'
       = foldl (fun m p => <[p.1 := p.2]> m) (Dataset.num_per_cls_dict s)
               pairs.
Proof using shuffle_perm.
  induction pairs as [|[c n] pairs IH]; intros new_data new_targets s Hlen Hall.
  - exists [], [], s. cbn. rewrite !app_nil_r. split_and!; [done|constructor|done..].
  - apply Forall_cons in Hall as [Hn Hall]. cbn [fst snd] in Hn.
    destruct (gen_body_pick targets_np new_data new_targets c n s Hlen Hn)
      as (idxs & rows & g & Hbody & Hpick).
    cbn [for_loop]. unfold mbind at 1, method_bind at 1. rewrite Hbody.
    destruct (IH (new_data ++ [rows])
                 (new_targets ++ replicate (Z.to_nat n) c)
                 (Dataset.set_np_random g
                    (Dataset.set_num_per_cls_dict <[c := n]> s)))
      as (idxss & rowss & s' & -> & Hpicks & Hd & Hl & Hi & Hdict);
      [exact Hlen|exact Hall|].
    exists (idxs :: idxss), (rows :: rowss), s'.
    cbn [blocks flat_map fst snd]. fold (blocks pairs).
    rewrite <- !app_assoc. split_and!; [done| |done..].
    by constructor.
Qed.
End ConstructionMore.

Lemma foldl_insert_lookup (pairs : list (Z * Z)) (m : gmap Z Z) (c : Z) :
  NoDup pairs.*1 ->
  foldl (fun m p => <[p.1 := p.2]> m) m pairs !! c
  = match list_find (fun p => p.1 = c) pairs with
    | Some (_, p) => Some p.2
    | None => m !! c
    end.
Proof.
  revert m. induction pairs as [|[c' n] pairs IH]; intros m Hnd; [done|].
  apply NoDup_cons in Hnd as [Hc Hnd]. cbn [foldl fst snd].
  rewrite IH by done. cbn [list_find fst].
  destruct (decide (c' = c)) as [->|Hne].
  - cbn. destruct (list_find _ pairs) as [[j p]|] eqn:Hfind.
    + apply list_find_Some in Hfind as (Hj & Hp & _). exfalso. apply Hc.
      apply list_elem_of_fmap. exists p. split; [done|].
      by eapply list_elem_of_lookup_2.
    + by rewrite lookup_insert_eq.
  - destruct (list_find _ pairs) as [[j p]|]; cbn; [done|].
    by rewrite lookup_insert_ne.
Qed.

Lemma foldl_insert_elem (pairs : list (Z * Z)) (m : gmap Z Z) (c n : Z) :
  NoDup pairs.*1 -> (c, n) ∈ pairs ->
  foldl (fun m p => <[p.1 := p.2]> m) m pairs !! c = Some n.
Proof.
  intros Hnd Hin. rewrite foldl_insert_lookup by done.
  destruct (list_find _ pairs) as [[j p]|] eqn:Hfind.
  - apply list_find_Some in Hfind as (Hj & Hp & _). f_equal.
    apply list_elem_of_lookup_1 in Hin as [j' Hj'].
    assert (j = j') as ->; [|by rewrite Hj' in Hj; injection Hj as <-].
    eapply NoDup_lookup; [exact Hnd|..];
      rewrite list_lookup_fmap; [by rewrite Hj|by rewrite Hj'; cbn; f_equal].
  - apply list_find_None in Hfind.
    by pose proof (proj1 (Forall_forall _ _) Hfind _ Hin).
Qed.

Lemma blocks_length (pairs : list (Z * Z)) :
  Forall (fun p => 0 <= p.2) pairs ->
  Z.of_nat (length (blocks pairs)) = Dataset.total_count pairs.
Proof.
  induction 1 as [|[c n] pairs Hn Hall IH]; [done|].
  cbn [blocks flat_map Dataset.total_count foldr fst snd] in *.
  fold (blocks pairs). fold (Dataset.total_count pairs).
  rewrite length_app, length_replicate. lia.
Qed.

Lemma blocks_sorted (pairs : list (Z * Z)) :
  StronglySorted Z.lt pairs.*1 -> StronglySorted Z.le (blocks pairs).
Proof.
  induction pairs as [|[c n] pairs IH]; intros Hs; [constructor|].
  cbn in Hs. apply StronglySorted_inv in Hs as [Hs Hc].
  cbn [blocks flat_map fst snd]. fold (blocks pairs).
  apply StronglySorted_app. split_and!.
  - intros x1 x2 [-> _]%elem_of_replicate Hx2.
    unfold blocks in Hx2. apply list_elem_of_In, in_flat_map in Hx2
      as ([c' n'] & Hin & Hx). apply list_elem_of_In in Hx, Hin.
    apply elem_of_replicate in Hx as [-> _]. cbn [fst].
    assert (c < c'); [|lia].
    apply (proj1 (Forall_forall _ _) Hc). apply list_elem_of_fmap.
    by exists (c', n').
  - generalize (Z.to_nat n). intros k. induction k; cbn; constructor; [done|].
    apply Forall_replicate. lia.
  - by apply IH.
Qed.

Lemma zip_fst_sorted (l k : list Z) :
  StronglySorted Z.lt l -> StronglySorted Z.lt (zip l k).*1.
Proof.
  revert k. induction l as [|x l IH]; intros k Hl; [constructor|].
  apply StronglySorted_inv in Hl as [Hl Hx].
  destruct k as [|y k]; cbn; constructor; [by apply IH|].
  apply Forall_forall. intros z Hz.
  apply (proj1 (Forall_forall _ _) Hx).
  apply list_elem_of_fmap in Hz as ([a b] & -> & Hin). cbn.
  clear -Hin. revert k Hin. induction l as [|z l IH]; intros [|y' k] Hin;
    cbn in *; try by apply elem_of_nil in Hin.
  apply elem_of_cons in Hin as [[= -> _]|Hin]; [by left|]. right. by eapply IH.
Qed.

Section ConstructionMore2.
Context {Img RNG : Type}.
Variable shuffle : RNG -> list nat -> list nat * RNG.
Hypothesis shuffle_perm : forall g l, (shuffle g l).1 ≡ₚ l.
Implicit Types (s : @Dataset.M2M_SVHN_LT Img RNG) (pairs : list (Z * Z)).

Lemma picks_rows_length (targets_np : list Z) (data : list Img) pairs
    (idxss : list (list nat)) (rowss : list (list Img)) :
  Forall3 (class_pick targets_np data) pairs idxss rowss ->
  Z.of_nat (length (concat rowss))
  = foldr (fun p acc =>
             Z.max 0 (Z.min p.2 (Dataset.class_count targets_np p.1)) + acc)
          0 pairs
  /\ length rowss = length pairs.
Proof.
  induction 1 as [|p idxs rows pairs idxss rowss Hp Hrest IH]; [done|].
  destruct Hp as (_ & _ & Hlen & Hrows). apply Forall2_length in Hrows.
  cbn. rewrite length_app. lia.
Qed.

(** The whole run, for non-negative target counts: either outcome leaves
    the class blocks in [data] and [labels]. *)
Lemma gen_imbalanced_data_run (img_num_per_cls : list Z) s :
  let pairs := zip (Dataset.np_unique (Dataset.labels s)) img_num_per_cls in
  length (Dataset.data s) = length (Dataset.labels s) ->
  Forall (fun p => 0 <= p.2) pairs ->
  pairs <> [] ->
  exists idxss rowss s',
    Dataset.gen_imbalanced_data shuffle img_num_per_cls s
    = (if decide (length (concat rowss) = length (blocks pairs)) then Ok tt
       else Raise (AssertionError
                     "Length of data &             labels do not match!"),
       s')
    /\ Forall3 (class_pick (Dataset.labels s) (Dataset.data s))
               pairs idxss rowss
    /\ Dataset.data s' = concat rowss
    /\ Dataset.labels s' = blocks pairs
    /\ Dataset.img_num_list s' = Dataset.img_num_list s
    /\ Dataset.num_per_cls_dict s'
       = foldl (fun m p => <[p.1 := p.2]> m) ∅ pairs.
Proof using shuffle_perm.
  intros pairs Hlen Hall Hne.
  unfold Dataset.gen_imbalanced_data.
  unfold mbind at 1 2, method_bind at 1 2, get, modify.
  destruct (gen_loop_picks shuffle shuffle_perm (Dataset.labels s) pairs
              [] [] (Dataset.set_num_per_cls_dict (fun _ => ∅) s))
    as (idxss & rowss & s1 & Hloop & Hpicks & Hd & Hl & Hi & Hdict);
    [done|done|].
  fold pairs. unfold mbind at 1, method_bind at 1. rewrite Hloop.
  unfold mbind, method_bind, lift, modify, mret, method_ret, raise.
  cbn [app]. exists idxss, rowss.
  destruct (picks_rows_length _ _ _ _ _ Hpicks) as [_ Hrl].
  destruct rowss as [|rows rowss]; [by destruct pairs|].
  cbn [Dataset.np_vstack].
  exists (Dataset.set_data_labels (concat (rows :: rowss)) (blocks pairs) s1).
  split; [by case_decide|].
  cbn in Hdict. by cbn.
Qed.

Lemma gen_imbalanced_data_empty (img_num_per_cls : list Z) s :
  zip (Dataset.np_unique (Dataset.labels s)) img_num_per_cls = [] ->
  Dataset.gen_imbalanced_data shuffle img_num_per_cls s
  = (Raise (ValueError "need at least one array to concatenate"),
     Dataset.set_num_per_cls_dict (fun _ => ∅) s).
Proof.
  intros Hnil. unfold Dataset.gen_imbalanced_data.
  unfold mbind, method_bind, get, modify.
  cbn [Dataset.set_num_per_cls_dict Dataset.labels]. by rewrite Hnil.
Qed.

Lemma picks_concat (targets_np : list Z) (data : list Img) pairs
    (idxss : list (list nat)) (rowss : list (list Img)) :
  Forall3 (class_pick targets_np data) pairs idxss rowss ->
  NoDup pairs.*1 ->
  Forall (fun p => 0 <= p.2 <= Dataset.class_count targets_np p.1) pairs ->
  NoDup (concat idxss)
  /\ Forall2 (fun i row => data !! i = Some row) (concat idxss) (concat rowss)
  /\ Forall2 (fun i l => targets_np !! i = Some l) (concat idxss)
             (blocks pairs)
  /\ Forall (fun i => exists c, targets_np !! i = Some c /\ c ∈ pairs.*1)
            (concat idxss).
Proof.
  induction 1 as [|[c n] idxs rows pairs idxss rowss Hp Hrest IH];
    intros Hnd Hall.
  - cbn. split_and!; constructor.
  - apply NoDup_cons in Hnd as [Hc Hnd].
    apply Forall_cons in Hall as [Hn Hall]. cbn [fst snd] in Hn.
    destruct (IH Hnd Hall) as (IHnd & IHrows & IHlab & IHin).
    destruct Hp as (Hpnd & Hplab & Hplen & Hprows). cbn [fst snd] in *.
    cbn [concat blocks flat_map fst snd]. fold (blocks pairs).
    split_and!.
    + apply NoDup_app. split_and!; [done| |done].
      intros i Hi Hi'.
      pose proof (proj1 (Forall_forall _ _) Hplab i Hi) as Hl.
      pose proof (proj1 (Forall_forall _ _) IHin i Hi') as (c' & Hl' & Hc').
      cbn in Hl. assert (c' = c) as -> by congruence. done.
    + by apply Forall2_app.
    + apply Forall2_app; [|done].
      apply Forall2_replicate_r; [rewrite Hplen; lia|done].
    + apply Forall_app. split.
      * eapply Forall_impl; [exact Hplab|]. intros i Hi. exists c.
        split; [done|]. by left.
      * eapply Forall_impl; [exact IHin|]. intros i (c' & Hl' & Hc').
        exists c'. split; [done|]. by right.
Qed.

Lemma picks_short (targets_np : list Z) pairs :
  Forall (fun p => 0 <= p.2) pairs ->
  Exists (fun p => Dataset.class_count targets_np p.1 < p.2) pairs ->
  foldr (fun p acc =>
           Z.max 0 (Z.min p.2 (Dataset.class_count targets_np p.1)) + acc)
        0 pairs
  < Dataset.total_count pairs.
Proof.
  intros Hall Hex.
  assert (Hle : forall pairs, Forall (fun p => 0 <= p.2) pairs ->
    foldr (fun p acc =>
             Z.max 0 (Z.min p.2 (Dataset.class_count targets_np p.1)) + acc)
          0 pairs
    <= Dataset.total_count pairs).
  { induction 1 as [|p ps Hp Hps IH]; cbn; [done|].
    fold (Dataset.total_count ps). lia. }
  induction Hex as [p ps Hp|p ps Hex IH];
    apply Forall_cons in Hall as [Hn Hall]; cbn;
    fold (Dataset.total_count ps).
  - specialize (Hle ps Hall). unfold Dataset.class_count in *. lia.
  - specialize (IH Hall). lia.
Qed.
End ConstructionMore2.

(** X7. A target count above the number of samples of its class is not
    capped and no sample is repeated: the rows come out short, the closing
    [assert] raises, and [data] and [labels] have already been replaced by
    arrays of different lengths. *)
Theorem gen_imbalanced_data_insufficient {Img RNG : Type}
    (shuffle : RNG -> list nat -> list nat * RNG)
    (img_num_per_cls : list Z) (s : @Dataset.M2M_SVHN_LT Img RNG) :
  let pairs := zip (Dataset.np_unique (Dataset.labels s)) img_num_per_cls in
  (forall g l, (shuffle g l).1 ≡ₚ l) ->
  length (Dataset.data s) = length (Dataset.labels s) ->
  Forall (fun p => 0 <= p.2) pairs ->
  Exists (fun p => Dataset.class_count (Dataset.labels s) p.1 < p.2) pairs ->
  exists s',
    Dataset.gen_imbalanced_data shuffle img_num_per_cls s
    = (Raise (AssertionError
                "Length of data &             labels do not match!"), s')
    /\ Dataset.labels s' = blocks pairs
    /\ (length (Dataset.data s') < length (Dataset.labels s'))%nat.
Proof.
  intros pairs Hperm Hlen Hall Hex.
  assert (Hne : pairs <> []) by (intros Hnil; rewrite Hnil in Hex;
                                 by apply Exists_nil in Hex).
  destruct (gen_imbalanced_data_run shuffle Hperm img_num_per_cls s
              Hlen Hall Hne)
    as (idxss & rowss & s' & Hrun & Hpicks & Hd & Hl & _).
  fold pairs in Hrun, Hpicks, Hl.
  destruct (picks_rows_length _ _ _ _ _ Hpicks) as [Hrows _].
  pose proof (picks_short (Dataset.labels s) pairs Hall Hex) as Hshort.
  pose proof (blocks_length pairs Hall) as Hblocks.
  exists s'. rewrite Hrun, Hd, Hl.
  rewrite decide_False by lia. split_and!; [done..|lia].
Qed.

Lemma gen_imbalanced_data_insufficient_witness :
  exists s',
    Dataset.gen_imbalanced_data Examples.rev_shuffle [4; 1] Examples.svhn
    = (Raise (AssertionError
                "Length of data &             labels do not match!"), s')
    /\ Dataset.labels s'
       = blocks (zip (Dataset.np_unique (Dataset.labels Examples.svhn))
                     [4; 1])
    /\ (length (Dataset.data s') < length (Dataset.labels s'))%nat.
Proof.
  apply (gen_imbalanced_data_insufficient Examples.rev_shuffle [4; 1]
           Examples.svhn).
  - intros g l. symmetry. apply Permutation_rev.
  - reflexivity.
  - change (zip _ _) with [(0, 4); (1, 1)].
    repeat apply Forall_cons_2; [..|apply Forall_nil_2]; cbn; lia.
  - change (zip _ _) with [(0, 4); (1, 1)].
    apply Exists_cons_hd. unfold Dataset.class_count. cbn. lia.
Defined.

(** X8. A successful construction returns a sub-dataset: the retained rows
    are rows of the source, each with the label it had, and no sample is
    taken twice. *)
Theorem gen_imbalanced_data_samples {Img RNG : Type}
    (shuffle : RNG -> list nat -> list nat * RNG)
    (img_num_per_cls : list Z) (s s' : @Dataset.M2M_SVHN_LT Img RNG) :
  (forall g l, (shuffle g l).1 ≡ₚ l) ->
  length (Dataset.data s) = length (Dataset.labels s) ->
  Forall (fun p => 0 <= p.2 <= Dataset.class_count (Dataset.labels s) p.1)
         (zip (Dataset.np_unique (Dataset.labels s)) img_num_per_cls) ->
  Dataset.gen_imbalanced_data shuffle img_num_per_cls s = (Ok tt, s') ->
  exists idxs : list nat,
    NoDup idxs
    /\ Forall2 (fun i row => Dataset.data s !! i = Some row)
               idxs (Dataset.data s')
    /\ Forall2 (fun i label => Dataset.labels s !! i = Some label)
               idxs (Dataset.labels s').
Proof.
  intros Hperm Hlen Hall Hrun.
  set (pairs := zip (Dataset.np_unique (Dataset.labels s)) img_num_per_cls)
    in *.
  destruct (decide (pairs = [])) as [Hnil|Hne].
  { by rewrite (gen_imbalanced_data_empty shuffle _ _ Hnil) in Hrun. }
  assert (Hall0 : Forall (fun p => 0 <= p.2) pairs).
  { eapply Forall_impl; [exact Hall|]. cbn. lia. }
  destruct (gen_imbalanced_data_run shuffle Hperm img_num_per_cls s
              Hlen Hall0 Hne)
    as (idxss & rowss & s1 & Hrun1 & Hpicks & Hd & Hl & _).
  fold pairs in Hrun1, Hpicks, Hl.
  rewrite Hrun in Hrun1. injection Hrun1 as _ <-.
  destruct (picks_concat _ _ _ _ _ Hpicks) as (Hnd & Hrows & Hlab & _);
    [apply NoDup_zip_fst, np_unique_NoDup|done|].
  exists (concat idxss). by rewrite Hd, Hl.
Qed.

Lemma gen_imbalanced_data_samples_witness :
  exists idxs : list nat,
    NoDup idxs
    /\ Forall2 (fun i row => Dataset.data Examples.svhn !! i = Some row) idxs
         (Dataset.data
            (Dataset.gen_imbalanced_data Examples.rev_shuffle [2; 1]
               Examples.svhn).2)
    /\ Forall2 (fun i label => Dataset.labels Examples.svhn !! i = Some label)
         idxs
         (Dataset.labels
            (Dataset.gen_imbalanced_data Examples.rev_shuffle [2; 1]
               Examples.svhn).2).
Proof.
  apply (gen_imbalanced_data_samples Examples.rev_shuffle [2; 1]
           Examples.svhn).
  - intros g l. symmetry. apply Permutation_rev.
  - reflexivity.
  - change (zip _ _) with [(0, 2); (1, 1)].
    repeat apply Forall_cons_2; [..|apply Forall_nil_2];
      unfold Dataset.class_count; cbn; lia.
  - reflexivity.
Defined.

(** X9. After a successful construction the labels are the class blocks in
    ascending class order, one block of the target count per class, whatever
    the shuffle; [num_per_cls_dict] maps exactly the classes that received a
    count to their counts; [img_num_list] is untouched. *)
Theorem gen_imbalanced_data_layout {Img RNG : Type}
    (shuffle : RNG -> list nat -> list nat * RNG)
    (img_num_per_cls : list Z) (s s' : @Dataset.M2M_SVHN_LT Img RNG) :
  let pairs := zip (Dataset.np_unique (Dataset.labels s)) img_num_per_cls in
  (forall g l, (shuffle g l).1 ≡ₚ l) ->
  length (Dataset.data s) = length (Dataset.labels s) ->
  Forall (fun p => 0 <= p.2) pairs ->
  Dataset.gen_imbalanced_data shuffle img_num_per_cls s = (Ok tt, s') ->
  Dataset.labels s' = blocks pairs
  /\ StronglySorted Z.le (Dataset.labels s')
  /\ (forall c n, (c, n) ∈ pairs ->
        Dataset.num_per_cls_dict s' !! c = Some n)
  /\ (forall c, c ∉ pairs.*1 -> Dataset.num_per_cls_dict s' !! c = None)
  /\ Dataset.img_num_list s' = Dataset.img_num_list s.
Proof.
  intros pairs Hperm Hlen Hall Hrun.
  destruct (decide (pairs = [])) as [Hnil|Hne].
  { by rewrite (gen_imbalanced_data_empty shuffle _ _ Hnil) in Hrun. }
  destruct (gen_imbalanced_data_run shuffle Hperm img_num_per_cls s
              Hlen Hall Hne)
    as (idxss & rowss & s1 & Hrun1 & _ & _ & Hl & Hi & Hdict).
  fold pairs in Hrun1, Hl, Hdict.
  rewrite Hrun in Hrun1. injection Hrun1 as _ <-.
  assert (Hnd : NoDup pairs.*1) by apply NoDup_zip_fst, np_unique_NoDup.
  split_and!; [done| | | |done].
  - rewrite Hl. apply blocks_sorted, zip_fst_sorted, np_unique_sorted.
  - intros c n Hin. rewrite Hdict. by apply foldl_insert_elem.
  - intros c Hc. rewrite Hdict, foldl_insert_lookup by done.
    destruct (list_find _ pairs) as [[j p]|] eqn:Hfind; [|done].
    apply list_find_Some in Hfind as (Hj & Hp & _). exfalso. apply Hc.
    apply list_elem_of_fmap. exists p. split; [done|].
    by eapply list_elem_of_lookup_2.
Qed.

Lemma gen_imbalanced_data_layout_witness :
  Dataset.labels
    (Dataset.gen_imbalanced_data Examples.rev_shuffle [2; 1] Examples.svhn).2
  = blocks (zip (Dataset.np_unique (Dataset.labels Examples.svhn)) [2; 1])
  /\ StronglySorted Z.le
       (Dataset.labels
          (Dataset.gen_imbalanced_data Examples.rev_shuffle [2; 1]
             Examples.svhn).2).
Proof.
  assert (Hall : Forall (fun p : Z * Z => 0 <= p.2)
                   (zip (Dataset.np_unique (Dataset.labels Examples.svhn))
                        [2; 1])).
  { change (zip _ _) with [(0, 2); (1, 1)].
    repeat apply Forall_cons_2; [..|apply Forall_nil_2]; cbn; lia. }
  pose proof (gen_imbalanced_data_layout Examples.rev_shuffle [2; 1]
                Examples.svhn
                (Dataset.gen_imbalanced_data Examples.rev_shuffle [2; 1]
                   Examples.svhn).2
                (fun g l => Permutation_sym (Permutation_rev l))
                eq_refl Hall eq_refl) as (Hl & Hs & _).
  split; [exact Hl|exact Hs].
Defined.

(** ** [change_order_class] *)

Lemma group_snd {Img : Type} (c : Z) (data : list Img) (targets : list Z) :
  (group c (zip data targets)).*2
  = replicate (length (group c (zip data targets))) c.
Proof.
  unfold group. induction (zip data targets) as [|[x t] l IH]; [done|].
  cbn. destruct (Z.eqb_spec t c) as [->|]; cbn; [by f_equal|done].
Qed.

Lemma group_length {Img : Type} (c : Z) (data : list Img) (targets : list Z) :
  length data = length targets ->
  Z.of_nat (length (group c (zip data targets)))
  = Dataset.class_count targets c.
Proof.
  unfold group, Dataset.class_count. revert targets.
  induction data as [|x data IH]; intros [|t ts] Hlen; try done.
  cbn. injection Hlen as Hlen. specialize (IH ts Hlen).
  destruct (t =? c); cbn; lia.
Qed.

Lemma fancy_where_from {Img : Type} (c : Z) (targets : list Z) :
  forall (pre data acc : list Img),
  length data = length targets ->
  for_each (fun rows i => match (pre ++ data) !! i with
                          | Some row => Ok (rows ++ [row])
                          | None => Raise IndexError
                          end)
           acc (Dataset.where_from (length pre) targets c)
  = Ok (acc ++ (group c (zip data targets)).*1).
Proof.
  induction targets as [|t ts IH]; intros pre [|x data] acc Hlen; try done.
  - cbn. by rewrite app_nil_r.
  - injection Hlen as Hlen. cbn [Dataset.where_from zip zip_with].
    specialize (IH (pre ++ [x]) data).
    rewrite length_app, Nat.add_1_r in IH. rewrite <- app_assoc in IH.
    cbn [app] in IH. unfold group. cbn [List.filter snd].
    destruct (t =? c); cbn [for_each fmap list_fmap fst].
    + rewrite list_lookup_middle by done. rewrite IH by done.
      by rewrite <- app_assoc.
    + by rewrite IH.
Qed.

Lemma fancy_index_where {Img : Type} (c : Z) (data : list Img)
    (targets : list Z) :
  length data = length targets ->
  Dataset.fancy_index data (Dataset.np_where_eq targets c)
  = Ok (group c (zip data targets)).*1.
Proof.
  intros Hlen. unfold Dataset.fancy_index, Dataset.np_where_eq.
  exact (fancy_where_from c targets [] data [] Hlen).
Qed.

Lemma zip_map_self {B C : Type} (f : B -> C) (l : list B) :
  zip l (map f l) = map (fun x => (x, f x)) l.
Proof. induction l as [|x l IH]; cbn; [done|]. by rewrite IH. Qed.

Lemma group_filter_ne {Img : Type} (c c' : Z) (samples : list (Img * Z)) :
  c <> c' ->
  group c' (List.filter (fun p => negb (p.2 =? c)) samples) = group c' samples.
Proof.
  intros Hne. unfold group. induction samples as [|[x t] l IH]; [done|].
  cbn. destruct (Z.eqb_spec t c) as [->|Htc]; cbn.
  - destruct (Z.eqb_spec c c'); [done|]. exact IH.
  - destruct (t =? c'); [by rewrite IH|exact IH].
Qed.

Lemma filter_partition_perm {B : Type} (f : B -> bool) (l : list B) :
  List.filter f l ++ List.filter (fun x => negb (f x)) l ≡ₚ l.
Proof.
  induction l as [|x l IH]; [done|]. cbn. destruct (f x); cbn.
  - by constructor.
  - rewrite <- Permutation_middle. by constructor.
Qed.

(** Grouping by class is a rearrangement of the samples. *)
Lemma groups_perm {Img : Type} (classes : list Z) :
  forall samples : list (Img * Z),
  NoDup classes ->
  Forall (fun p => p.2 ∈ classes) samples ->
  flat_map (fun c => group c samples) classes ≡ₚ samples.
Proof.
  induction classes as [|c cs IH]; intros samples Hnd Hall.
  - destruct samples as [|p l]; [done|].
    apply Forall_cons in Hall as [Hp _]. by apply elem_of_nil in Hp.
  - apply NoDup_cons in Hnd as [Hc Hnd]. cbn [flat_map].
    etransitivity;
      [|apply (filter_partition_perm (fun p => p.2 =? c) samples)].
    apply Permutation_app; [done|].
    rewrite <- (IH (List.filter (fun p => negb (p.2 =? c)) samples) Hnd).
    + clear -Hc. induction cs as [|c' cs IH]; [done|]. cbn [flat_map].
      rewrite group_filter_ne by (intros ->; apply Hc; by left).
      rewrite IH; [done|]. intros Hin. apply Hc. by right.
    + apply Forall_forall. intros p Hp%list_elem_of_In%filter_In.
      destruct Hp as [Hp Hne]. apply list_elem_of_In in Hp.
      pose proof (proj1 (Forall_forall _ _) Hall p Hp) as Hin.
      apply elem_of_cons in Hin as [Heq|Hin]; [|done].
      rewrite Heq, Z.eqb_refl in Hne. done.
Qed.

Lemma np_unique_elem (targets : list Z) (c : Z) :
  c ∈ Dataset.np_unique targets <-> c ∈ targets.
Proof.
  induction targets as [|t ts IH]; [done|].
  change (Dataset.np_unique (t :: ts))
    with (Dataset.insert_sorted t (Dataset.np_unique ts)).
  rewrite insert_sorted_elem, elem_of_cons, IH. done.
Qed.

Lemma zip_groups {Img : Type} (samples : list (Img * Z)) (classes : list Z) :
  zip (concat (map (fun c => (group c samples).*1) classes))
      (flat_map (fun c => (group c samples).*2) classes)
  = flat_map (fun c => group c samples) classes.
Proof.
  induction classes as [|c cs IH]; [done|]. cbn [map concat flat_map].
  rewrite zip_with_app by (by rewrite !length_fmap).
  rewrite IH. f_equal. apply zip_fst_snd.
Qed.

Lemma dict_sum_foldl (pairs : list (Z * Z)) (m : gmap Z Z) :
  NoDup pairs.*1 ->
  (forall c, c ∈ pairs.*1 -> m !! c = None) ->
  Dataset.dict_sum (foldl (fun m p => <[p.1 := p.2]> m) m pairs)
  = Dataset.dict_sum m + Dataset.total_count pairs.
Proof.
  revert m. induction pairs as [|[c n] pairs IH]; intros m Hnd Hfresh.
  - cbn. lia.
  - apply NoDup_cons in Hnd as [Hc Hnd]. cbn [foldl fst snd].
    rewrite IH; [|done|].
    + rewrite dict_sum_insert by (apply Hfresh; by left).
      cbn [Dataset.total_count foldr snd]. fold (Dataset.total_count pairs).
      lia.
    + intros c' Hc'. rewrite lookup_insert_ne by (by intros ->).
      apply Hfresh. by right.
Qed.

Section ChangeOrder.
Context {Img RNG : Type}.
Implicit Types (s : @Dataset.M2M_SVHN_LT Img RNG).

Lemma rotated_zip (targets : list Z) :
  zip (drop 1 (Dataset.np_unique targets) ++ take 1 (Dataset.np_unique targets))
      (drop 1 (np_unique_counts targets) ++ take 1 (np_unique_counts targets))
  = rotated_pairs targets.
Proof.
  unfold np_unique_counts, rotated_pairs.
  rewrite <- !fmap_drop, <- !fmap_take.
  change (@fmap list _ Z Z) with (@map Z Z). rewrite <- map_app.
  rewrite zip_map_self. apply map_ext. intros c. f_equal.
  unfold Dataset.np_where_eq, Dataset.class_count.
  destruct (where_from_spec 0 targets c) as [-> _]. done.
Qed.

Lemma change_body_ok (targets_np : list Z) (new_data : list (list Img))
    (new_targets : list Z) (c : Z) s :
  length (Dataset.data s) = length targets_np ->
  let samples := zip (Dataset.data s) targets_np in
  change_body targets_np (new_data, new_targets)
              (c, Dataset.class_count targets_np c) s
  = (Ok (new_data ++ [(group c samples).*1],
         new_targets ++ (group c samples).*2),
     Dataset.set_num_per_cls_dict
       <[c := Dataset.class_count targets_np c]> s).
Proof.
  intros Hlen samples.
  unfold change_body, mbind, method_bind, modify, get, lift, mret, method_ret.
  cbn [Dataset.set_num_per_cls_dict Dataset.data].
  assert (Hslice : slice_to (Dataset.np_where_eq targets_np c)
                            (Dataset.class_count targets_np c)
                   = Dataset.np_where_eq targets_np c).
  { unfold slice_to, Dataset.class_count. rewrite decide_True by lia.
    apply take_ge. destruct (where_from_spec 0 targets_np c) as [Hc _].
    unfold Dataset.np_where_eq. lia. }
  rewrite Hslice, (fancy_index_where c _ _ Hlen).
  fold samples. do 3 f_equal. unfold samples, list_mul.
  rewrite group_snd.
  pose proof (group_length c (Dataset.data s) targets_np Hlen) as Hg.
  by rewrite <- Hg, Nat2Z.id.
Qed.

Lemma change_loop_ok (targets_np : list Z) (classes : list Z) :
  forall (new_data : list (list Img)) (new_targets : list Z) s,
  length (Dataset.data s) = length targets_np ->
  let samples := zip (Dataset.data s) targets_np in
  let pairs := map (fun c => (c, Dataset.class_count targets_np c)) classes in
  exists s',
    for_loop (change_body targets_np) (new_data, new_targets) pairs s
    = (Ok (new_data ++ map (fun c => (group c samples).*1) classes,
           new_targets ++ flat_map (fun c => (group c samples).*2) classes),
       s')
    /\ Dataset.data s' = Dataset.data s
    /\ Dataset.labels s' = Dataset.labels s
    /\ Dataset.np_random s' = Dataset.np_random s
    /\ Dataset.num_per_cls_dict s'
       = foldl (fun m p => <[p.1 := p.2]> m) (Dataset.num_per_cls_dict s)
               pairs.
Proof.
  induction classes as [|c cs IH]; intros new_data new_targets s Hlen.
  - exists s. cbn. by rewrite !app_nil_r.
  - cbn [map for_loop]. unfold mbind at 1, method_bind at 1.
    rewrite change_body_ok by done.
    destruct (IH (new_data ++ [(group c (zip (Dataset.data s) targets_np)).*1])
                 (new_targets ++ (group c (zip (Dataset.data s) targets_np)).*2)
                 (Dataset.set_num_per_cls_dict
                    <[c := Dataset.class_count targets_np c]> s) Hlen)
      as (s' & -> & Hd & Hl & Hg & Hdict).
    exists s'. cbn [flat_map]. rewrite <- !app_assoc. by split_and!.
Qed.
End ChangeOrder.

Lemma rotate_perm {B : Type} (l : list B) : drop 1 l ++ take 1 l ≡ₚ l.
Proof. rewrite Permutation_app_comm. by rewrite take_drop. Qed.

Lemma groups_blocks {Img : Type} (data : list Img) (targets : list Z)
    (classes : list Z) :
  length data = length targets ->
  flat_map (fun c => (group c (zip data targets)).*2) classes
  = blocks (map (fun c => (c, Dataset.class_count targets c)) classes).
Proof.
  intros Hlen. induction classes as [|c cs IH]; [done|].
  cbn [flat_map map blocks fst snd]. fold (blocks (map (fun c => (c, Dataset.class_count targets c)) cs)).
  rewrite IH, group_snd. do 2 f_equal.
  pose proof (group_length c data targets Hlen). lia.
Qed.

Section ChangeOrder2.
Context {Img RNG : Type}.
Implicit Types (s : @Dataset.M2M_SVHN_LT Img RNG).

Lemma concat_groups_fst (samples : list (Img * Z)) (classes : list Z) :
  concat (map (fun c => (group c samples).*1) classes)
  = (flat_map (fun c => group c samples) classes).*1.
Proof.
  induction classes as [|c cs IH]; [done|]. cbn [map concat flat_map].
  by rewrite fmap_app, IH.
Qed.

Lemma flat_groups_snd (samples : list (Img * Z)) (classes : list Z) :
  flat_map (fun c => (group c samples).*2) classes
  = (flat_map (fun c => group c samples) classes).*2.
Proof.
  induction classes as [|c cs IH]; [done|]. cbn [flat_map].
  by rewrite fmap_app, IH.
Qed.

Lemma change_order_class_run s :
  length (Dataset.data s) = length (Dataset.labels s) ->
  change_order_class s
  = if decide (Dataset.labels s = []) then
      (Raise (ValueError "need at least one array to concatenate"),
       Dataset.set_num_per_cls_dict (fun _ => ∅) s)
    else (Ok tt, reordered s).
Proof.
  intros Hlen. unfold change_order_class.
  unfold mbind at 1 2, method_bind at 1 2, get, modify.
  cbn [Dataset.set_num_per_cls_dict Dataset.labels].
  case_decide as Hnil; [by rewrite Hnil|].
  rewrite rotated_zip. unfold rotated_pairs.
  set (classes := drop 1 (Dataset.np_unique (Dataset.labels s))
                  ++ take 1 (Dataset.np_unique (Dataset.labels s))).
  destruct (change_loop_ok (Dataset.labels s) classes [] []
              (Dataset.set_num_per_cls_dict (fun _ => ∅) s) Hlen)
    as (s1 & Hloop & Hd & Hl & Hg & Hdict).
  cbn [Dataset.set_num_per_cls_dict Dataset.data Dataset.labels
       Dataset.num_per_cls_dict Dataset.np_random app]
    in Hloop, Hd, Hl, Hg, Hdict.
  unfold mbind at 1, method_bind at 1. rewrite Hloop.
  unfold mbind, method_bind, lift, modify, mret, method_ret, raise.
  assert (Hne : classes <> []).
  { intros Hc. apply Hnil, np_unique_nil, Permutation_nil_r.
    rewrite <- (rotate_perm _). fold classes. by rewrite Hc. }
  assert (Hvs : forall blocks : list (list Img),
            length blocks = length classes ->
            Dataset.np_vstack blocks = Ok (concat blocks)).
  { intros [|b bs] Hb; [|done]. by destruct classes. }
  rewrite Hvs by (by rewrite length_map).
  rewrite concat_groups_fst, flat_groups_snd.
  rewrite decide_True by (by rewrite !length_fmap).
  f_equal. unfold reordered, rotated_pairs. fold classes.
  unfold np_unique_counts.
  rewrite <- !fmap_drop, <- !fmap_take.
  change (@fmap list _ Z Z) with (@map Z Z). rewrite <- map_app.
  fold classes.
  destruct s1; cbn in *. subst.
  unfold set_img_num_list, Dataset.set_data_labels. cbn. f_equal.
  rewrite <- list_fmap_compose. apply map_ext. intros c'. cbn.
  unfold Dataset.np_where_eq, Dataset.class_count.
  by destruct (where_from_spec 0 (Dataset.labels s) c') as [-> _].
Qed.
End ChangeOrder2.

Section ChangeOrder3.
Context {Img RNG : Type}.
Implicit Types (s : @Dataset.M2M_SVHN_LT Img RNG).

Lemma rotated_NoDup (targets : list Z) :
  NoDup (drop 1 (Dataset.np_unique targets) ++ take 1 (Dataset.np_unique targets)).
Proof. rewrite rotate_perm. apply np_unique_NoDup. Qed.

Lemma rotated_elem (targets : list Z) (c : Z) :
  c ∈ drop 1 (Dataset.np_unique targets) ++ take 1 (Dataset.np_unique targets)
  <-> c ∈ targets.
Proof. rewrite rotate_perm. apply np_unique_elem. Qed.

Lemma rotated_pairs_fst (targets : list Z) :
  (rotated_pairs targets).*1
  = drop 1 (Dataset.np_unique targets) ++ take 1 (Dataset.np_unique targets).
Proof.
  unfold rotated_pairs.
  induction (drop 1 _ ++ take 1 _) as [|c l IH]; [done|].
  cbn. f_equal. apply IH.
Qed.

Lemma reordered_zip s :
  zip (Dataset.data (reordered s)) (Dataset.labels (reordered s))
  = flat_map (fun c => group c (zip (Dataset.data s) (Dataset.labels s)))
      (drop 1 (Dataset.np_unique (Dataset.labels s))
       ++ take 1 (Dataset.np_unique (Dataset.labels s))).
Proof. cbn. apply zip_fst_snd. Qed.

Lemma reordered_perm s :
  length (Dataset.data s) = length (Dataset.labels s) ->
  zip (Dataset.data (reordered s)) (Dataset.labels (reordered s))
  ≡ₚ zip (Dataset.data s) (Dataset.labels s).
Proof.
  intros Hlen. rewrite reordered_zip. apply groups_perm.
  - apply rotated_NoDup.
  - apply Forall_forall. intros [x t] Hin. cbn. apply rotated_elem.
    by apply elem_of_zip_r in Hin.
Qed.

Lemma reordered_labels s :
  length (Dataset.data s) = length (Dataset.labels s) ->
  Dataset.labels (reordered s) = blocks (rotated_pairs (Dataset.labels s)).
Proof.
  intros Hlen. cbn. rewrite <- flat_groups_snd. by apply groups_blocks.
Qed.

Lemma reordered_labels_perm s :
  length (Dataset.data s) = length (Dataset.labels s) ->
  Dataset.labels (reordered s) ≡ₚ Dataset.labels s.
Proof.
  intros Hlen. pose proof (reordered_perm s Hlen) as Hp.
  apply (fmap_Permutation snd) in Hp.
  rewrite !snd_zip in Hp; [done|lia|].
  cbn. by rewrite !length_fmap.
Qed.

Lemma rotated_pairs_nonneg (targets : list Z) :
  Forall (fun p => 0 <= p.2) (rotated_pairs targets).
Proof.
  apply Forall_map, Forall_forall. intros c _. cbn.
  unfold Dataset.class_count. lia.
Qed.
End ChangeOrder3.

(** X10. [change_order_class] only rearranges the dataset: every sample is
    kept once with the label it had; on an empty dataset it raises the
    [ValueError] of [np.vstack]. *)
Theorem change_order_class_permutes {Img RNG : Type}
    (s : @Dataset.M2M_SVHN_LT Img RNG) :
  length (Dataset.data s) = length (Dataset.labels s) ->
  match change_order_class s with
  | (Ok _, s') =>
      zip (Dataset.data s') (Dataset.labels s')
      ≡ₚ zip (Dataset.data s) (Dataset.labels s)
      /\ length (Dataset.data s') = length (Dataset.labels s')
      /\ length (Dataset.labels s') = length (Dataset.labels s)
      /\ Dataset.np_random s' = Dataset.np_random s
  | (Raise e, _) =>
      e = ValueError "need at least one array to concatenate"
      /\ Dataset.labels s = []
  end.
Proof.
  intros Hlen. rewrite (change_order_class_run s Hlen).
  case_decide as Hnil; [done|].
  split_and!; [by apply reordered_perm| | |done].
  - cbn. by rewrite !length_fmap.
  - by rewrite (reordered_labels_perm s Hlen).
Qed.

Lemma change_order_class_permutes_witness :
  match change_order_class Examples.svhn with
  | (Ok _, s') =>
      zip (Dataset.data s') (Dataset.labels s')
      ≡ₚ zip (Dataset.data Examples.svhn) (Dataset.labels Examples.svhn)
      /\ length (Dataset.data s') = length (Dataset.labels s')
      /\ length (Dataset.labels s') = length (Dataset.labels Examples.svhn)
      /\ Dataset.np_random s' = Dataset.np_random Examples.svhn
  | (Raise e, _) =>
      e = ValueError "need at least one array to concatenate"
      /\ Dataset.labels Examples.svhn = []
  end.
Proof. apply (change_order_class_permutes Examples.svhn). reflexivity. Defined.

(** X11. After [change_order_class] the labels are one block per class, the
    classes in ascending order except that the smallest comes last;
    [num_per_cls_dict] maps every class to its number of samples and sums to
    the size of the dataset, and [img_num_list] lists these numbers in the
    order of the blocks. *)
Theorem change_order_class_layout {Img RNG : Type}
    (s s' : @Dataset.M2M_SVHN_LT Img RNG) :
  length (Dataset.data s) = length (Dataset.labels s) ->
  change_order_class s = (Ok tt, s') ->
  Dataset.labels s' = blocks (rotated_pairs (Dataset.labels s))
  /\ Dataset.img_num_list s' = (rotated_pairs (Dataset.labels s)).*2
  /\ (forall c,
        Dataset.num_per_cls_dict s' !! c
        = if decide (c ∈ Dataset.labels s)
          then Some (Dataset.class_count (Dataset.labels s) c) else None)
  /\ Dataset.dict_sum (Dataset.num_per_cls_dict s')
     = Z.of_nat (length (Dataset.labels s)).
Proof.
  intros Hlen Hrun. rewrite (change_order_class_run s Hlen) in Hrun.
  case_decide as Hnil; [done|]. injection Hrun as <-.
  assert (Hnd : NoDup (rotated_pairs (Dataset.labels s)).*1).
  { rewrite rotated_pairs_fst. apply rotated_NoDup. }
  split_and!; [by apply reordered_labels|done| |].
  - intros c. cbn [reordered Dataset.num_per_cls_dict]. case_decide as Hc.
    + apply foldl_insert_elem; [done|].
      apply list_elem_of_fmap. exists c. split; [done|]. by apply rotated_elem.
    + rewrite foldl_insert_lookup by done.
      destruct (list_find _ _) as [[j p]|] eqn:Hfind; [|done].
      apply list_find_Some in Hfind as (Hj & Hp & _). exfalso. apply Hc.
      apply rotated_elem. rewrite <- rotated_pairs_fst.
      apply list_elem_of_fmap. exists p. split; [done|].
      by eapply list_elem_of_lookup_2.
  - cbn [reordered Dataset.num_per_cls_dict].
    rewrite dict_sum_foldl by (done || intros; apply lookup_empty).
    unfold Dataset.dict_sum at 1. rewrite map_fold_empty.
    rewrite <- blocks_length by apply rotated_pairs_nonneg.
    rewrite <- (reordered_labels s Hlen).
    by rewrite (reordered_labels_perm s Hlen).
Qed.

Lemma change_order_class_layout_witness :
  Dataset.labels (change_order_class Examples.svhn).2
  = blocks (rotated_pairs (Dataset.labels Examples.svhn))
  /\ Dataset.img_num_list (change_order_class Examples.svhn).2
     = (rotated_pairs (Dataset.labels Examples.svhn)).*2.
Proof.
  pose proof (change_order_class_layout Examples.svhn
                (change_order_class Examples.svhn).2 eq_refl eq_refl)
    as (Hl & Hi & _).
  split; [exact Hl|exact Hi].
Defined.

(** ** Reading the class counts back *)

Section ClsNumList.
Context {Img RNG : Type}.
Implicit Types (self : @Dataset.M2M_SVHN_LT Img RNG).

Lemma get_cls_num_list_S (n : nat) self :
  get_cls_num_list (S n) self
  = match get_cls_num_list n self with
    | inr l =>
        match Dataset.num_per_cls_dict self !! Z.of_nat n with
        | Some v => inr (l ++ [v])
        | None => inl (KeyError (Z.of_nat n))
        end
    | inl e => inl e
    end.
Proof. unfold get_cls_num_list. by rewrite seq_S, foldl_app. Qed.

Lemma get_cls_num_list_ok (n : nat) self (l : list Z) :
  length l = n ->
  (forall i, (i < n)%nat ->
     Dataset.num_per_cls_dict self !! Z.of_nat i = l !! i) ->
  get_cls_num_list n self = inr l.
Proof.
  revert l. induction n as [|n IH]; intros l Hlen Hl.
  - by destruct l.
  - destruct (decide (l = [])) as [->|Hne]; [done|].
    destruct (exists_last Hne) as (l' & v & ->).
    rewrite length_app in Hlen. cbn in Hlen.
    rewrite get_cls_num_list_S, (IH l'); [|lia|].
    + rewrite (Hl n) by lia.
      by rewrite lookup_app_r, (proj2 (Nat.sub_0_le _ _)) by lia.
    + intros i Hi. rewrite (Hl i) by lia. by rewrite lookup_app_l by lia.
Qed.

Lemma get_cls_num_list_missing (n k : nat) self :
  (k < n)%nat ->
  Dataset.num_per_cls_dict self !! Z.of_nat k = None ->
  (forall j, (j < k)%nat ->
     is_Some (Dataset.num_per_cls_dict self !! Z.of_nat j)) ->
  get_cls_num_list n self = inl (KeyError (Z.of_nat k)).
Proof.
  intros Hk Hnone Hsome.
  assert (Hpre : exists l, get_cls_num_list k self = inr l).
  { clear Hk Hnone. induction k as [|k IH]; [by exists []|].
    destruct IH as [l Hl]; [intros j Hj; apply Hsome; lia|].
    destruct (Hsome k) as [v Hv]; [lia|].
    exists (l ++ [v]). by rewrite get_cls_num_list_S, Hl, Hv. }
  destruct Hpre as [l Hl].
  induction n as [|n IH]; [lia|].
  rewrite get_cls_num_list_S.
  destruct (decide (k = n)) as [->|Hne]; [by rewrite Hl, Hnone|].
  rewrite IH by lia. done.
Qed.
End ClsNumList.

(** X12. [get_cls_num_list] returns the dict's values at the keys
    [0 .. cls_num - 1], in this order; the first of these keys the dict does
    not hold raises [KeyError], whatever other keys it holds. *)
Theorem get_cls_num_list_keys {Img RNG : Type} (cls_num : nat)
    (self : @Dataset.M2M_SVHN_LT Img RNG) :
  match get_cls_num_list cls_num self with
  | inr l =>
      length l = cls_num
      /\ forall i, (i < cls_num)%nat ->
           Dataset.num_per_cls_dict self !! Z.of_nat i = l !! i
  | inl (KeyError k) =>
      0 <= k < Z.of_nat cls_num
      /\ Dataset.num_per_cls_dict self !! k = None
      /\ forall j, 0 <= j < k ->
           is_Some (Dataset.num_per_cls_dict self !! j)
  end.
Proof.
  induction cls_num as [|n IH]; [split; [done|lia]|].
  rewrite get_cls_num_list_S.
  destruct (get_cls_num_list n self) as [[k]|l].
  - destruct IH as (Hk & Hnone & Hsome). split_and!; (done || lia).
  - destruct IH as [Hlen Hl].
    destruct (Dataset.num_per_cls_dict self !! Z.of_nat n) as [v|] eqn:Hv.
    + split; [rewrite length_app; cbn; lia|].
      intros i Hi. destruct (decide (i = n)) as [->|Hne].
      * by rewrite Hv, lookup_app_r, (proj2 (Nat.sub_0_le _ _)) by lia.
      * rewrite lookup_app_l by lia. apply Hl. lia.
    + split_and!; [lia|lia|done|].
      intros j Hj. rewrite <- (Z2Nat.id j) by lia.
      rewrite Hl by lia. apply lookup_lt_is_Some. lia.
Qed.

(** ** The constructor and the counts read back *)

Lemma foldl_insert_notin (pairs : list (Z * Z)) (m : gmap Z Z) (c : Z) :
  c ∉ pairs.*1 ->
  foldl (fun m p => <[p.1 := p.2]> m) m pairs !! c = m !! c.
Proof.
  revert m. induction pairs as [|[c' n] pairs IH]; intros m Hc; [done|].
  cbn in Hc. apply not_elem_of_cons in Hc as [Hne Hc].
  cbn [foldl fst snd]. rewrite IH by done. by rewrite lookup_insert_ne.
Qed.

Lemma foldl_insert_zip (keys counts : list Z) (i : nat) (c : Z) :
  NoDup keys -> keys !! i = Some c ->
  foldl (fun m p => <[p.1 := p.2]> m) (∅ : gmap Z Z) (zip keys counts) !! c
  = counts !! i.
Proof.
  intros Hnd Hc. destruct (counts !! i) as [n|] eqn:Hn.
  - apply foldl_insert_elem; [by apply NoDup_zip_fst|].
    apply (list_elem_of_lookup_2 _ i).
    rewrite lookup_zip_with, Hc. cbn. by rewrite Hn.
  - rewrite foldl_insert_notin; [done|].
    intros Hin. apply list_elem_of_lookup_1 in Hin as [j Hj].
    rewrite list_lookup_fmap, lookup_zip_with in Hj.
    destruct (keys !! j) as [c'|] eqn:Hc'; [|done]. cbn in Hj.
    destruct (counts !! j) as [n|] eqn:Hn'; [|done]. cbn in Hj.
    injection Hj as ->.
    assert (j = i) as -> by (by eapply NoDup_lookup).
    congruence.
Qed.

Lemma np_unique_perm (l l' : list Z) :
  l ≡ₚ l' -> Dataset.np_unique l = Dataset.np_unique l'.
Proof.
  intros Hp.
  apply (StronglySorted_unique_strong Z.lt); [|apply np_unique_sorted..|].
  - intros; lia.
  - apply NoDup_Permutation; [apply np_unique_NoDup..|].
    intros c. rewrite !np_unique_elem. by rewrite Hp.
Qed.

Lemma class_count_perm (l l' : list Z) (c : Z) :
  l ≡ₚ l' -> Dataset.class_count l c = Dataset.class_count l' c.
Proof.
  unfold Dataset.class_count.
  induction 1 as [|x l l' Hp IH|x y l|l l' l'' _ IH1 _ IH2]; [done| | |lia].
  - cbn. destruct (x =? c); cbn; lia.
  - cbn. destruct (x =? c), (y =? c); cbn; lia.
Qed.


Lemma omap_lookup_seq {B : Type} (l : list B) :
  omap (fun i => l !! i) (seq 0 (length l)) = l.
Proof.
  induction l as [|x l IH] using rev_ind; [done|].
  rewrite length_app. cbn [length].
  rewrite Nat.add_1_r, seq_S, omap_app. cbn.
  rewrite lookup_app_r, Nat.sub_diag by lia. cbn. f_equal.
  rewrite <- IH at 2. apply list_omap_ext, Forall_Forall2_diag, Forall_forall.
  intros i Hi%elem_of_seq. by rewrite lookup_app_l by lia.
Qed.


Section Constructor.
Context {Img RNG : Type}.
Variable shuffle : RNG -> list nat -> list nat * RNG.
Variable seed : Z -> RNG.
Hypothesis shuffle_perm : forall g l, (shuffle g l).1 ≡ₚ l.
Implicit Types (s : @Dataset.M2M_SVHN_LT Img RNG).



End Constructor.

(** X13. After a successful [gen_imbalanced_data] on a dataset whose classes
    are [0 .. k-1], [get_cls_num_list] reads the target counts back: the
    first [cls_num] of them, or [KeyError] at the first class that has no
    sample or received no count. *)
Theorem get_cls_num_list_after_gen {Img RNG : Type}
    (shuffle : RNG -> list nat -> list nat * RNG)
    (img_num_per_cls : list Z) (cls_num k : nat)
    (s s' : @Dataset.M2M_SVHN_LT Img RNG) :
  (forall g l, (shuffle g l).1 ≡ₚ l) ->
  length (Dataset.data s) = length (Dataset.labels s) ->
  Dataset.np_unique (Dataset.labels s) = Z.of_nat <$> seq 0 k ->
  Forall (fun n => 0 <= n) img_num_per_cls ->
  Dataset.gen_imbalanced_data shuffle img_num_per_cls s = (Ok tt, s') ->
  get_cls_num_list cls_num s'
  = if decide (cls_num <= k `min` length img_num_per_cls)%nat
    then inr (take cls_num img_num_per_cls)
    else inl (KeyError (Z.of_nat (k `min` length img_num_per_cls))).
Proof.
  intros Hperm Hlen Hcls Hall Hrun.
  set (pairs := zip (Dataset.np_unique (Dataset.labels s)) img_num_per_cls).
  destruct (decide (pairs = [])) as [Hnil|Hne].
  { by rewrite (gen_imbalanced_data_empty shuffle _ _ Hnil) in Hrun. }
  assert (Hall0 : Forall (fun p => 0 <= p.2) pairs).
  { apply Forall_forall. intros [c n] Hin. apply elem_of_zip_r in Hin.
    exact (proj1 (Forall_forall _ _) Hall n Hin). }
  destruct (gen_imbalanced_data_run shuffle Hperm img_num_per_cls s
              Hlen Hall0 Hne)
    as (idxss & rowss & s1 & Hrun1 & _ & _ & _ & _ & Hdict).
  rewrite Hrun in Hrun1. injection Hrun1 as _ <-.
  assert (Hlook : forall i,
            Dataset.num_per_cls_dict s' !! Z.of_nat i
            = if decide (i < k)%nat then img_num_per_cls !! i else None).
  { intros i. rewrite Hdict, Hcls. case_decide as Hi.
    - apply foldl_insert_zip.
      + apply (NoDup_fmap_2 _), NoDup_seq.
      + rewrite list_lookup_fmap, lookup_seq_lt by done. done.
    - apply foldl_insert_notin. intros Hin.
      apply list_elem_of_fmap in Hin as ([c n] & Hc & Hin). cbn in Hc.
      apply elem_of_zip_l, list_elem_of_fmap in Hin as (j & -> & Hj).
      apply elem_of_seq in Hj. lia. }
  case_decide as Hn.
  - apply get_cls_num_list_ok; [rewrite length_take; lia|].
    intros i Hi. rewrite Hlook, decide_True by lia.
    by rewrite lookup_take_lt.
  - apply get_cls_num_list_missing; [lia| |].
    + rewrite Hlook. case_decide; [|done]. apply lookup_ge_None. lia.
    + intros j Hj. rewrite Hlook, decide_True by lia.
      apply lookup_lt_is_Some. lia.
Qed.

Lemma get_cls_num_list_after_gen_witness :
  get_cls_num_list 2
    (Dataset.gen_imbalanced_data Examples.rev_shuffle [2; 1] Examples.svhn).2
  = if decide (2 <= 2 `min` length [2; 1])%nat
    then inr (take 2 [2; 1])
    else inl (KeyError (Z.of_nat (2 `min` length [2; 1]))).
Proof.
  apply (get_cls_num_list_after_gen Examples.rev_shuffle [2; 1] 2 2
           Examples.svhn).
  - intros g l. symmetry. apply Permutation_rev.
  - reflexivity.
  - reflexivity.
  - repeat apply Forall_cons_2; [..|apply Forall_nil_2]; lia.
  - reflexivity.
Defined.





(** ** Reordering twice, and the counts read back after reordering *)

Lemma group_group {Img : Type} (c c' : Z) (samples : list (Img * Z)) :
  group c (group c' samples)
  = if decide (c = c') then group c samples else [].
Proof.
  destruct (decide (c = c')) as [->|Hne]; unfold group;
    induction samples as [|[x t] l IH]; try done; cbn [List.filter snd].
  - destruct (t =? c') eqn:E; cbn [List.filter snd]; rewrite ?E, IH; done.
  - destruct (t =? c') eqn:E; cbn [List.filter snd]; [|done].
    apply Z.eqb_eq in E. subst t.
    destruct (Z.eqb_spec c' c); [congruence|done].
Qed.

Lemma group_flat_groups {Img : Type} (c : Z) (samples : list (Img * Z))
    (classes : list Z) :
  NoDup classes ->
  group c (flat_map (fun c' => group c' samples) classes)
  = if decide (c ∈ classes) then group c samples else [].
Proof.
  induction 1 as [|c0 cs Hc0 Hnd IH].
  - by rewrite decide_False by apply not_elem_of_nil.
  - cbn [flat_map]. unfold group at 1. rewrite List.filter_app.
    fold (group c (group c0 samples)).
    fold (group c (flat_map (fun c' => group c' samples) cs)).
    rewrite group_group, IH.
    destruct (decide (c = c0)) as [->|Hne].
    + rewrite decide_False by done. rewrite decide_True by (by left).
      by rewrite app_nil_r.
    + cbn [app]. case_decide as Hin.
      * by rewrite decide_True by (by right).
      * rewrite decide_False; [done|].
        intros [?|?]%elem_of_cons; done.
Qed.

Lemma regroup {Img : Type} (samples : list (Img * Z)) (classes cs : list Z) :
  NoDup classes -> Forall (fun c => c ∈ classes) cs ->
  flat_map (fun c => group c (flat_map (fun c' => group c' samples) classes))
           cs
  = flat_map (fun c => group c samples) cs.
Proof.
  intros Hnd Hall. induction Hall as [|c cs' Hc _ IH]; [done|].
  cbn [flat_map]. rewrite IH. f_equal.
  by rewrite group_flat_groups, decide_True.
Qed.

Section Reordered.
Context {Img RNG : Type}.
Implicit Types (s : @Dataset.M2M_SVHN_LT Img RNG).

Lemma reordered_idem s :
  length (Dataset.data s) = length (Dataset.labels s) ->
  reordered (reordered s) = reordered s.
Proof.
  intros Hlen.
  pose proof (reordered_labels_perm s Hlen) as Hp.
  pose proof (np_unique_perm _ _ Hp) as Hu.
  assert (Hrp : rotated_pairs (Dataset.labels (reordered s))
                = rotated_pairs (Dataset.labels s)).
  { unfold rotated_pairs. rewrite Hu. apply map_ext. intros c.
    by rewrite (class_count_perm _ _ c Hp). }
  assert (Hg : flat_map
                 (fun c => group c (zip (Dataset.data (reordered s))
                                        (Dataset.labels (reordered s))))
                 (drop 1 (Dataset.np_unique (Dataset.labels s))
                  ++ take 1 (Dataset.np_unique (Dataset.labels s)))
               = flat_map
                   (fun c => group c (zip (Dataset.data s)
                                          (Dataset.labels s)))
                   (drop 1 (Dataset.np_unique (Dataset.labels s))
                    ++ take 1 (Dataset.np_unique (Dataset.labels s)))).
  { rewrite reordered_zip.
    apply regroup; [apply rotated_NoDup|by apply Forall_forall]. }
  unfold reordered at 1. rewrite Hu, Hrp, Hg. reflexivity.
Qed.

Lemma reordered_dict s (c : Z) :
  Dataset.num_per_cls_dict (reordered s) !! c
  = if decide (c ∈ Dataset.labels s)
    then Some (Dataset.class_count (Dataset.labels s) c) else None.
Proof.
  cbn [reordered Dataset.num_per_cls_dict]. case_decide as Hc.
  - apply foldl_insert_elem.
    + rewrite rotated_pairs_fst. apply rotated_NoDup.
    + apply list_elem_of_fmap. exists c. split; [done|].
      by apply rotated_elem.
  - rewrite foldl_insert_notin; [done|].
    rewrite rotated_pairs_fst. by rewrite rotated_elem.
Qed.
End Reordered.

(** X16. [change_order_class] is idempotent: a second call on the dataset it
    has reordered succeeds and changes nothing, since [np.unique] sorts the
    classes again before the first one is moved to the end. *)
Theorem change_order_class_idempotent {Img RNG : Type}
    (s s1 : @Dataset.M2M_SVHN_LT Img RNG) :
  length (Dataset.data s) = length (Dataset.labels s) ->
  change_order_class s = (Ok tt, s1) ->
  change_order_class s1 = (Ok tt, s1).
Proof.
  intros Hlen Hrun. rewrite (change_order_class_run s Hlen) in Hrun.
  case_decide as Hnil; [done|]. injection Hrun as <-.
  rewrite change_order_class_run by (cbn; by rewrite !length_fmap).
  rewrite decide_False, reordered_idem; [done..|].
  intros Hnil'. pose proof (reordered_labels_perm s Hlen) as Hp.
  rewrite Hnil' in Hp. by apply Permutation_nil in Hp.
Qed.

Lemma change_order_class_idempotent_witness :
  change_order_class (change_order_class Examples.svhn).2
  = (Ok tt, (change_order_class Examples.svhn).2).
Proof.
  apply (change_order_class_idempotent Examples.svhn
           (change_order_class Examples.svhn).2); reflexivity.
Defined.

(** X17. After [change_order_class] on a dataset whose classes are
    [0 .. k-1], [get_cls_num_list] returns the class sizes in class order
    (or [KeyError(k)] when [cls_num > k]), while [img_num_list] holds the
    same sizes with the size of class 0 moved to the end. *)
Theorem get_cls_num_list_after_reorder {Img RNG : Type}
    (cls_num k : nat) (s s' : @Dataset.M2M_SVHN_LT Img RNG) :
  let sizes := map (fun i => Dataset.class_count (Dataset.labels s)
                                                 (Z.of_nat i)) (seq 0 k) in
  length (Dataset.data s) = length (Dataset.labels s) ->
  Dataset.np_unique (Dataset.labels s) = Z.of_nat <$> seq 0 k ->
  change_order_class s = (Ok tt, s') ->
  get_cls_num_list cls_num s'
  = (if decide (cls_num <= k)%nat then inr (take cls_num sizes)
     else inl (KeyError (Z.of_nat k)))
  /\ Dataset.img_num_list s' = drop 1 sizes ++ take 1 sizes.
Proof.
  intros sizes Hlen Hcls Hrun. rewrite (change_order_class_run s Hlen) in Hrun.
  case_decide as Hnil; [done|]. injection Hrun as <-.
  assert (Hin : forall i : nat, Z.of_nat i ∈ Dataset.labels s <-> (i < k)%nat).
  { intros i. rewrite <- np_unique_elem, Hcls, list_elem_of_fmap.
    split.
    - intros (j & Hj & Hjk%elem_of_seq). lia.
    - intros Hi. exists i. split; [done|]. apply elem_of_seq. lia. }
  split.
  - case_decide as Hn.
    + apply get_cls_num_list_ok; [unfold sizes; rewrite length_take, length_map, length_seq; lia|].
      intros i Hi. rewrite reordered_dict, decide_True by (apply Hin; lia).
      rewrite lookup_take_lt by done. unfold sizes.
      change (map ?f (seq 0 k)) with (f <$> seq 0 k).
      by rewrite list_lookup_fmap, lookup_seq_lt by lia.
    + apply get_cls_num_list_missing; [lia| |].
      * rewrite reordered_dict, decide_False; [done|]. rewrite Hin. lia.
      * intros j Hj. rewrite reordered_dict, decide_True by (by apply Hin).
        done.
  - cbn [reordered Dataset.img_num_list]. unfold rotated_pairs, sizes.
    rewrite Hcls.
    change (map ?f (seq 0 k)) with (f <$> seq 0 k).
    rewrite <- !fmap_drop, <- !fmap_take.
    change (@fmap list _) with (@map) at 1.
    rewrite <- !fmap_app, <- !list_fmap_compose. done.
Qed.

Lemma get_cls_num_list_after_reorder_witness :
  let sizes := map (fun i => Dataset.class_count
                               (Dataset.labels Examples.svhn) (Z.of_nat i))
                   (seq 0 2) in
  get_cls_num_list 2 (change_order_class Examples.svhn).2
  = (if decide (2 <= 2)%nat then inr (take 2 sizes)
     else inl (KeyError (Z.of_nat 2)))
  /\ Dataset.img_num_list (change_order_class Examples.svhn).2
     = drop 1 sizes ++ take 1 sizes.
Proof.
  apply (get_cls_num_list_after_reorder 2 2 Examples.svhn
           (change_order_class Examples.svhn).2); reflexivity.
Defined.

(** ** More on the DRW schedule and the criterion *)

Lemma getitem_betas_cases (i : Z) :
  if decide (-2 <= i < 2) then exists b, getitem betas i = Ok b
  else getitem betas i = Raise IndexError.
Proof.
  unfold getitem, index_of.
  change (Z.of_nat (length betas)) with 2.
  case_decide as Hi.
  - destruct (decide (0 <= i < 2)) as [Hp|Hp]; simpl_result.
    + assert (i = 0 \/ i = 1) as [-> | ->] by lia; by eexists.
    + rewrite decide_True by lia. simpl_result.
      assert (i = -2 \/ i = -1) as [-> | ->] by lia; by eexists.
  - rewrite decide_False, decide_False by lia. done.
Qed.

Lemma drw_weights_outcome (epochs epoch : Z) (cls_num_list : list Z) :
  match drw_weights epochs epoch cls_num_list with
  | Ok w => length w = length cls_num_list
            /\ -2 <= drw_idx epochs epoch < 2
  | Raise e =>
      (e = IndexError /\ ~ -2 <= drw_idx epochs epoch < 2)
      \/ (e = ValueError "Integers to negative integer powers are not allowed."
          /\ -2 <= drw_idx epochs epoch < 2)
  end.
Proof.
  unfold drw_weights.
  pose proof (getitem_betas_cases (drw_idx epochs epoch)) as Hsel.
  case_decide as Hi.
  - destruct Hsel as [b Hb]. rewrite Hb. simpl_result.
    unfold effective_num, np_power.
    destruct b as [z|x]; [case_decide|]; simpl_result; [|by right|].
    + split; [|done]. unfold normalize, raw_weights.
      by rewrite !length_map.
    + split; [|done]. unfold normalize, raw_weights.
      by rewrite !length_map.
  - rewrite Hsel. by left.
Qed.

Lemma drw_idx_range (epochs epoch : Z) :
  let breakpoint := if decide (epochs = 300) then 250 else 160 in
  -2 <= drw_idx epochs epoch < 2
  <-> -2 * breakpoint <= epoch < 2 * breakpoint.
Proof.
  intros breakpoint. rewrite drw_idx_div. fold breakpoint.
  assert (Hbp : 0 < breakpoint) by (unfold breakpoint; case_decide; lia).
  pose proof (Z.div_mod epoch breakpoint ltac:(lia)).
  pose proof (Z.mod_pos_bound epoch breakpoint Hbp).
  split; intros [? ?]; split; nia.
Qed.

(** X18. A DRW trainer's [get_criterion] ends in [IndexError] exactly when the
    epoch is outside the first two stages, counted with Python's negative
    indices: [epoch >= 2 * breakpoint] or [epoch < -2 * breakpoint]. *)
Theorem get_criterion_index_error {Model OptState Meters : Type}
    (k : TrainerKind) (t : @Trainer Model OptState Meters) :
  k = LDAMDRWTrainer \/ k = MixupTrainer ->
  strategy t = own_strategy k ->
  let breakpoint := if decide (epochs (cfg t) = 300) then 250 else 160 in
  (get_criterion k t).1 = Raise IndexError
  <-> (epoch t < -2 * breakpoint \/ 2 * breakpoint <= epoch t).
Proof.
  intros Hk Hs breakpoint. rewrite (get_criterion_drw k t Hk Hs).
  pose proof (drw_weights_outcome (epochs (cfg t)) (epoch t) (cls_num_list t))
    as Hout.
  pose proof (drw_idx_range (epochs (cfg t)) (epoch t)) as Hrange.
  cbv zeta in Hrange. fold breakpoint in Hrange.
  destruct (drw_weights _ _ _) as [w|e]; cbn [fst].
  - destruct Hout as [_ Hi]. apply Hrange in Hi. split; [done|lia].
  - destruct Hout as [[-> Hi]|[-> Hi]].
    + split; [intros _|done]. rewrite Hrange in Hi. lia.
    + apply Hrange in Hi. split; [done|lia].
Qed.

Lemma get_criterion_index_error_witness :
  (get_criterion LDAMDRWTrainer
     (Examples.trainer "LDAM_DRW" 400 320 [10; 5])).1 = Raise IndexError
  <-> (320 < -2 * (if decide (400 = 300) then 250 else 160)
       \/ 2 * (if decide (400 = 300) then 250 else 160) <= 320).
Proof.
  apply (get_criterion_index_error LDAMDRWTrainer
           (Examples.trainer "LDAM_DRW" 400 320 [10; 5])).
  - left. reflexivity.
  - reflexivity.
Defined.

(** X19. [get_criterion] assigns [self.criterion] and nothing else, and
    assigns nothing when it raises.  [ERMTrainer] installs an unweighted
    cross entropy; the DRW trainers install a weight vector with one entry
    per entry of [self.cls_num_list], while [LDAMLoss] receives the counts
    of [self.cfg.cls_num_list]. *)
Theorem get_criterion_frame {Model OptState Meters : Type}
    (k : TrainerKind) (t : @Trainer Model OptState Meters) :
  match get_criterion k t with
  | (Ok _, t') =>
      strategy t = own_strategy k
      /\ exists c, t' = set_criterion c t
         /\ match k with
            | ERMTrainer => c = CrossEntropyLoss None "none"
            | LDAMDRWTrainer =>
                exists w, length w = length (cls_num_list t)
                  /\ c = LDAMLoss (cfg_cls_num_list (cfg t)) (Q2Qc (1 # 2))
                                  30 w
            | MixupTrainer =>
                exists w, length w = length (cls_num_list t)
                  /\ c = CrossEntropyLoss (Some w) "none"
            end
  | (Raise _, t') => t' = t
  end.
Proof.
  pose proof (drw_weights_outcome (epochs (cfg t)) (epoch t) (cls_num_list t))
    as Hout.
  destruct k; unfold get_criterion, get, mbind, method_bind, lift, modify,
    raise; cbn [own_strategy].
  - destruct (String.eqb_spec (strategy t) "ERM") as [Hs|Hs]; [|done].
    split; [done|]. by eexists.
  - destruct (String.eqb_spec (strategy t) "LDAM_DRW") as [Hs|Hs]; [|done].
    destruct (drw_weights _ _ _) as [w|e]; [|done].
    split; [done|]. eexists. split; [done|]. exists w. by destruct Hout.
  - destruct (String.eqb_spec (strategy t) "Mixup_DRW") as [Hs|Hs]; [|done].
    destruct (drw_weights _ _ _) as [w|e]; [|done].
    split; [done|]. eexists. split; [done|]. exists w. by destruct Hout.
Qed.

(** ** Rare classes weigh more *)

Lemma Qcpower_antitone (x : Qc) (n m : nat) :
  (0 <= x)%Qc -> (x <= 1)%Qc -> (n <= m)%nat -> (x ^ m <= x ^ n)%Qc.
Proof.
  intros H0 H1 Hnm. induction Hnm as [|m Hnm IH]; [apply Qcle_refl|].
  apply Qcle_trans with (x ^ m)%Qc; [|done]. cbn [Qcpower].
  apply Qcle_trans with (1 * x ^ m)%Qc.
  - apply Qcmult_le_compat_r; [done|by apply Qcpower_pos].
  - rewrite Qcmult_1_l. apply Qcle_refl.
Qed.

Lemma Qcinv_antitone (a b : Qc) :
  (0 < a)%Qc -> (a <= b)%Qc -> (/ b <= / a)%Qc.
Proof.
  intros Ha Hab.
  assert (Hb : (0 < b)%Qc) by (by eapply Qclt_le_trans).
  apply (Qcmult_lt_0_le_reg_r _ _ (a * b)%Qc).
  - by apply Qcmult_pos_pos.
  - replace (/ b * (a * b))%Qc with a
      by (field; by apply Qc_pos_nonzero).
    replace (/ a * (a * b))%Qc with b
      by (field; by apply Qc_pos_nonzero).
    done.
Qed.

Lemma class_weight_antitone (b : scalar) (n m : Z) :
  b = PyInt 0 \/ b = PyFloat (Q2Qc (9999 # 10000)) ->
  1 <= n <= m ->
  (class_weight (to_float b) m <= class_weight (to_float b) n)%Qc.
Proof.
  intros Hb Hnm. destruct (Qc_beta_range b Hb) as [H0 H1].
  unfold class_weight, Qcdiv. rewrite !(Qcmult_comm (1 - to_float b)).
  apply Qcmult_le_compat_r.
  - apply Qcinv_antitone; [apply effective_num_nonzero; [done|lia]|].
    unfold Qcminus. apply Qcplus_le_compat; [apply Qcle_refl|].
    apply Qcopp_le_compat, Qcpower_antitone;
      [done|by apply Qclt_le_weak|lia].
  - unfold Qcminus. apply (proj1 (Qcle_minus_iff _ _)).
    by apply Qclt_le_weak.
Qed.

(** X20. With every count at least 1 the weights of the DRW trainers are
    positive, and a class with fewer samples never weighs less than a class
    with more. *)
Theorem drw_weights_favour_rare (epochs epoch : Z) (cls_num_list : list Z)
    (b : scalar) :
  getitem betas (drw_idx epochs epoch) = Ok b ->
  Forall (fun n => 1 <= n) cls_num_list ->
  exists ws : list Qc,
    drw_weights epochs epoch cls_num_list = Ok (map Fin ws)
    /\ length ws = length cls_num_list
    /\ Forall (fun w => (0 < w)%Qc) ws
    /\ forall i j ni nj wi wj,
         cls_num_list !! i = Some ni -> cls_num_list !! j = Some nj ->
         ws !! i = Some wi -> ws !! j = Some wj ->
         ni <= nj -> (wj <= wi)%Qc.
Proof.
  intros Hsel Hcls. pose proof (getitem_betas _ _ Hsel) as Hb.
  exists (drw_formula (to_float b) cls_num_list).
  split; [by apply drw_weights_selected|].
  split; [apply drw_formula_length|].
  destruct (decide (cls_num_list = [])) as [->|Hne].
  { split; [constructor|]. intros i j ni nj wi wj Hi. done. }
  pose proof (class_weights_pos b cls_num_list Hb Hcls) as Hpos.
  unfold drw_formula.
  set (raw := map (class_weight (to_float b)) cls_num_list) in *.
  set (K := Q2Qc (inject_Z (Z.of_nat (length cls_num_list)))).
  assert (Hsum : (0 < / qsum raw)%Qc).
  { apply Qcinv_pos, qsum_pos; [done|]. unfold raw. by destruct cls_num_list. }
  assert (HK : (0 < K)%Qc).
  { unfold K. rewrite <- qsum_replicate_1. apply qsum_pos.
    - apply Forall_replicate. by vm_compute.
    - by destruct cls_num_list. }
  split.
  - apply Forall_map. eapply Forall_impl; [exact Hpos|]. intros w Hw. cbn.
    unfold Qcdiv. by repeat apply Qcmult_pos_pos.
  - intros i j ni nj wi wj Hi Hj Hwi Hwj Hle.
    assert (Hraw : forall k n, cls_num_list !! k = Some n ->
              raw !! k = Some (class_weight (to_float b) n)).
    { intros k n Hk. unfold raw.
      change (map ?f cls_num_list) with (f <$> cls_num_list).
      by rewrite list_lookup_fmap, Hk. }
    change (map ?f raw) with (f <$> raw) in Hwi, Hwj.
    rewrite list_lookup_fmap, (Hraw _ _ Hi) in Hwi.
    rewrite list_lookup_fmap, (Hraw _ _ Hj) in Hwj.
    cbn in Hwi, Hwj. injection Hwi as <-. injection Hwj as <-.
    pose proof (proj1 (Forall_forall _ _) Hcls ni
                  (list_elem_of_lookup_2 _ _ _ Hi)) as Hni. cbn in Hni.
    unfold Qcdiv.
    apply Qcmult_le_compat_r; [|by apply Qclt_le_weak].
    apply Qcmult_le_compat_r; [|by apply Qclt_le_weak].
    apply class_weight_antitone; [done|lia].
Qed.

Lemma drw_weights_favour_rare_witness :
  exists ws : list Qc,
    drw_weights 200 160 [10; 5] = Ok (map Fin ws)
    /\ length ws = length [10; 5]
    /\ Forall (fun w => (0 < w)%Qc) ws
    /\ forall i j ni nj wi wj,
         [10; 5] !! i = Some ni -> [10; 5] !! j = Some nj ->
         ws !! i = Some wi -> ws !! j = Some wj ->
         ni <= nj -> (wj <= wi)%Qc.
Proof.
  apply (drw_weights_favour_rare 200 160 [10; 5]
           (PyFloat (Q2Qc (9999 # 10000)))).
  - reflexivity.
  - repeat apply Forall_cons_2; [..|apply Forall_nil_2]; lia.
Defined.

(** ** More on the training loop *)

Section LoopFacts.
Context {Model OptState Batch BatchStats Meters : Type}.
Variable learn : TrainerKind -> option Criterion -> Batch -> Model ->
                 @Optimizer OptState ->
                 result (Model * @Optimizer OptState * BatchStats).
Variable meters_init : Meters.
Variable meters_update : Meters -> BatchStats -> Meters.
Implicit Types (t : @Trainer Model OptState Meters).

Lemma report_lines (k : TrainerKind) (i total : nat) (meters : Meters)
    t t' :
  report k i total meters t = (Ok tt, t') ->
  (exists l, log_training t' = log_training t ++ [l]
             /\ ll_epoch l = epoch t /\ ll_total l = total
             /\ ll_batch l = i /\ ll_meters l = meters)
  /\ strategy t' = strategy t /\ cls_num_list t' = cls_num_list t
  /\ cfg t' = cfg t /\ epoch t' = epoch t /\ criterion t' = criterion t
  /\ model t' = model t /\ optimizer t' = optimizer t.
Proof.
  unfold report, mbind, method_bind, get, lift, modify, mret, method_ret.
  destruct (reported_lr (optimizer t)) as [v|e] eqn:Hv; [|done].
  destruct k; cbn [write_log optimizer epoch]; [rewrite Hv|..];
    intros [= <-]; (split; [eexists; by split_and!|done]).
Qed.

Lemma batch_body_lines (k : TrainerKind) (total : nat)
    (m0 : Meters) (p0 : list BatchStats) (r : Meters * list BatchStats)
    (i : nat) (batch : Batch) t t1 :
  batch_body learn meters_update k total (m0, p0) (i, batch) t = (Ok r, t1) ->
  exists m' o' stats lines,
    learn k (criterion t) batch (model t) (optimizer t) = Ok (m', o', stats)
    /\ r = (meters_update m0 stats, p0 ++ [stats])
    /\ log_training t1 = log_training t ++ lines
    /\ Forall (fun l => ll_epoch l = epoch t /\ ll_total l = total
                        /\ ll_batch l = i
                        /\ ll_meters l = meters_update m0 stats) lines
    /\ strategy t1 = strategy t /\ cls_num_list t1 = cls_num_list t
    /\ cfg t1 = cfg t /\ epoch t1 = epoch t /\ criterion t1 = criterion t.
Proof.
  unfold batch_body, mbind, method_bind, get, lift, modify, mret, method_ret.
  destruct (learn k _ batch _ _) as [[[m' o'] stats]|e]; [|done].
  cbn [set_model_optimizer cfg].
  unfold is_report_batch. case_decide as Hpf; [done|].
  destruct (bool_decide (Z.of_nat i mod print_freq (cfg t) = 0)).
  - destruct (report _ _ _ _ _) as [[[]|e] t2] eqn:Hrep; [|done].
    intros [= <- <-].
    apply report_lines in Hrep
      as ((l & Hlog & Hle & Hlt & Hlb & Hlm) & Hs & Hc & Hcfg & Hep & Hcr & _).
    cbn in Hlog, Hle, Hs, Hc, Hcfg, Hep, Hcr.
    exists m', o', stats, [l]. split_and!; try done.
    by repeat constructor.
  - intros [= <- <-]. exists m', o', stats, [].
    split_and!; try done. by rewrite app_nil_r.
Qed.

Lemma batches_lines (k : TrainerKind) (total : nat)
    (train_loader : list Batch) :
  forall (first : nat) (m0 : Meters) (p0 : list BatchStats)
         (r : Meters * list BatchStats) t t',
  for_loop (batch_body learn meters_update k total) (m0, p0)
           (zip (seq first (length train_loader)) train_loader) t
  = (Ok r, t') ->
  exists stats lines,
    r = (foldl meters_update m0 stats, p0 ++ stats)
    /\ length stats = length train_loader
    /\ log_training t' = log_training t ++ lines
    /\ Forall (fun l =>
                 ll_epoch l = epoch t /\ ll_total l = total
                 /\ (first <= ll_batch l < first + length stats)%nat
                 /\ ll_meters l
                    = foldl meters_update m0
                            (take (S (ll_batch l - first)) stats)) lines
    /\ strategy t' = strategy t /\ cls_num_list t' = cls_num_list t
    /\ cfg t' = cfg t /\ epoch t' = epoch t /\ criterion t' = criterion t.
Proof.
  induction train_loader as [|batch rest IH]; intros first m0 p0 r t t'.
  - cbn. intros [= <- <-]. exists [], [].
    rewrite !app_nil_r. by split_and!.
  - cbn [length seq zip zip_with for_loop].
    unfold mbind at 1, method_bind at 1.
    destruct (batch_body _ _ _ _ _ _ _) as [[acc1|e] t1] eqn:Hbody; [|done].
    intros Hrest.
    apply batch_body_lines in Hbody
      as (m' & o' & stats0 & lines0 & Hlearn & -> & Hlog0 & Hlines0
          & Hs & Hc & Hcfg & Hep & Hcr).
    apply IH in Hrest
      as (stats & lines & -> & Hlen & Hlog & Hlines
          & Hs' & Hc' & Hcfg' & Hep' & Hcr').
    exists (stats0 :: stats), (lines0 ++ lines).
    split_and!; try congruence.
    + by rewrite <- app_assoc.
    + cbn [length]. by rewrite Hlen.
    + by rewrite Hlog, Hlog0, app_assoc.
    + apply Forall_app. split.
      * eapply Forall_impl; [exact Hlines0|].
        intros l (Hle & Hlt & Hlb & Hlm).
        rewrite Hlb, Nat.sub_diag. cbn [length]. split_and!; try done; lia.
      * eapply Forall_impl; [exact Hlines|].
        intros l (Hle & Hlt & Hlb & Hlm).
        cbn [length]. split_and!; [congruence|done|lia|lia|].
        rewrite Hlm.
        replace (S (ll_batch l - first)) with (S (S (ll_batch l - S first)))
          by lia.
        done.
Qed.
End LoopFacts.

(** X21. [print_freq = 0]: the first batch is learnt, model and optimizer are
    replaced, and only then does [i % print_freq] raise
    [ZeroDivisionError]; nothing is logged and the epoch's metrics are
    never computed. *)
Theorem train_one_epoch_print_freq_zero
    {Model OptState Batch BatchStats Meters : Type}
    (learn : TrainerKind -> option Criterion -> Batch -> Model ->
             @Optimizer OptState ->
             result (Model * @Optimizer OptState * BatchStats))
    (meters_init : Meters) (meters_update : Meters -> BatchStats -> Meters)
    (compute_metrics_and_record :
       list BatchStats -> Meters -> method (@Trainer Model OptState Meters) unit)
    (k : TrainerKind) (batch : Batch) (rest : list Batch)
    (t : @Trainer Model OptState Meters)
    (m : Model) (o : @Optimizer OptState) (stats : BatchStats) :
  print_freq (cfg t) = 0 ->
  learn k (criterion t) batch (model t) (optimizer t) = Ok (m, o, stats) ->
  train_one_epoch learn meters_init meters_update compute_metrics_and_record
                  k (batch :: rest) t
  = (Raise ZeroDivisionError, set_model_optimizer m o t).
Proof.
  intros Hpf Hlearn.
  unfold train_one_epoch, train_batches.
  cbn [length seq zip zip_with for_loop].
  unfold batch_body, mbind, method_bind, get, lift, modify, mret, method_ret.
  rewrite Hlearn. cbn [set_model_optimizer cfg].
  unfold is_report_batch. by rewrite decide_True.
Qed.

Lemma train_one_epoch_print_freq_zero_witness :
  train_one_epoch Examples.idle_learn tt (fun m _ => m) Examples.no_record
    ERMTrainer [tt; tt]
    (Examples.with_print_freq 0 (Examples.trainer "ERM" 200 0 [10; 5]))
  = (Raise ZeroDivisionError,
     set_model_optimizer tt
       (optimizer (Examples.trainer "ERM" 200 0 [10; 5]))
       (Examples.with_print_freq 0 (Examples.trainer "ERM" 200 0 [10; 5]))).
Proof.
  apply (train_one_epoch_print_freq_zero Examples.idle_learn tt
           (fun m _ => m) Examples.no_record ERMTrainer tt [tt]
           (Examples.with_print_freq 0 (Examples.trainer "ERM" 200 0 [10; 5]))
           tt (optimizer (Examples.trainer "ERM" 200 0 [10; 5])) tt);
    reflexivity.
Defined.

(** X22. In a successful run of the loop the meters returned have been
    updated with the figures of every batch, in order, reported or not;
    every line written carries [self.epoch], [len(train_loader)] and the
    meters as they stood after the batch of the line; strategy, counts,
    configuration, epoch and criterion are left alone. *)
Theorem train_batches_meters
    {Model OptState Batch BatchStats Meters : Type}
    (learn : TrainerKind -> option Criterion -> Batch -> Model ->
             @Optimizer OptState ->
             result (Model * @Optimizer OptState * BatchStats))
    (meters_init : Meters) (meters_update : Meters -> BatchStats -> Meters)
    (k : TrainerKind) (train_loader : list Batch)
    (t t' : @Trainer Model OptState Meters) (r : Meters * list BatchStats) :
  train_batches learn meters_init meters_update k train_loader t = (Ok r, t') ->
  r.1 = foldl meters_update meters_init r.2
  /\ length r.2 = length train_loader
  /\ (exists lines,
        log_training t' = log_training t ++ lines
        /\ Forall (fun l =>
                     ll_epoch l = epoch t
                     /\ ll_total l = length train_loader
                     /\ (ll_batch l < length train_loader)%nat
                     /\ ll_meters l
                        = foldl meters_update meters_init
                                (take (S (ll_batch l)) r.2)) lines)
  /\ strategy t' = strategy t /\ cls_num_list t' = cls_num_list t
  /\ cfg t' = cfg t /\ epoch t' = epoch t /\ criterion t' = criterion t.
Proof.
  unfold train_batches. unfold mbind at 1, method_bind at 1.
  destruct (for_loop _ _ _ _) as [[[meters all_preds]|e] t1] eqn:Hloop;
    [|done].
  apply batches_lines in Hloop
    as (stats & lines & [= -> ->] & Hlen & Hlog & Hlines
        & Hs & Hc & Hcfg & Hep & Hcr).
  assert (Hl : Forall (fun l =>
                 ll_epoch l = epoch t
                 /\ ll_total l = length train_loader
                 /\ (ll_batch l < length train_loader)%nat
                 /\ ll_meters l
                    = foldl meters_update meters_init
                            (take (S (ll_batch l)) stats)) lines).
  { eapply Forall_impl; [exact Hlines|].
    intros l (Hle & Hlt & Hlb & Hlm). rewrite Nat.sub_0_r in Hlm.
    split_and!; [done..|lia|done]. }
  destruct k; unfold mbind, method_bind, get, lift, modify, mret, method_ret.
  - intros [= <- <-]. cbn. split_and!; try done. by exists lines.
  - intros [= <- <-]. cbn. split_and!; try done. by exists lines.
  - destruct (reported_lr (optimizer t1)) as [v|e]; [|done].
    intros [= <- <-]. cbn. split_and!; try done. by exists lines.
Qed.

Lemma train_batches_meters_witness :
  length
    (train_batches Examples.idle_learn tt (fun m _ => m) LDAMDRWTrainer
       [tt; tt; tt] (Examples.trainer "LDAM_DRW" 200 0 [10; 5])).2.(log_training)
  = 3%nat
  /\ criterion
       (train_batches Examples.idle_learn tt (fun m _ => m) LDAMDRWTrainer
          [tt; tt; tt] (Examples.trainer "LDAM_DRW" 200 0 [10; 5])).2
     = criterion (Examples.trainer "LDAM_DRW" 200 0 [10; 5]).
Proof.
  pose proof (train_batches_meters Examples.idle_learn tt (fun m _ => m)
                LDAMDRWTrainer [tt; tt; tt]
                (Examples.trainer "LDAM_DRW" 200 0 [10; 5])
                (train_batches Examples.idle_learn tt (fun m _ => m)
                   LDAMDRWTrainer [tt; tt; tt]
                   (Examples.trainer "LDAM_DRW" 200 0 [10; 5])).2
                (tt, [tt; tt; tt]) eq_refl)
    as (_ & _ & _ & _ & _ & _ & _ & Hcr).
  split; [reflexivity|exact Hcr].
Defined.

(** ** Mixup *)

Lemma within_mix (lo hi lam : Qc) (a b : npfloat) :
  (0 <= lam <= 1)%Qc -> within lo hi a -> within lo hi b ->
  within lo hi (np_add (np_mul (Fin lam) a) (np_mul (Fin (1 - lam)) b)).
Proof.
  intros [H0 H1] Ha Hb. destruct a as [u| | |], b as [v| | |]; try done.
  cbn in *. destruct Ha as [Hau Hua], Hb as [Hbv Hvb].
  assert (H1' : (0 <= 1 - lam)%Qc).
  { unfold Qcminus. by apply (proj1 (Qcle_minus_iff _ _)). }
  split.
  - replace lo with (lam * lo + (1 - lam) * lo)%Qc by ring.
    apply Qcplus_le_compat; rewrite !(Qcmult_comm _ lo), ?(Qcmult_comm _ u),
      ?(Qcmult_comm _ v); by apply Qcmult_le_compat_r.
  - replace hi with (lam * hi + (1 - lam) * hi)%Qc by ring.
    apply Qcplus_le_compat; rewrite !(Qcmult_comm _ hi), ?(Qcmult_comm _ u),
      ?(Qcmult_comm _ v); by apply Qcmult_le_compat_r.
Qed.

Lemma to_float_one : to_float (PyInt 1) = 1%Qc.
Proof. by apply Qc_is_canon. Qed.

(** [1 * a + 0 * b] in IEEE arithmetic. *)
Lemma mix_entry_one (a b : npfloat) :
  np_add (np_mul (Fin (to_float (PyInt 1))) a)
         (np_mul (Fin (1 - to_float (PyInt 1))) b)
  = match b with Fin _ => a | _ => NaN end.
Proof.
  rewrite to_float_one. replace (1 - 1)%Qc with 0%Qc by ring.
  assert (H10 : (1 <> 0)%Qc) by (by intros [=]).
  destruct a as [u| | |], b as [v| | |]; cbn;
    rewrite ?(decide_False _ _ H10), ?decide_True by done; cbn; try done.
  f_equal. ring.
Qed.

Lemma mix_row_one (row row' : list npfloat) :
  length row = length row' -> Forall is_finite row' ->
  zip_with np_add (map (np_mul (Fin (to_float (PyInt 1)))) row)
                  (map (np_mul (Fin (1 - to_float (PyInt 1)))) row')
  = row.
Proof.
  revert row'. induction row as [|a row IH]; intros [|b row'] Hlen Hfin;
    try done.
  apply Forall_cons in Hfin as [Hb Hfin]. cbn [map zip_with].
  rewrite mix_entry_one, IH by (done || by injection Hlen).
  by destruct b.
Qed.

Lemma mix_tensor_one (x x' : list (list npfloat)) :
  Forall2 (fun row row' => length row = length row'
                           /\ Forall is_finite row') x x' ->
  tensor_add (tensor_scale (to_float (PyInt 1)) x)
             (tensor_scale (1 - to_float (PyInt 1)) x')
  = x.
Proof.
  induction 1 as [|row row' x x' [Hlen Hfin] _ IH]; [done|].
  unfold tensor_add, tensor_scale in *. cbn [map zip_with].
  by rewrite IH, mix_row_one.
Qed.

Lemma mix_tensor_within (lo hi lam : Qc) (x x' : list (list npfloat)) :
  (0 <= lam <= 1)%Qc ->
  Forall (Forall (within lo hi)) x -> Forall (Forall (within lo hi)) x' ->
  Forall (Forall (within lo hi))
         (tensor_add (tensor_scale lam x) (tensor_scale (1 - lam) x')).
Proof.
  intros Hlam Hx. revert x'.
  induction Hx as [|row x Hrow _ IH]; intros [|row' x'] Hx'; try constructor.
  - apply Forall_cons in Hx' as [Hrow' _]. clear -Hlam Hrow Hrow'.
    revert row' Hrow'.
    induction Hrow as [|a row Ha _ IH]; intros [|b row'] Hrow';
      cbn; constructor.
    + apply Forall_cons in Hrow' as [Hb _]. by apply within_mix.
    + apply Forall_cons in Hrow' as [_ Hrow']. by apply IH.
  - apply Forall_cons in Hx' as [_ Hx']. by apply IH.
Qed.

Lemma lookups_perm {B : Type} (l xs : list B) (idxs : list nat) :
  idxs ≡ₚ seq 0 (length l) ->
  Forall2 (fun i x => l !! i = Some x) idxs xs ->
  xs ≡ₚ l.
Proof.
  intros Hp Hall.
  assert (Hxs : xs = omap (fun i => l !! i) idxs).
  { clear Hp. induction Hall as [|i x idxs xs Hi _ IH]; [done|].
    cbn. rewrite Hi. by f_equal. }
  by rewrite Hxs, Hp, omap_lookup_seq.
Qed.

Lemma perm_seq_bound (idxs : list nat) (n : nat) :
  idxs ≡ₚ seq 0 n -> Forall (fun i => (i < n)%nat) idxs.
Proof.
  intros Hp. apply Forall_forall. intros i Hi. rewrite Hp in Hi.
  apply elem_of_seq in Hi. lia.
Qed.

Section MixupFacts.
Context {NpRNG TorchRNG : Type}.
Variable np_random_beta : NpRNG -> Qc -> Qc -> Qc * NpRNG.
Variable randperm : TorchRNG -> nat -> list nat * TorchRNG.
Hypothesis randperm_perm : forall g n, (randperm g n).1 ≡ₚ seq 0 n.

(** The two indexings by [index] succeed and pair every sample with the
    row and the label of one partner. *)
Lemma mixup_partners (x : list (list npfloat)) (y : list Z)
    (g : TorchRNG) :
  length y = length x ->
  exists x_index y_b,
    Dataset.fancy_index x (randperm g (length x)).1 = Ok x_index
    /\ Dataset.fancy_index y (randperm g (length x)).1 = Ok y_b
    /\ Forall2 (fun i row => x !! i = Some row)
               (randperm g (length x)).1 x_index
    /\ y_b ≡ₚ y
    /\ x_index ≡ₚ x.
Proof using randperm_perm.
  intros Hlen. pose proof (randperm_perm g (length x)) as Hp.
  pose proof (perm_seq_bound _ _ Hp) as Hb.
  destruct (fancy_index_rows x _ Hb) as (x_index & Hx & Hrows).
  assert (Hb' : Forall (fun i => (i < length y)%nat)
                       (randperm g (length x)).1) by (by rewrite Hlen).
  destruct (fancy_index_rows y _ Hb') as (y_b & Hy & Hlabs).
  exists x_index, y_b. split_and!; [done..| |].
  - eapply lookups_perm; [|exact Hlabs]. by rewrite Hlen.
  - by eapply lookups_perm.
Qed.
End MixupFacts.

(** X23. [alpha <= 0]: no mixing.  [lam] is the integer 1, NumPy's generator
    is not used, the inputs come back unchanged (for finite pixels; a
    permutation is drawn all the same), and [y_b] is a rearrangement of
    [y]. *)
Theorem mixup_data_no_mix {NpRNG TorchRNG : Type}
    (np_random_beta : NpRNG -> Qc -> Qc -> Qc * NpRNG)
    (randperm : TorchRNG -> nat -> list nat * TorchRNG)
    (x : list (list npfloat)) (y : list Z) (alpha : Qc) (d : nat)
    (s : @Generators NpRNG TorchRNG) :
  (forall g n, (randperm g n).1 ≡ₚ seq 0 n) ->
  (alpha <= 0)%Qc ->
  Forall (fun row => length row = d /\ Forall is_finite row) x ->
  length y = length x ->
  exists y_b,
    mixup_data np_random_beta randperm x y alpha s
    = (Ok (x, y, y_b, PyInt 1),
       set_torch_gen (randperm (torch_gen s) (length x)).2 s)
    /\ y_b ≡ₚ y.
Proof.
  intros Hperm Halpha Hx Hlen.
  destruct (mixup_partners randperm Hperm x y (torch_gen s) Hlen)
    as (x_index & y_b & Hxi & Hyb & Hrows & Hpy & Hpx).
  exists y_b. split; [|done].
  unfold mixup_data. rewrite decide_False by (by apply Qcle_not_lt).
  unfold mbind, method_bind, mret, method_ret, get, modify, lift.
  destruct (randperm (torch_gen s) (length x)) as [index g] eqn:Hr.
  cbn [fst snd] in *. rewrite Hxi, Hyb.
  rewrite mix_tensor_one; [done|].
  assert (Hxi' : Forall (fun row => length row = d /\ Forall is_finite row)
                        x_index) by (by rewrite Hpx).
  pose proof (Forall2_length _ _ _ Hrows) as Hl.
  assert (Hxl : length x = length x_index).
  { rewrite <- Hl. apply Permutation_length in Hpx.
    pose proof (Hperm (torch_gen s) (length x)) as Hq.
    rewrite Hr in Hq. apply Permutation_length in Hq.
    rewrite length_seq in Hq. cbn in Hq. lia. }
  apply Forall2_same_length_lookup_2; [done|].
  intros i row row' Hi Hi'.
  pose proof (proj1 (Forall_forall _ _) Hx row
                (list_elem_of_lookup_2 _ _ _ Hi)) as [Hd _].
  pose proof (proj1 (Forall_forall _ _) Hxi' row'
                (list_elem_of_lookup_2 _ _ _ Hi')) as [Hd' Hf].
  split; [congruence|done].
Qed.

Lemma mixup_data_no_mix_witness :
  exists y_b,
    mixup_data Examples.half_beta Examples.rev_randperm Examples.images
               [0; 1] 0%Qc Examples.generators
    = (Ok (Examples.images, [0; 1], y_b, PyInt 1),
       set_torch_gen
         (Examples.rev_randperm (torch_gen Examples.generators)
            (length Examples.images)).2 Examples.generators)
    /\ y_b ≡ₚ [0; 1].
Proof.
  apply (mixup_data_no_mix Examples.half_beta Examples.rev_randperm
           Examples.images [0; 1] 0%Qc 2 Examples.generators).
  - intros g n. symmetry. apply Permutation_rev.
  - by vm_compute.
  - repeat apply Forall_cons_2; [..|apply Forall_nil_2];
      (split; [reflexivity|by repeat constructor]).
  - reflexivity.
Defined.

(** X24. [alpha > 0], with [np.random.beta] drawing from [[0, 1]]: the batch
    keeps its size, every pixel stays within the bounds of the input
    pixels, [y_a] is [y], [y_b] a rearrangement of [y], and PyTorch's
    generator is advanced after NumPy's. *)
Theorem mixup_data_within {NpRNG TorchRNG : Type}
    (np_random_beta : NpRNG -> Qc -> Qc -> Qc * NpRNG)
    (randperm : TorchRNG -> nat -> list nat * TorchRNG)
    (x : list (list npfloat)) (y : list Z) (alpha lo hi : Qc)
    (s : @Generators NpRNG TorchRNG) :
  (forall g n, (randperm g n).1 ≡ₚ seq 0 n) ->
  (forall g a b, (0 <= (np_random_beta g a b).1 <= 1)%Qc) ->
  (0 < alpha)%Qc ->
  Forall (Forall (within lo hi)) x ->
  length y = length x ->
  exists mixed_x y_b,
    mixup_data np_random_beta randperm x y alpha s
    = (Ok (mixed_x, y, y_b,
           PyFloat (np_random_beta (np_gen s) alpha alpha).1),
       {| np_gen := (np_random_beta (np_gen s) alpha alpha).2;
          torch_gen := (randperm (torch_gen s) (length x)).2 |})
    /\ length mixed_x = length x
    /\ Forall (Forall (within lo hi)) mixed_x
    /\ y_b ≡ₚ y.
Proof.
  intros Hperm Hbeta Halpha Hx Hlen.
  destruct (mixup_partners randperm Hperm x y (torch_gen s) Hlen)
    as (x_index & y_b & Hxi & Hyb & Hrows & Hpy & Hpx).
  specialize (Hbeta (np_gen s) alpha alpha).
  unfold mixup_data. rewrite decide_True by done.
  unfold mbind, method_bind, mret, method_ret, get, modify, lift.
  destruct (np_random_beta (np_gen s) alpha alpha) as [v g1].
  cbn [set_np_gen torch_gen np_gen fst snd] in *.
  destruct (randperm (torch_gen s) (length x)) as [index g] eqn:Hr.
  cbn [fst snd] in *. rewrite Hxi, Hyb.
  eexists _, y_b. split; [reflexivity|].
  split_and!; [|by apply mix_tensor_within; [|done|rewrite Hpx]|done].
  unfold tensor_add, tensor_scale.
  rewrite length_zip_with, !length_map.
  apply Permutation_length in Hpx. lia.
Qed.

Lemma mixup_data_within_witness :
  exists mixed_x y_b,
    mixup_data Examples.half_beta Examples.rev_randperm Examples.images
               [0; 1] 1%Qc Examples.generators
    = (Ok (mixed_x, [0; 1], y_b,
           PyFloat (Examples.half_beta (np_gen Examples.generators) 1 1).1),
       {| np_gen := (Examples.half_beta (np_gen Examples.generators) 1 1).2;
          torch_gen := (Examples.rev_randperm (torch_gen Examples.generators)
                          (length Examples.images)).2 |})
    /\ length mixed_x = length Examples.images
    /\ Forall (Forall (within 0 1)) mixed_x
    /\ y_b ≡ₚ [0; 1].
Proof.
  apply (mixup_data_within Examples.half_beta Examples.rev_randperm
           Examples.images [0; 1] 1%Qc 0%Qc 1%Qc Examples.generators).
  - intros g n. symmetry. apply Permutation_rev.
  - intros g a b. by vm_compute.
  - by vm_compute.
  - repeat apply Forall_cons_2; [..|apply Forall_nil_2]; by vm_compute.
  - reflexivity.
Defined.

Lemma tensor1_add_same (a b : list npfloat) :
  length a = length b -> tensor1_add a b = Ok (zip_with np_add a b).
Proof. intros Hlen. unfold tensor1_add. by rewrite decide_True. Qed.




(** X25. [mixup_criterion] at [lam = 1], the value [mixup_data] returns when
    [alpha <= 0], on loss vectors of one size: the loss against [y_a] where
    the loss against [y_b] is finite, and [nan] where that unused loss is
    [inf] or [nan]. *)
Theorem mixup_criterion_lam_one {Pred : Type}
    (criterion : Pred -> list Z -> list npfloat) (pred : Pred)
    (y_a y_b : list Z) :
  length (criterion pred y_a) = length (criterion pred y_b) ->
  mixup_criterion criterion pred y_a y_b (PyInt 1)
  = Ok (zip_with (fun a b => match b with Fin _ => a | _ => NaN end)
                 (criterion pred y_a) (criterion pred y_b))
    /\ (Forall is_finite (criterion pred y_b) ->
        mixup_criterion criterion pred y_a y_b (PyInt 1)
        = Ok (criterion pred y_a)).
Proof.
  intros Hlen. unfold mixup_criterion.
  rewrite tensor1_add_same by (by rewrite !length_map). split.
  - f_equal. generalize (criterion pred y_a) (criterion pred y_b). clear.
    induction l as [|a l IH]; intros [|b l']; try done.
    cbn [map zip_with]. by rewrite mix_entry_one, IH.
  - intros Hfin. f_equal. by apply mix_row_one.
Qed.

Lemma mixup_criterion_lam_one_witness :
  mixup_criterion Examples.label_loss tt [0; 1] [1; 0] (PyInt 1)
  = Ok (Examples.label_loss tt [0; 1]).
Proof.
  apply (mixup_criterion_lam_one Examples.label_loss tt [0; 1] [1; 0]
           eq_refl).
  by repeat constructor.
Defined.



Lemma fancy_index_from_raises {B : Type} (data : list B)
    (selec_idx : list nat) (acc : list B) :
  Exists (fun i => (length data <= i)%nat) selec_idx ->
  for_each (fun rows i => match data !! i with
                          | Some row => Ok (rows ++ [row])
                          | None => Raise IndexError
                          end) acc selec_idx = Raise IndexError.
Proof.
  intros Hex. revert acc.
  induction Hex as [i idx Hi|i idx _ IH]; intros acc; cbn [for_each].
  - by rewrite (lookup_ge_None_2 data i Hi).
  - destruct (data !! i); [apply IH|done].
Qed.

(** X27. Fewer labels than images: [x[index, :]] succeeds, but the permutation
    of [range(batch_size)] reaches past the end of [y] and [y[index]]
    raises [IndexError], after both generators have been used. *)
Theorem mixup_data_short_labels {NpRNG TorchRNG : Type}
    (np_random_beta : NpRNG -> Qc -> Qc -> Qc * NpRNG)
    (randperm : TorchRNG -> nat -> list nat * TorchRNG)
    (x : list (list npfloat)) (y : list Z) (alpha : Qc)
    (s : @Generators NpRNG TorchRNG) :
  (forall g n, (randperm g n).1 ≡ₚ seq 0 n) ->
  (length y < length x)%nat ->
  mixup_data np_random_beta randperm x y alpha s
  = (Raise IndexError,
     {| np_gen := if decide (0 < alpha)%Qc
                  then (np_random_beta (np_gen s) alpha alpha).2
                  else np_gen s;
        torch_gen := (randperm (torch_gen s) (length x)).2 |}).
Proof.
  intros Hperm Hlen.
  pose proof (Hperm (torch_gen s) (length x)) as Hp.
  pose proof (perm_seq_bound _ _ Hp) as Hb.
  destruct (fancy_index_rows x _ Hb) as (x_index & Hx & _).
  assert (Hy : Dataset.fancy_index y (randperm (torch_gen s) (length x)).1
               = Raise IndexError).
  { apply fancy_index_from_raises. apply Exists_exists.
    exists (length y). split; [|done].
    rewrite Hp. apply elem_of_seq. lia. }
  unfold mixup_data.
  unfold mbind, method_bind, mret, method_ret, get, modify, lift.
  case_decide as Ha.
  - destruct (np_random_beta (np_gen s) alpha alpha) as [v g1].
    cbn [set_np_gen torch_gen np_gen fst snd] in *.
    destruct (randperm (torch_gen s) (length x)) as [index g].
    cbn [fst snd] in *. by rewrite Hx, Hy.
  - destruct (randperm (torch_gen s) (length x)) as [index g].
    cbn [fst snd] in *. by rewrite Hx, Hy.
Qed.

Lemma mixup_data_short_labels_witness :
  mixup_data Examples.half_beta Examples.rev_randperm Examples.images [0]
             1%Qc Examples.generators
  = (Raise IndexError,
     {| np_gen := if decide (0 < 1)%Qc
                  then (Examples.half_beta (np_gen Examples.generators)
                          1 1).2
                  else np_gen Examples.generators;
        torch_gen := (Examples.rev_randperm (torch_gen Examples.generators)
                        (length Examples.images)).2 |}).
Proof.
  apply (mixup_data_short_labels Examples.half_beta Examples.rev_randperm
           Examples.images [0] 1%Qc Examples.generators).
  - intros g n. symmetry. apply Permutation_rev.
  - cbn. lia.
Defined.
